(** * GphlWorkflow: a shallow embedding of the workflow runner

    The definitions below follow
    [mxcubecore/HardwareObjects/GphlWorkflow.py] function by function.

    - Python [float]s are IEEE binary64 numbers: they are modelled by the
      kernel's primitive floats, with Python's own behaviour written out
      where it differs from IEEE (a division by zero raises
      [ZeroDivisionError], [math.log] raises [ValueError] outside its
      domain, truthiness is "different from zero").
    - Python exceptions are values of [exn]; code that may raise lives in
      the [result] monad.
    - [dict]s keyed by strings are [gmap string _]; [set]s are [gset _];
      an [OrderedDict] whose order is read back is an association list. *)

From Stdlib Require Import ZArith Floats String Ascii List Lia.
From stdpp Require Import base option list gmap sets strings pretty.

Open Scope string_scope.

(** ** Exceptions and results *)

Inductive exn : Type :=
| ValueError
| RuntimeError
| ZeroDivisionError
| IndexError
| KeyError
| TypeError
| AttributeError
| OverflowError.

Inductive result (A : Type) : Type :=
| Ok (a : A)
| Raise (e : exn).

Arguments Ok {A} a.
Arguments Raise {A} e.

#[export] Instance result_ret : MRet result := fun A a => Ok a.

#[export] Instance result_bind : MBind result := fun A B f m =>
match m with
| Ok a => f a
| Raise e => Raise e
end.

Definition is_ok {A} (r : result A) : bool :=
match r with Ok _ => true | Raise _ => false end.

(** ** Python's arithmetic on floats *)

Module PyFloat.

(** [bool(x)] for a float: false exactly for [0.0] and [-0.0]. *)
Definition truthy (x : float) : bool := negb (x =? 0)%float.

(** [bool(x)] for a value that may be [None]. *)
Definition truthy_opt (x : option float) : bool :=
  match x with
  | Some v => truthy v
  | None => false
  end.

(** [x / y]: Python raises where IEEE returns an infinity or a NaN. *)
Definition truediv (x y : float) : result float :=
  if (y =? 0)%float then Raise ZeroDivisionError else Ok (x / y)%float.

(** [x > y] *)
Definition gt (x y : float) : bool := (y <? x)%float.

(** The builtins [max(a, b)] and [min(a, b)]: the first argument is
    kept unless the second compares strictly beyond it. *)
Definition max2 (a b : float) : float := if (a <? b)%float then b else a.
Definition min2 (a b : float) : float := if (b <? a)%float then b else a.

(** [x or y] *)
Definition or_else (x : option float) (y : float) : float :=
  match x with
  | Some v => if truthy v then v else y
  | None => y
  end.

End PyFloat.

(** ** Dose, exposure and transmission *)

Module Dose.
Import PyFloat.

(** The values map of the parameter popup
    ([ui_communication.AbstractValuesMap]): [get_values_map] hands out
    the dictionary, [set_values] overwrites the named entries. *)
Definition get (parameters : gmap string float) (key : string) (dflt : float)
  : float :=
  default dflt (parameters !! key).

Definition set_values (updates : list (string * float))
    (values_map : gmap string float) : gmap string float :=
  foldl (fun m kv => <[kv.1 := kv.2]> m) values_map updates.

(** [GphlWorkflow.update_dose].  [exposure_limits] is what
    [HWR.beamline.detector.get_exposure_time_limits()] returns: a pair
    whose members may be [None]. *)
Definition update_dose (exposure_limits : option float * option float)
    (values_map : gmap string float) : result (gmap string float) :=
  let parameters := values_map in
  let exposure_time := get parameters "exposure" 0 in
  let image_width := get parameters "image_width" 0 in
  let use_dose := get parameters "use_dose" 0 in
  let std_dose_rate := get parameters "std_dose_rate" 0 in
  let total_strategy_length := get parameters "total_strategy_length" 0 in
  if truthy image_width && truthy exposure_time
     && truthy std_dose_rate && truthy use_dose
  then
    experiment_time ←
      truediv (exposure_time * total_strategy_length)%float image_width;
    transmission ←
      truediv (100 * use_dose)%float (std_dose_rate * experiment_time)%float;
    '(transmission, experiment_time, exposure_time) ←
      (if gt transmission 100 then
         (* Transmission too high. Try max transmission and longer exposure *)
         experiment_time ← truediv use_dose std_dose_rate;
         exposure_time ←
           truediv (experiment_time * image_width)%float total_strategy_length;
         Ok (100%float, experiment_time, exposure_time)
       else Ok (transmission, experiment_time, exposure_time));
    let max_exposure := exposure_limits.2 in
    match max_exposure with
    | Some mx =>
        if truthy mx && gt exposure_time mx then
          (* exposure_time over max; set dose to highest achievable dose *)
          experiment_time ←
            truediv (mx * total_strategy_length)%float image_width;
          let use_dose := (std_dose_rate * experiment_time)%float in
          Ok (set_values
                [("exposure", mx); ("transmission", 100%float);
                 ("use_dose", use_dose);
                 ("experiment_time", experiment_time)] values_map)
        else
          Ok (set_values
                [("exposure", exposure_time); ("transmission", transmission);
                 ("experiment_time", experiment_time)] values_map)
    | None =>
        Ok (set_values
              [("exposure", exposure_time); ("transmission", transmission);
               ("experiment_time", experiment_time)] values_map)
    end
  else Ok values_map.

Section Budget.

(** [math.log] on its domain is the C library's logarithm; only its
    domain check is Python's. *)
Variable libm_log : float -> float.

Definition math_log (x : float) : result float :=
  if (x <=? 0)%float then Raise ValueError else Ok (libm_log x).

(** [GphlWorkflow.resolution2dose_budget]; [settings] is
    [self.settings]. *)
Definition resolution2dose_budget (settings : gmap string float)
    (resolution : float) (decay_limit maximum_dose_budget : option float)
    (relative_rad_sensitivity : float) : result float :=
  let max_budget :=
    or_else maximum_dose_budget (get settings "maximum_dose_budget" 20) in
  let decay_limit := or_else decay_limit (get settings "decay_limit" 25) in
  ratio ← truediv 100 decay_limit;
  lg ← math_log ratio;
  let result := (2 * resolution * resolution * lg)%float in
  truediv (min2 result max_budget) relative_rad_sensitivity.

End Budget.

End Dose.

(** ** Lattice selection *)

Module Lattice.

(** Modelled from the spec: [GphlMessages.IndexingSolution] ("lattice
    character, Bravais lattice tag, quality-of-fit score, cell
    lengths/angles, consistency flag"); the message classes are not
    among the sources. *)
Record IndexingSolution : Type := {
  isConsistent : bool;
  latticeCharacter : Z;
  bravaisLattice : string;
  qualityOfFit : float;
  cell_lengths : float * float * float;
  cell_angles : float * float * float;
}.

(** Modelled from the spec: [GphlMessages.ChooseLattice] ("candidate
    solutions, optional list of allowed lattice tags, optional
    crystal-family letter"), with the indexing format the handler reads
    from it.  [lattices] and [crystalFamilyChar] may be [None]. *)
Record ChooseLattice : Type := {
  indexingSolutions : list IndexingSolution;
  indexingFormat : string;
  lattices : option (list string);
  crystalFamilyChar : option string;
}.

(** An [OrderedDict]: assigning to a key that is present replaces the
    value where it stands, a new key goes to the end. *)
Fixpoint odict_set {V} (key : string) (v : V) (d : list (string * V))
  : list (string * V) :=
  match d with
  | [] => [(key, v)]
  | (k, w) :: rest =>
      if String.eqb k key then (k, v) :: rest
      else (k, w) :: odict_set key v rest
  end.

Definition odict_values {V} (d : list (string * V)) : list V := map snd d.

(** [soldict.values()[select_row]].  On Python 2 [values()] is a list
    and the subscript is positional; on Python 3 it is a view, which has
    no subscript: the statement raises [TypeError].  A row that is still
    [None] is no index on either. *)
Inductive dialect : Type := Py2 | Py3.

Definition values_subscript {V} (py : dialect) (d : list (string * V))
    (select_row : option nat) : result V :=
  match py, select_row with
  | Py2, Some i =>
      match odict_values d !! i with
      | Some v => Ok v
      | None => Raise IndexError
      end
  | _, _ => Raise TypeError
  end.

(** [bool(s)] for a string that may be [None]. *)
Definition truthy_str (s : option string) : bool :=
  match s with
  | Some (String _ _) => true
  | _ => false
  end.

(** [lattice[0]] *)
Definition first_char (s : string) : result string :=
  match s with
  | String c _ => Ok (String c EmptyString)
  | EmptyString => Raise IndexError
  end.

(** [for ii, solution in enumerate(l): if test(solution): select_row = ii; break] *)
Fixpoint first_index {A} (test : A -> bool) (l : list A) : option nat :=
  match l with
  | [] => None
  | x :: rest => if test x then Some 0%nat else S <$> first_index test rest
  end.

(** [set(lattice[0] for lattice in lattices)], as the list of its
    distinct members. *)
Fixpoint first_chars (lattices : list string) : result (list string) :=
  match lattices with
  | [] => Ok []
  | l :: rest =>
      c ← first_char l;
      cs ← first_chars rest;
      Ok (if bool_decide (c ∈ cs) then cs else c :: cs)
  end.

Section Parse.

(** The [%] formatting of the columns after the consistency mark:
    ["%2i        %s %12.1f    %6.1f %6.1f %6.1f %5.1f %5.1f %5.1f"]
    applied to the lattice character, the Bravais lattice, the
    quality of fit and the cell. *)
Variable format_columns :
  Z -> string -> float -> float * float * float -> float * float * float
  -> string.

Definition header : string :=
  "  LATTICE-  BRAVAIS-   QUALITY  UNIT CELL CONSTANTS (ANGSTROEM & DEGREES)"
  ++ String (ascii_of_nat 10)
  " CHARACTER  LATTICE     OF FIT      a      b      c   alpha  beta gamma".

(** [line_format % (tpl + solution.cell.lengths + solution.cell.angles)] *)
Definition solution_line (solution : IndexingSolution) : string :=
  let char1 := if isConsistent solution then "*" else " " in
  " " ++ char1 ++ "  "
  ++ format_columns (latticeCharacter solution) (bravaisLattice solution)
       (qualityOfFit solution) (cell_lengths solution) (cell_angles solution).

Definition solutions_dict_of (solutions : list IndexingSolution)
  : list (string * IndexingSolution) :=
  foldl (fun d solution => odict_set (solution_line solution) solution d)
    [] solutions.

Definition consistent_solutions_of (solutions : list IndexingSolution)
  : list IndexingSolution :=
  List.filter isConsistent solutions.

(** [GphlWorkflow.parse_indexing_solution] *)
Definition parse_indexing_solution (choose_lattice : ChooseLattice)
  : result (string * list (string * IndexingSolution) * option nat) :=
  let solutions := indexingSolutions choose_lattice in
  let indexing_format := indexingFormat choose_lattice in
  if String.eqb indexing_format "IDXREF" then
    let solutions_dict := solutions_dict_of solutions in
    let consistent_solutions := consistent_solutions_of solutions in
    let lattices := default [] (lattices choose_lattice) in
    let select_row :=
      match lattices with
      | [] => None
      | _ =>
          (* Select best solution matching lattices *)
          first_index
            (fun s => bool_decide (bravaisLattice s ∈ lattices))
            consistent_solutions
      end in
    select_row ←
      match select_row with
      | Some ii => Ok (Some ii)
      | None =>
          let crystal_family_char := crystalFamilyChar choose_lattice in
          crystal_family_char ←
            match lattices with
            | _ :: _ =>
                if negb (truthy_str crystal_family_char) then
                  aset ← first_chars lattices;
                  match aset with
                  | [c] => Ok (Some c)
                  | _ => Ok crystal_family_char
                  end
                else Ok crystal_family_char
            | [] => Ok crystal_family_char
            end;
          if truthy_str crystal_family_char then
            (* Select best solution based on crystal family *)
            let c := default "" crystal_family_char in
            Ok (first_index
                  (fun s => String.prefix c (bravaisLattice s))
                  consistent_solutions)
          else Ok None
      end;
    select_row ←
      match select_row with
      | Some ii => Ok (Some ii)
      | None =>
          (* No match found, select on solutions only *)
          match last consistent_solutions with
          | None => Raise IndexError
          | Some final =>
              let lattice := bravaisLattice final in
              Ok (first_index
                    (fun s => String.eqb (bravaisLattice s) lattice)
                    consistent_solutions)
          end
      end;
    Ok (header, solutions_dict, select_row)
  else Raise RuntimeError.

(** The automation branch of [GphlWorkflow.select_lattice], up to the
    choice of [indexingSolution]. *)
Definition select_lattice (py : dialect) (choose_lattice : ChooseLattice)
  : result IndexingSolution :=
  '(header, soldict, select_row) ← parse_indexing_solution choose_lattice;
  values_subscript py soldict select_row.

End Parse.

End Lattice.

(** ** Text, as Python sees it

    A [str] is a sequence of Unicode code points.  Only the methods the
    solver's output goes through are modelled. *)

Module PyStr.

Definition str : Type := list N.

(** A literal. *)
Definition lit (s : string) : str := map N_of_ascii (list_ascii_of_string s).

(** [str.isspace] on one character: the code points [str.strip] and
    [str.split] treat as white space. *)
Definition is_space (c : N) : bool :=
  ((9 <=? c) && (c <=? 13) || (28 <=? c) && (c <=? 32)
   || (c =? 133) || (c =? 160) || (c =? 5760)
   || (8192 <=? c) && (c <=? 8202)
   || (c =? 8232) || (c =? 8233) || (c =? 8239) || (c =? 8287)
   || (c =? 12288))%N.

(** The line boundaries of [str.splitlines]. *)
Definition is_linebreak (c : N) : bool :=
  ((10 <=? c) && (c <=? 13) || (28 <=? c) && (c <=? 30)
   || (c =? 133) || (c =? 8232) || (c =? 8233))%N.

(** [s.splitlines()]: a carriage return followed by a line feed is one
    boundary; a final boundary opens no empty line.  [cur] is the line
    being read, last character first. *)
Fixpoint splitlines_from (cur : str) (s : str) : list str :=
  match s with
  | [] => match cur with [] => [] | _ => [reverse cur] end
  | c :: rest =>
      if is_linebreak c then
        reverse cur ::
          match rest with
          | c2 :: rest2 =>
              if ((c =? 13) && (c2 =? 10))%N then splitlines_from [] rest2
              else splitlines_from [] rest
          | [] => splitlines_from [] rest
          end
      else splitlines_from (c :: cur) rest
  end.

Definition splitlines (s : str) : list str := splitlines_from [] s.

Fixpoint lstrip (s : str) : str :=
  match s with
  | c :: rest => if is_space c then lstrip rest else s
  | [] => []
  end.

(** [s.strip()] *)
Definition strip (s : str) : str := reverse (lstrip (reverse (lstrip s))).

Fixpoint starts_with (sub s : str) : bool :=
  match sub, s with
  | [], _ => true
  | a :: sub', b :: s' => (a =? b)%N && starts_with sub' s'
  | _ :: _, [] => false
  end.

(** [sub in s] *)
Fixpoint contains (sub s : str) : bool :=
  starts_with sub s
  || match s with
     | [] => false
     | _ :: rest => contains sub rest
     end.

(** [s.split()]: the maximal runs of characters that are not white
    space.  [cur] is the run being read, last character first. *)
Fixpoint split_from (cur : str) (s : str) : list str :=
  match s with
  | [] => match cur with [] => [] | _ => [reverse cur] end
  | c :: rest =>
      if is_space c then
        match cur with
        | [] => split_from [] rest
        | _ => reverse cur :: split_from [] rest
        end
      else split_from (c :: cur) rest
  end.

Definition split (s : str) : list str := split_from [] s.

(** [l[-n:]] *)
Definition last_items {A} (n : nat) (l : list A) : list A :=
  drop (length l - n) l.

End PyStr.

(** ** The geometry solver's output *)

Module Recen.
Import PyStr.

(** What [subprocess.check_output] did: it returned the output, or
    raised [CalledProcessError] for a non-zero return code. *)
Inductive completed : Type :=
| Returned (output : str)
| CalledProcessError (returncode : Z) (output : str).

(** The two error records [calculate_recentring] writes to the ["HWR"]
    logger. *)
Inductive log_record : Type :=
| FailedWithReturncode (returncode : Z) (output : str)
| FailedWithNormalTermination (terminated_ok : bool) (output : str).

Definition marker : str := lit "NORMAL termination".
Definition xyz_tag : str := lit "X,Y,Z".

(** The loop over [reversed(output.splitlines())], up to the line it
    breaks on: the flag it ends with, and the last three words of that
    line when there is one. *)
Fixpoint scan_lines (terminated_ok : bool) (lines : list str)
  : bool * option (list str) :=
  match lines with
  | [] => (terminated_ok, None)
  | line :: rest =>
      let ss0 := strip line in
      if terminated_ok then
        if contains xyz_tag ss0 then (true, Some (last_items 3 (split ss0)))
        else scan_lines true rest
      else if bool_decide (ss0 = marker) then scan_lines true rest
      else scan_lines false rest
  end.

Definition find_translation (output : str) : bool * option (list str) :=
  scan_lines false (reverse (splitlines output)).

Section Solver.

(** The builtin [float] on a string: [None] where it raises
    [ValueError]. *)
Variable float_of_str : str -> option float.

(** [for ii, tag in enumerate(roles): result[tag] = float(ll0[ii])] *)
Fixpoint fill_result (roles : list string) (ii : nat) (ll0 : list str)
    (values : gmap string float) : result (gmap string float) :=
  match roles with
  | [] => Ok values
  | tag :: roles' =>
      match ll0 !! ii with
      | None => Raise IndexError
      | Some word =>
          match float_of_str word with
          | None => Raise ValueError
          | Some v => fill_result roles' (S ii) ll0 (<[tag := v]> values)
          end
      end
  end.

(** [GphlWorkflow.calculate_recentring], from the call of the solver
    on: the translation it returns and what it logs.  The input file it
    writes before has no part in reading the answer. *)
Definition calculate_recentring (translation_axis_roles : list string)
    (run : completed) : result (gmap string float * list log_record) :=
  match run with
  | CalledProcessError returncode output =>
      Ok (∅, [FailedWithReturncode returncode output])
  | Returned output =>
      match find_translation output with
      | (_, Some ll0) =>
          values ← fill_result translation_axis_roles 0 ll0 ∅;
          Ok (values, [])
      | (terminated_ok, None) =>
          Ok (∅, [FailedWithNormalTermination terminated_ok output])
      end
  end.

End Solver.

End Recen.

(** ** Messages of the workflow protocol *)

Module Messages.

(** Modelled from the spec: [GphlMessages.GoniostatSweepSetting], the
    SweepSetting of the data model ("identifier, rotation-axis name, a
    mapping of axis-name to angle defining a fixed orientation"); the
    message classes are not among the sources. *)
Record GoniostatSweepSetting : Type := {
  id_ : string;
  scanAxis : string;
  axisSettings : gmap string float;
}.

(** Modelled from the spec: [GphlMessages.Sweep] ("a SweepSetting plus a
    scan range"), with the beam and detector settings [collect_data]
    reads from it; [initial_settings] is what its method
    [get_initial_settings()] returns. *)
Record Sweep : Type := {
  goniostatSweepSetting : GoniostatSweepSetting;
  initial_settings : gmap string float;
  wavelength : float;
  detectorSetting : gmap string float;
}.

(** Modelled from the spec: [GphlMessages.GoniostatTranslation] ("tied
    to exactly one SweepSetting (by identifier), optionally tagged with
    the rotation id it was requested for versus computed from").
    [rotation_id] is the [id_] of the [rotation] it was built with. *)
Record GoniostatTranslation : Type := {
  rotation_id : string;
  requestedRotationId : option string;
  translation_settings : gmap string float;
}.

(** The orientation a translation answers for. *)
Definition matched_id (t : GoniostatTranslation) : string :=
  default (rotation_id t) (requestedRotationId t).

End Messages.

(** ** Helpers shared by the handlers *)

(** [d[key]] *)
Definition lookup_key {V} (d : gmap string V) (key : string) : result V :=
  match d !! key with
  | Some v => Ok v
  | None => Raise KeyError
  end.

(** [l[i]] for [i >= 0] *)
Definition subscript {A} (l : list A) (i : nat) : result A :=
  match l !! i with
  | Some v => Ok v
  | None => Raise IndexError
  end.

(** [int(x)] for a float: truncation, [ValueError] on a NaN and
    [OverflowError] on an infinity. *)
Definition int_of_float (x : float) : result Z :=
  match Prim2SF x with
  | S754_zero _ => Ok 0%Z
  | S754_infinity _ => Raise OverflowError
  | S754_nan => Raise ValueError
  | S754_finite s m e =>
      let v := (if 0 <=? e then Z.pos m * 2 ^ e else Z.pos m / 2 ^ (- e))%Z in
      Ok (if s then (- v)%Z else v)
  end.

(** An [int] met by a float operator: the nearest float, ties to even,
    [OverflowError] beyond the largest one. *)
Definition float_of_int (n : Z) : result float :=
  let x := SF2Prim (binary_normalize 53 1024 n 0 false) in
  if is_infinity x then Raise OverflowError else Ok x.

(** ** Centring of the orientations of a plan *)

Module Setup.
Import PyFloat Messages.
#[local] Open Scope list_scope.

(** The result of [load_transcal_parameters], completed by
    [setup_data_collection] with the reference position. *)
Record RecenParameters : Type := {
  home_position : list float;
  cross_sec_of_soc : list float;
  ref_okp : list float;
  ref_xyz : list float;
}.

(** What the handler reaches through [self] and [HWR.beamline]. *)
Record Beamline : Type := {
  rotation_axis_roles : list string;
  translation_axis_roles : list string;
  (** [self.settings.get("recentre_before_start")] *)
  recentre_before_start : bool;
  (** [self.settings.get("angular_tolerance")] *)
  angular_tolerance : option float;
  (** [HWR.beamline.diffractometer.get_positions()] *)
  get_positions : gmap string float;
  (** the centring result of a centring entry once it is executed, as a
      dictionary; [None] when the centring gave none *)
  centring_result : gmap string float -> option (gmap string float);
  (** [self.calculate_recentring(okp, **recen_parameters)] *)
  calculate_recentring :
    list float -> RecenParameters -> result (gmap string float);
  (** [sweepSetting.get_motor_settings()] *)
  get_motor_settings : GoniostatSweepSetting -> gmap string float;
  (** the [id_] a new [GoniostatRotation] gets *)
  new_rotation_id : string;
}.

(** What the handler does to the instrument, in order. *)
Inductive event : Type :=
| Centring (motor_settings : gmap string float)
| CentringSnapshots (omega kappa phi : Z).

Record Outcome : Type := {
  goniostat_translations : list GoniostatTranslation;
  current_rotation_id : option string;
  events : list event;
}.

(** [# Get all sweepSettings, in order] *)
Fixpoint ordered_sweep_settings (sweeps : list Sweep)
    (sweepSettingIds : gset string) (sweepSettings : list GoniostatSweepSetting)
  : list GoniostatSweepSetting :=
  match sweeps with
  | [] => sweepSettings
  | sweep :: rest =>
      let sweepSetting := goniostatSweepSetting sweep in
      let sweepSettingId := id_ sweepSetting in
      if bool_decide (sweepSettingId ∉ sweepSettingIds) then
        ordered_sweep_settings rest ({[sweepSettingId]} ∪ sweepSettingIds)
          (sweepSettings ++ [sweepSetting])
      else ordered_sweep_settings rest sweepSettingIds sweepSettings
  end.

(** [tuple(settings.get(x, 0) for x in self.rotation_axis_roles)] *)
Definition okp_of (bl : Beamline) (settings : gmap string float) : list float :=
  map (fun x => default 0%float (settings !! x)) (rotation_axis_roles bl).

(** [dict((role, d.get(role)) for role in self.translation_axis_roles)];
    the roles are known to be keys of [d] where this is used. *)
Definition translation_part (bl : Beamline) (d : gmap string float)
  : gmap string float :=
  list_to_map
    (omap (fun role => (fun v => (role, v)) <$> d !! role)
       (translation_axis_roles bl)).

(** [GphlWorkflow.enqueue_sample_centring]: the task label formats the
    kappa and phi settings, which must be there. *)
Definition enqueue_sample_centring (motor_settings : gmap string float)
  : result (gmap string float) :=
  match motor_settings !! "kappa", motor_settings !! "kappa_phi" with
  | Some _, Some _ => Ok motor_settings
  | _, _ => Raise TypeError
  end.

(** [GphlWorkflow.execute_sample_centring] *)
Definition execute_sample_centring (bl : Beamline)
    (centring_entry : gmap string float) (goniostatRotation : string)
    (requestedRotationId : option string)
  : result (GoniostatTranslation * gmap string float) :=
  match centring_result bl centring_entry with
  | Some positionsDict =>
      dd0 ← mapM (fun x => v ← lookup_key positionsDict x; Ok (x, v))
              (translation_axis_roles bl);
      Ok ({| rotation_id := goniostatRotation;
             requestedRotationId := requestedRotationId;
             translation_settings := list_to_map dd0 |},
          positionsDict)
  | None => Raise RuntimeError
  end.

(** [okp = tuple(int(settings.get(x, 0)) for x in roles)] followed by
    [self.collect_centring_snapshots("%s_%s_%s" % okp)] *)
Definition collect_centring_snapshots (bl : Beamline)
    (settings : gmap string float) : result event :=
  okp ← mapM int_of_float (okp_of bl settings);
  match okp with
  | [o; k; p] => Ok (CentringSnapshots o k p)
  | _ => Raise TypeError
  end.

(** The working state of the handler: the translations so far, the
    model's current rotation id, the instrument actions so far. *)
Definition state : Type :=
  (list GoniostatTranslation * option string * list event)%type.

(** [# Handle centring of first orientation], the case where the sample
    is centred already and the crystal is characterised (or the strategy
    is a diffractometer calibration). *)
Definition first_when_centred (bl : Beamline) (recentring_mode : string)
    (recen_parameters : option RecenParameters)
    (sweepSetting : GoniostatSweepSetting)
    (current_pos_dict : gmap string float) (current_okp : list float)
    (st : state) : result state :=
  let '(goniostatTranslations, current_rotation_id, events) := st in
  let settings := axisSettings sweepSetting in
  let okp := okp_of bl settings in
  o1 ← subscript okp 1; c1 ← subscript current_okp 1;
  o2 ← subscript okp 2; c2 ← subscript current_okp 2;
  let maxdev := max2 (abs (o1 - c1)) (abs (o2 - c2)) in
  '(tol, translation_settings) ←
    match recen_parameters with
    | Some p =>
        (* recentre first sweep from okp *)
        translation_settings ← calculate_recentring bl okp p;
        Ok (default 1%float (angular_tolerance bl), translation_settings)
    | None =>
        (* existing centring - take from current position *)
        Ok (0x1.999999999999ap-4%float (* 0.1 *),
            translation_part bl current_pos_dict)
    end;
  let plain :=
    {| rotation_id := id_ sweepSetting; requestedRotationId := None;
       translation_settings := translation_settings |} in
  if (maxdev <=? tol)%float then
    Ok (goniostatTranslations ++ [plain], Some (id_ sweepSetting), events)
  else if String.eqb recentring_mode "none" then
    match recen_parameters with
    | Some _ => Ok (goniostatTranslations ++ [plain], current_rotation_id, events)
    | None => Raise RuntimeError
    end
  else
    let settings := translation_settings ∪ settings in
    qe ← enqueue_sample_centring settings;
    '(translation, dummy) ← execute_sample_centring bl qe (id_ sweepSetting) None;
    let events := events ++ [Centring qe] in
    if String.eqb recentring_mode "start" then
      snap ← collect_centring_snapshots bl settings;
      Ok (goniostatTranslations ++ [translation], Some (id_ sweepSetting),
          events ++ [snap])
    else
      Ok (goniostatTranslations ++ [translation], Some (id_ sweepSetting),
          events).

(** The case of a characterisation at a position that was centred
    beforehand. *)
Definition first_when_precentred (bl : Beamline)
    (sweepSetting : GoniostatSweepSetting)
    (current_pos_dict : gmap string float) (st : state) : result state :=
  let '(goniostatTranslations, current_rotation_id, events) := st in
  if bool_decide (dom (axisSettings sweepSetting) ⊆ dom current_pos_dict) then
    let translation :=
      {| rotation_id := new_rotation_id bl;
         requestedRotationId := Some (id_ sweepSetting);
         translation_settings := translation_part bl current_pos_dict |} in
    Ok (goniostatTranslations ++ [translation], Some (new_rotation_id bl),
        events)
  else Raise KeyError.

(** The body of [for sweepSetting in sweepSettings[1:]]. *)
Definition remaining_sweep_setting (bl : Beamline) (recentring_mode : string)
    (recen_parameters : option RecenParameters) (pos_dict : gmap string float)
    (st : state) (sweepSetting : GoniostatSweepSetting) : result state :=
  let '(goniostatTranslations, current_rotation_id, events) := st in
  let settings := get_motor_settings bl sweepSetting in
  '(settings, centring_settings) ←
    match recen_parameters with
    | Some p =>
        centring_settings ← calculate_recentring bl (okp_of bl settings) p;
        Ok (centring_settings ∪ settings, centring_settings)
    | None => Ok (settings, ∅)
    end;
  if String.eqb recentring_mode "start" then
    (* Recentre now, using updated values if available *)
    qe ← enqueue_sample_centring settings;
    '(translation, dummy) ← execute_sample_centring bl qe (id_ sweepSetting) None;
    snap ← collect_centring_snapshots bl settings;
    Ok (goniostatTranslations ++ [translation], Some (id_ sweepSetting),
        events ++ [Centring qe; snap])
  else
    match recen_parameters with
    | Some _ =>
        (* put recalculated translations back to workflow *)
        Ok (goniostatTranslations
              ++ [{| rotation_id := id_ sweepSetting;
                     requestedRotationId := None;
                     translation_settings := centring_settings |}],
            current_rotation_id, events)
    | None =>
        (* Take the current settings because we need something. *)
        xyz ← mapM (fun role => v ← lookup_key pos_dict role; Ok (role, v))
                (translation_axis_roles bl);
        Ok (goniostatTranslations
              ++ [{| rotation_id := id_ sweepSetting;
                     requestedRotationId := None;
                     translation_settings := list_to_map xyz |}],
            current_rotation_id, events)
    end.

Fixpoint remaining_sweep_settings (bl : Beamline) (recentring_mode : string)
    (recen_parameters : option RecenParameters) (pos_dict : gmap string float)
    (st : state) (sweepSettings : list GoniostatSweepSetting) : result state :=
  match sweepSettings with
  | [] => Ok st
  | sweepSetting :: rest =>
      st ← remaining_sweep_setting bl recentring_mode recen_parameters pos_dict
             st sweepSetting;
      remaining_sweep_settings bl recentring_mode recen_parameters pos_dict
        st rest
  end.

(** [GphlWorkflow.setup_data_collection], from
    [# Set (re)centring behaviour and goniostatTranslations] on.
    [transcal] is what [load_transcal_parameters] found: the home
    position and the cross-section of the sphere of confusion, or
    nothing. *)
Definition setup_data_collection (bl : Beamline) (characterisation_done : bool)
    (strategy_type recentring_mode : string)
    (transcal : option (list float * list float))
    (current_rotation_id : option string) (sweeps : list Sweep)
  : result Outcome :=
  let sweepSettings := ordered_sweep_settings sweeps ∅ [] in
  (* For recentring mode 'start' do settings in reverse order *)
  let sweepSettings :=
    if String.eqb recentring_mode "start" then reverse sweepSettings
    else sweepSettings in
  (* Handle centring of first orientation *)
  let pos_dict := get_positions bl in
  sweepSetting ← subscript sweepSettings 0;
  '(st, current_pos_dict) ←
    (if recentre_before_start bl && negb characterisation_done then
       (* Sample has never been centred reliably. *)
       qe ← enqueue_sample_centring (axisSettings sweepSetting);
       '(translation, current_pos_dict) ←
         execute_sample_centring bl qe (id_ sweepSetting) None;
       Ok (([translation], Some (id_ sweepSetting), [Centring qe]) : state,
           current_pos_dict)
     else
       (* Sample was centred already *)
       Ok (([], current_rotation_id, []) : state, get_positions bl));
  current_okp ← mapM (lookup_key current_pos_dict) (rotation_axis_roles bl);
  current_xyz ← mapM (lookup_key current_pos_dict) (translation_axis_roles bl);
  let recen_parameters :=
    (fun p => {| home_position := p.1; cross_sec_of_soc := p.2;
                 ref_okp := current_okp; ref_xyz := current_xyz |})
      <$> transcal in
  st ←
    match st.1.1 with
    | _ :: _ => Ok st
    | [] =>
        if characterisation_done || String.eqb strategy_type "diffractcal" then
          first_when_centred bl recentring_mode recen_parameters sweepSetting
            current_pos_dict current_okp st
        else if negb (recentre_before_start bl) then
          first_when_precentred bl sweepSetting current_pos_dict st
        else Ok st
    end;
  (* calculate or determine centring for remaining sweeps *)
  match st.1.1 with
  | [] => Raise RuntimeError
  | _ :: _ =>
      '(goniostatTranslations, current_rotation_id, events) ←
        remaining_sweep_settings bl recentring_mode recen_parameters pos_dict
          st (tail sweepSettings);
      Ok {| goniostat_translations := goniostatTranslations;
            current_rotation_id := current_rotation_id;
            events := events |}
  end.

End Setup.

(** ** Translation of a collection proposal into acquisitions *)

Module Collect.
Import PyFloat Messages.
#[local] Open Scope list_scope.

(** Modelled from the spec: [GphlMessages.Scan], a scan descriptor of a
    CollectionProposal ("each referencing a Sweep, start image number,
    image count, exposure time"), with the fields [collect_data] reads:
    [numImages] and [imageWidth] are those of [scan.width], [exposure]
    is [scan.exposure.time]. *)
Record Scan : Type := {
  sweep : Sweep;
  imageStartNum : Z;
  numImages : Z;
  imageWidth : float;
  start : float;
  exposure : float;
}.

(** Modelled from the spec: the strategy metadata of a
    [GphlMessages.CollectionProposal] ("repeat count, sweep offset") and
    its scans. *)
Record CollectionProposal : Type := {
  scans : list Scan;
  sweepRepeat : option Z;
  sweepOffset : option float;
}.

(** The acquisition parameters the handler sets. *)
Record AcquisitionParameters : Type := {
  first_image : Z;
  num_images : Z;
  osc_start : float;
  osc_range : float;
  exp_time : float;
  num_passes : Z;
  energy : float;
  detector_distance : float;
  inverse_beam : bool;
  centred_position : option (gmap string float);
  take_snapshots : Z;
  num_triggers : option Z;
  num_images_per_trigger : option Z;
  overlap : option float;
}.

(** The tasks added to the data collection group, in order. *)
Inductive task : Type :=
| SampleCentring (motor_settings : gmap string float)
| DataCollection (acq : AcquisitionParameters).

(** What the handler reads from [self.settings], the workflow model and
    the beamline. *)
Record Session : Type := {
  (** [float(self.settings.get("angular_tolerance", 1.0))] *)
  angular_tolerance : float;
  (** [self.settings.get("use_multitrigger")] *)
  use_multitrigger : bool;
  (** [gphl_workflow_model.init_spot_dir] is set *)
  init_spot_dir : bool;
  snapshot_count : Z;
  recentring_mode : string;
  (** [HWR.beamline.energy.calculate_energy] *)
  calculate_energy : float -> float;
}.

(** The variables the loop over the scans carries, with the model's
    [current_rotation_id] and the group's tasks. *)
Record loop_state : Type := {
  sweeps : list Sweep;
  last_orientation : option (option float * option float);
  maxdev : float;
  snapshotted_rotation_ids : gset string;
  current_rotation_id : option string;
  queue : list task;
}.

(** [tuple(initial_settings.get(tag) for tag in ("kappa", "kappa_phi"))] *)
Definition orientation_of (sweep : Sweep) : option float * option float :=
  (initial_settings sweep !! "kappa", initial_settings sweep !! "kappa_phi").

(** [abs(orientation[ind] - last_orientation[ind])]: a setting that is
    missing is [None], which cannot be subtracted. *)
Definition deviation (a b : option float) : result float :=
  match a, b with
  | Some x, Some y => Ok (abs (x - y))%float
  | _, _ => Raise TypeError
  end.

(** [max(abs(orientation[ind] - last_orientation[ind]) for ind in range(2))] *)
Definition max_deviation (orientation last : option float * option float)
  : result float :=
  d0 ← deviation orientation.1 last.1;
  d1 ← deviation orientation.2 last.2;
  Ok (max2 d0 d1).

(** [repeat_count and sweep_offset and self.settings.get("use_multitrigger")]:
    the sweep offset when all three hold. *)
Definition multitrigger (ss : Session) (proposal : CollectionProposal)
  : option float :=
  match sweepRepeat proposal, sweepOffset proposal with
  | Some repeat_count, Some sweep_offset =>
      if negb (repeat_count =? 0)%Z && truthy sweep_offset
         && use_multitrigger ss
      then Some sweep_offset else None
  | _, _ => None
  end.

(** The condition under which a centring is put on the queue. *)
Definition recentre (ss : Session) (st : loop_state) (rotation_id : string)
    (maxdev : float) : bool :=
  match sweeps st with
  | [] => false
  | _ :: _ =>
      String.eqb (recentring_mode ss) "scan"
      || String.eqb (recentring_mode ss) "sweep"
         && negb (bool_decide (Some rotation_id = current_rotation_id st)
                  || (0 <=? maxdev)%float
                     && (maxdev <? angular_tolerance ss)%float)
  end.

(** The body of [for scan in scans]. *)
Definition collect_scan (ss : Session) (mt : option float) (scan_count : Z)
    (st : loop_state) (scan : Scan) : result loop_state :=
  let sweep := sweep scan in
  let goniostatRotation := goniostatSweepSetting sweep in
  let rotation_id := id_ goniostatRotation in
  let initial_settings := initial_settings sweep in
  let orientation := orientation_of sweep in
  detdistance ← lookup_key (detectorSetting sweep) "Distance";
  maxdev ←
    match last_orientation st with
    | Some last => max_deviation orientation last
    | None => Ok (maxdev st)
    end;
  let centring := recentre ss st rotation_id maxdev in
  let centred_position :=
    if centring then None
    else
      (* Collect using precalculated centring position *)
      Some (<[scanAxis goniostatRotation := start scan]> initial_settings) in
  let snapshotted :=
    bool_decide (rotation_id ∈ snapshotted_rotation_ids st)
    && bool_decide (Some rotation_id = current_rotation_id st) in
  '(num_triggers, num_images_per_trigger, num_images, overlap) ←
    match mt with
    | Some sweep_offset =>
        (* Multitrigger sweep - add in parameters. *)
        per_trigger ← float_of_int (numImages scan);
        Ok (Some scan_count, Some (numImages scan),
            (numImages scan * scan_count)%Z,
            Some (per_trigger * imageWidth scan - sweep_offset)%float)
    | None => Ok (None, None, numImages scan, None)
    end;
  let acq_parameters :=
    {| first_image := imageStartNum scan;
       num_images := num_images;
       osc_start := start scan;
       osc_range := imageWidth scan;
       exp_time := exposure scan;
       num_passes := 1;
       energy := calculate_energy ss (wavelength sweep);
       detector_distance := detdistance;
       inverse_beam := false;
       centred_position := centred_position;
       take_snapshots := if snapshotted then 0%Z else snapshot_count ss;
       num_triggers := num_triggers;
       num_images_per_trigger := num_images_per_trigger;
       overlap := overlap |} in
  Ok {| sweeps := sweep :: sweeps st;
        last_orientation := Some orientation;
        maxdev := maxdev;
        snapshotted_rotation_ids :=
          if snapshotted then snapshotted_rotation_ids st
          else {[rotation_id]} ∪ snapshotted_rotation_ids st;
        current_rotation_id := Some rotation_id;
        queue :=
          queue st
          ++ (if centring then [SampleCentring initial_settings] else [])
          ++ [DataCollection acq_parameters] |}.

Fixpoint collect_scans (ss : Session) (mt : option float) (scan_count : Z)
    (st : loop_state) (scans : list Scan) : result loop_state :=
  match scans with
  | [] => Ok st
  | scan :: rest =>
      st ← collect_scan ss mt scan_count st scan;
      collect_scans ss mt scan_count st rest
  end.

(** [GphlMessages.CollectionDone], with the tasks that were queued and
    the rotation id the model is left with. *)
Record CollectionDone : Type := {
  status : Z;
  tasks : list task;
  final_rotation_id : option string;
}.

(** [GphlWorkflow.collect_data].  [current_rotation_id] is the model's
    on entry; [execution_failed] tells whether the entry of the data
    collection group ends with the status [FAILED]. *)
Definition collect_data (ss : Session) (current_rotation_id : option string)
    (execution_failed : bool) (collection_proposal : CollectionProposal)
  : result CollectionDone :=
  if init_spot_dir ss then
    (* Characterisation, where collection and XDS have alredy been run *)
    Ok {| status := 0; tasks := []; final_rotation_id := current_rotation_id |}
  else
    let scans := scans collection_proposal in
    let scan_count := Z.of_nat (length scans) in
    let mt := multitrigger ss collection_proposal in
    scans ←
      match mt with
      | Some _ =>
          (* commpress unrolled multi-trigger sweep *)
          if negb (default 0 (sweepRepeat collection_proposal) =? scan_count)%Z
          then Raise ValueError
          else Ok (take 1 scans) (* treat only the first scan *)
      | None => Ok scans
      end;
    st ←
      collect_scans ss mt scan_count
        {| sweeps := []; last_orientation := None; maxdev := (-1)%float;
           snapshotted_rotation_ids := ∅;
           current_rotation_id := current_rotation_id; queue := [] |}
        scans;
    Ok {| status := if execution_failed then 1 else 0;
          tasks := queue st;
          final_rotation_id := Collect.current_rotation_id st |}.

(** Whether each data collection of a queue comes right after a centring
    task. *)
Fixpoint recentred (tasks : list task) : list bool :=
  match tasks with
  | SampleCentring _ :: DataCollection _ :: rest => true :: recentred rest
  | DataCollection _ :: rest => false :: recentred rest
  | SampleCentring _ :: rest => recentred rest
  | [] => []
  end.

End Collect.

(** ** The controller: message queue and dispatch *)

Module Controller.
Import Messages.
#[local] Open Scope list_scope.
#[local] Set Implicit Arguments.

Inductive GphlWorkflowStates : Type :=
| BUSY | READY | FAULT | ABORTED | COMPLETED | UNKNOWN.

(** Modelled from the spec: [GphlMessages.RequestCentring] ("target
    orientation, sequence position").  [translation] is
    [goniostatRotation.translation], which may be [None]. *)
Record RequestCentring : Type := {
  currentSettingNo : Z;
  totalRotations : Z;
  goniostatRotation : GoniostatSweepSetting;
  translation : option (gmap string float);
}.

Record log_record : Type := {
  logger : string;
  level : string;
  text : string;
}.

(** The bound methods of the message - processing function map. *)
Inductive handler : Type :=
| echo_info_string_
| echo_subprocess_started_
| echo_subprocess_stopped_
| get_configuration_data_
| setup_data_collection_
| collect_data_
| select_lattice_
| process_centring_request_
| prepare_for_centring_
| obtain_prior_information_
| workflow_aborted_
| workflow_completed_
| workflow_failed_.

(** [self._processor_functions], as [init] sets it. *)
Definition processor_functions : gmap string handler :=
  list_to_map
    [("String", echo_info_string_);
     ("SubprocessStarted", echo_subprocess_started_);
     ("SubprocessStopped", echo_subprocess_stopped_);
     ("RequestConfiguration", get_configuration_data_);
     ("GeometricStrategy", setup_data_collection_);
     ("CollectionProposal", collect_data_);
     ("ChooseLattice", select_lattice_);
     ("RequestCentring", process_centring_request_);
     ("PrepareForCentring", prepare_for_centring_);
     ("ObtainPriorInformation", obtain_prior_information_);
     ("WorkflowAborted", workflow_aborted_);
     ("WorkflowCompleted", workflow_completed_);
     ("WorkflowFailed", workflow_failed_)].

(** What the dialogue opened by the ["gphlParametersNeeded"] signal
    gives: nothing is connected to the signal, the user stops, or the
    user answers. *)
Inductive answer : Type := NotConnected | Stopped | Answered.

(** What [execute] ends an iteration with. *)
Inductive outcome : Type :=
| Continue
| Break
| Raised (e : exn)
| QueueAborted
| Waiting.

Section Dispatch.

(** The workflow model with the queue model behind it, the payloads of
    the messages that carry a strategy, a proposal or lattices, and the
    responses to them: the handlers of those messages are taken as
    given. *)
Variables Model External Reply : Type.

Inductive payload : Type :=
| NoPayload
| Text (s : string)
| Subprocess (name : string)
| Centring (request_centring : RequestCentring)
| Protocol (message : External).

Inductive response : Type :=
| NoResponse
| StopIteration
| ConfigurationData
| ReadyForCentring
| CentringDone (returnStatus : string) (goniostatTranslation : GoniostatTranslation)
| Answer (reply : Reply).

(** An entry of the workflow queue: the stop sentinel, or
    [(message_type, payload, correlation_id, result_list)].  A result
    list belongs to the sender; it is named by a number here. *)
Inductive entry : Type :=
| Stop
| Message (message_type : string) (p : payload)
    (correlation_id : option string) (result_list : option nat).

Record GphlWorkflow : Type := {
  specific_state : GphlWorkflowStates;
  _use_fine_zoom : bool;
  _server_subprocess_names : gmap string string;
  (** the name of the open data collection group *)
  _data_collection_group : option string;
  (** [None] once [post_execute] ran *)
  _workflow_queue : option (list entry);
  model : Model;
  (** the records written to the loggers *)
  log : list log_record;
  (** the moves asked of the zoom motor *)
  zoom_moves : list string;
  (** the appends to the senders' result lists *)
  results : list (nat * (response * option string));
}.

(** What the handlers reach outside the controller. *)
Record World : Type := {
  beamline : Setup.Beamline;
  (** the predefined positions of [HWR.beamline.sample_view.zoom];
      [None] without a zoom motor *)
  zoom_positions : option (list string);
  parameters_needed : RequestCentring -> answer;
  (** the handlers of [GeometricStrategy], [CollectionProposal],
      [ChooseLattice] and [ObtainPriorInformation]: they work on the
      model and on the data collection group *)
  data_handler :
    handler -> payload -> option string -> Model * option string ->
    Model * option string * result response;
}.

Definition with_log (self : GphlWorkflow) (r : log_record) : GphlWorkflow :=
  {| specific_state := specific_state self;
     _use_fine_zoom := _use_fine_zoom self;
     _server_subprocess_names := _server_subprocess_names self;
     _data_collection_group := _data_collection_group self;
     _workflow_queue := _workflow_queue self;
     model := model self;
     log := log self ++ [r];
     zoom_moves := zoom_moves self;
     results := results self |}.

Definition with_names (self : GphlWorkflow) (names : gmap string string)
  : GphlWorkflow :=
  {| specific_state := specific_state self;
     _use_fine_zoom := _use_fine_zoom self;
     _server_subprocess_names := names;
     _data_collection_group := _data_collection_group self;
     _workflow_queue := _workflow_queue self;
     model := model self;
     log := log self;
     zoom_moves := zoom_moves self;
     results := results self |}.

Definition with_queue (self : GphlWorkflow) (q : option (list entry))
  : GphlWorkflow :=
  {| specific_state := specific_state self;
     _use_fine_zoom := _use_fine_zoom self;
     _server_subprocess_names := _server_subprocess_names self;
     _data_collection_group := _data_collection_group self;
     _workflow_queue := q;
     model := model self;
     log := log self;
     zoom_moves := zoom_moves self;
     results := results self |}.

Definition with_fine_zoom (self : GphlWorkflow) (b : bool) : GphlWorkflow :=
  {| specific_state := specific_state self;
     _use_fine_zoom := b;
     _server_subprocess_names := _server_subprocess_names self;
     _data_collection_group := _data_collection_group self;
     _workflow_queue := _workflow_queue self;
     model := model self;
     log := log self;
     zoom_moves := zoom_moves self;
     results := results self |}.

Definition with_model (self : GphlWorkflow) (m : Model * option string)
  : GphlWorkflow :=
  {| specific_state := specific_state self;
     _use_fine_zoom := _use_fine_zoom self;
     _server_subprocess_names := _server_subprocess_names self;
     _data_collection_group := m.2;
     _workflow_queue := _workflow_queue self;
     model := m.1;
     log := log self;
     zoom_moves := zoom_moves self;
     results := results self |}.

Definition with_zoom_move (self : GphlWorkflow) (position : string)
  : GphlWorkflow :=
  {| specific_state := specific_state self;
     _use_fine_zoom := _use_fine_zoom self;
     _server_subprocess_names := _server_subprocess_names self;
     _data_collection_group := _data_collection_group self;
     _workflow_queue := _workflow_queue self;
     model := model self;
     log := log self;
     zoom_moves := zoom_moves self ++ [position];
     results := results self |}.

Definition with_result (self : GphlWorkflow)
    (r : nat * (response * option string)) : GphlWorkflow :=
  {| specific_state := specific_state self;
     _use_fine_zoom := _use_fine_zoom self;
     _server_subprocess_names := _server_subprocess_names self;
     _data_collection_group := _data_collection_group self;
     _workflow_queue := _workflow_queue self;
     model := model self;
     log := log self;
     zoom_moves := zoom_moves self;
     results := results self ++ [r] |}.

(** [update_specific_state] followed by
    [self._workflow_queue.put_nowait(StopIteration)] *)
Definition end_workflow (self : GphlWorkflow) (s : GphlWorkflowStates)
  : GphlWorkflow :=
  {| specific_state := s;
     _use_fine_zoom := _use_fine_zoom self;
     _server_subprocess_names := _server_subprocess_names self;
     _data_collection_group := _data_collection_group self;
     _workflow_queue := (fun q => q ++ [Stop]) <$> _workflow_queue self;
     model := model self;
     log := log self;
     zoom_moves := zoom_moves self;
     results := results self |}.

(** [self._server_subprocess_names.get(correlation_id)]: only a
    correlation id that is a non-empty string is ever a key. *)
Definition subprocess_name (self : GphlWorkflow)
    (correlation_id : option string) : option string :=
  correlation_id ≫= fun k => _server_subprocess_names self !! k.

(** [GphlWorkflow.echo_info_string] *)
Definition echo_info_string (self : GphlWorkflow) (payload : string)
    (correlation_id : option string) : GphlWorkflow :=
  match subprocess_name self correlation_id with
  | Some (String a name) =>
      with_log self
        {| logger := "root"; level := "INFO";
           text := String a name ++ ": " ++ payload |}%string
  | _ => with_log self {| logger := "root"; level := "INFO"; text := payload |}
  end.

(** [GphlWorkflow.echo_subprocess_started] *)
Definition echo_subprocess_started (self : GphlWorkflow) (name : string)
    (correlation_id : option string) : GphlWorkflow :=
  let self :=
    match correlation_id with
    | Some (String a k) =>
        with_names self (<[String a k := name]> (_server_subprocess_names self))
    | _ => self
    end in
  with_log self
    {| logger := "root"; level := "INFO"; text := name ++ " : STARTING" |}%string.

(** [GphlWorkflow.echo_subprocess_stopped] *)
Definition echo_subprocess_stopped (self : GphlWorkflow)
    (correlation_id : option string) : GphlWorkflow :=
  match subprocess_name self correlation_id, correlation_id with
  | Some name, Some k =>
      with_log (with_names self (delete k (_server_subprocess_names self)))
        {| logger := "root"; level := "INFO"; text := name ++ " : FINISHED" |}%string
  | _, _ =>
      with_log self
        {| logger := "root"; level := "INFO";
           text := "Unknown process : FINISHED" |}
  end.

(** [GphlWorkflow.process_centring_request] *)
Definition process_centring_request (w : World) (self : GphlWorkflow)
    (request_centring : RequestCentring) : GphlWorkflow * result response :=
  let self :=
    with_log self
      {| logger := "user_level_log"; level := "INFO";
         text := "Start centring no. "
                 ++ pretty (currentSettingNo request_centring) ++ " of "
                 ++ pretty (totalRotations request_centring) |}%string in
  let goniostatTranslation := translation request_centring in
  let self :=
    match _data_collection_group self with
    | None => with_model self (model self, Some "GPhL Translational calibration")
    | Some _ => self
    end in
  let centre (self : GphlWorkflow) : GphlWorkflow * result response :=
    let settings := axisSettings (goniostatRotation request_centring) in
    let settings :=
      match goniostatTranslation with
      | Some t => t ∪ settings
      | None => settings
      end in
    (self,
     centring_queue_entry ← Setup.enqueue_sample_centring settings;
     '(goniostatTranslation, dummy) ←
       Setup.execute_sample_centring (beamline w) centring_queue_entry
         (id_ (goniostatRotation request_centring)) None;
     let returnStatus :=
       if (totalRotations request_centring <=? currentSettingNo request_centring)%Z
       then "DONE" else "NEXT" in
     Ok (CentringDone returnStatus goniostatTranslation)) in
  if (currentSettingNo request_centring <? 2)%Z then
    (* Start without fine zoom setting *)
    centre (with_fine_zoom self false)
  else if negb (_use_fine_zoom self) && bool_decide (is_Some goniostatTranslation)
  then
    (* We are moving to having recentered positions -
       Set or prompt for fine zoom *)
    let self := with_fine_zoom self true in
    match zoom_positions w with
    | Some ll0 =>
        match last ll0 with
        | Some position =>
            centre
              (with_zoom_move
                 (with_log self
                    {| logger := "user_level_log"; level := "INFO";
                       text := "Sample re-centering now active - Zooming in." |})
                 position)
        | None =>
            centre
              (with_log self
                 {| logger := "HWR"; level := "WARNING";
                    text := "No predefined positions for zoom motor." |})
        end
    | None =>
        (* Ask user to zoom *)
        match parameters_needed w request_centring with
        | NotConnected => (self, Raise RuntimeError)
        | Stopped => (self, Ok StopIteration)
        | Answered => centre self
        end
    end
  else centre self.

(** The call [func(payload, correlation_id)] of [execute]. *)
Definition invoke (w : World) (func : handler) (self : GphlWorkflow)
    (p : payload) (correlation_id : option string)
  : GphlWorkflow * result response :=
  let user_log lvl t :=
    {| logger := "user_level_log"; level := lvl; text := t |} in
  match func with
  | echo_info_string_ =>
      match p with
      | Text s => (echo_info_string self s correlation_id, Ok NoResponse)
      | _ => (self, Raise TypeError)
      end
  | echo_subprocess_started_ =>
      match p with
      | Subprocess name =>
          (echo_subprocess_started self name correlation_id, Ok NoResponse)
      | _ => (self, Raise AttributeError)
      end
  | echo_subprocess_stopped_ =>
      (echo_subprocess_stopped self correlation_id, Ok NoResponse)
  | get_configuration_data_ => (self, Ok ConfigurationData)
  | prepare_for_centring_ => (self, Ok ReadyForCentring)
  | process_centring_request_ =>
      match p with
      | Centring request_centring =>
          process_centring_request w self request_centring
      | _ => (self, Raise AttributeError)
      end
  | workflow_aborted_ =>
      (end_workflow
         (with_log self (user_log "WARNING" "GPhL Workflow aborted.")) ABORTED,
       Ok NoResponse)
  | workflow_completed_ =>
      (end_workflow
         (with_log self (user_log "INFO" "GPhL Workflow completed.")) COMPLETED,
       Ok NoResponse)
  | workflow_failed_ =>
      (end_workflow
         (with_log self (user_log "WARNING" "GPhL Workflow failed.")) FAULT,
       Ok NoResponse)
  | setup_data_collection_ | collect_data_ | select_lattice_
  | obtain_prior_information_ =>
      let '(m, g, r) :=
        data_handler w func p correlation_id
          (model self, _data_collection_group self) in
      (with_model self (m, g), r)
  end.

(** One turn of the [while True] loop of [GphlWorkflow.execute]. *)
Definition dispatch (w : World) (self : GphlWorkflow)
  : GphlWorkflow * outcome :=
  match _workflow_queue self with
  | None => (self, QueueAborted)
  | Some [] => (self, Waiting)
  | Some (tt0 :: rest) =>
      let self := with_queue self (Some rest) in
      match tt0 with
      | Stop =>
          (with_log self
             {| logger := "HWR"; level := "DEBUG";
                text := "GPhL queue StopIteration" |},
           Break)
      | Message message_type p correlation_id result_list =>
          match processor_functions !! message_type with
          | None =>
              (with_log self
                 {| logger := "HWR"; level := "ERROR";
                    text := "GPhL message " ++ message_type
                            ++ " not recognised by MXCuBE. Terminating..." |}%string,
               Break)
          | Some func =>
              if negb (String.eqb message_type "String") then
                let self :=
                  with_log self
                    {| logger := "HWR"; level := "INFO";
                       text := "GPhL queue processing " ++ message_type |}%string in
                match invoke w func self p correlation_id with
                | (self, Ok response) =>
                    match result_list with
                    | Some l =>
                        (with_result self (l, (response, correlation_id)),
                         Continue)
                    | None => (self, Continue)
                    end
                | (self, Raise e) => (self, Raised e)
                end
              else (self, Continue)
          end
      end
  end.

(** The loop of [GphlWorkflow.execute], for at most [turns] turns. *)
Fixpoint execute (w : World) (turns : nat) (self : GphlWorkflow)
  : GphlWorkflow * outcome :=
  match turns with
  | O => (self, Continue)
  | S turns =>
      match dispatch w self with
      | (self, Continue) => execute w turns self
      | stopped => stopped
      end
  end.

End Dispatch.

Arguments NoPayload {External}.
Arguments Text {External} s.
Arguments Subprocess {External} name.
Arguments Centring {External} request_centring.
Arguments Protocol {External} message.
Arguments NoResponse {Reply}.
Arguments StopIteration {Reply}.
Arguments ConfigurationData {Reply}.
Arguments ReadyForCentring {Reply}.
Arguments CentringDone {Reply} returnStatus goniostatTranslation.
Arguments Answer {Reply} reply.
Arguments Stop {External}.

End Controller.

(** * Vocabulary of the properties, and examples

    The predicates the properties are stated with, and the inputs their
    witnesses and counterexamples run the handlers on. *)

(** A float that is a zero or not a number, as its specification
    shows it. *)
Definition zero_or_nan (f : spec_float) : Prop :=
  match f with
  | S754_zero _ | S754_nan => True
  | _ => False
  end.

Section DoseExamples.
Import Dose PyFloat.
#[local] Open Scope float_scope.

(** A popup asking for a dose of 4 MGy at a dose rate of 1 MGy/s over a
    strategy of 2 degrees, with images of 1 degree exposed for 1 s. *)
Definition popup_example (total_strategy_length : float) : gmap string float :=
  list_to_map
    [("exposure", 1); ("image_width", 1); ("use_dose", 4);
     ("std_dose_rate", 1); ("total_strategy_length", total_strategy_length)].

End DoseExamples.

Section LatticeExamples.
Import Lattice.

(** A candidate solution with a cubic cell of 50 Angstroem. *)
Definition candidate (consistent : bool) (character : Z) (bravais : string)
    (fit : float) : IndexingSolution :=
  {| isConsistent := consistent;
     latticeCharacter := character;
     bravaisLattice := bravais;
     qualityOfFit := fit;
     cell_lengths := (50, 50, 50)%float;
     cell_angles := (90, 90, 90)%float |}.

Definition candidate_oP : IndexingSolution := candidate false 32 "oP" 250.
Definition candidate_mC : IndexingSolution := candidate true 14 "mC" 0.
Definition candidate_tP : IndexingSolution := candidate true 11 "tP" 1.

(** A [ChooseLattice] message with three candidates, the two consistent
    ones tagged mC and tP, and ["mC"] as the only allowed lattice. *)
Definition choose_among (format : string) (solutions : list IndexingSolution)
  : ChooseLattice :=
  {| indexingSolutions := solutions;
     indexingFormat := format;
     lattices := Some ["mC"];
     crystalFamilyChar := None |}.

(** A formatting of the columns that keeps the lattice character and
    the Bravais lattice. *)
Definition columns_example (character : Z) (bravais : string) (fit : float)
    (lengths angles : float * float * float) : string :=
  pretty character ++ "        " ++ bravais.

End LatticeExamples.

Section RecenVocabulary.
Import PyStr Recen.
#[local] Open Scope list_scope.

(** A line that reads ["NORMAL termination"] once stripped, and a line
    that contains ["X,Y,Z"]. *)
Definition is_marker (line : str) : Prop := strip line = marker.
Definition has_xyz (line : str) : Prop := contains xyz_tag (strip line) = true.

(** The line feed. *)
Definition newline : str := [10%N].

(** The solver's answer, with the translation before the marker and
    after it, and with a translation that is no number. *)
Definition translation_then_marker : str :=
  lit " X,Y,Z  1.5 -0.25 2.0" ++ newline ++ lit " NORMAL termination" ++ newline.

Definition marker_then_translation : str :=
  lit " NORMAL termination" ++ newline ++ lit " X,Y,Z  1.5 -0.25 2.0" ++ newline.

Definition garbled_translation : str :=
  lit " X,Y,Z  1.5 **** 2.0" ++ newline ++ lit " NORMAL termination" ++ newline.

(** A [float] that knows three numbers. *)
Definition float_example (word : str) : option float :=
  if bool_decide (word = lit "1.5") then Some 1.5%float
  else if bool_decide (word = lit "-0.25") then Some (-0.25)%float
  else if bool_decide (word = lit "2.0") then Some 2%float
  else None.

End RecenVocabulary.

Section SetupVocabulary.
Import Messages Setup.
#[local] Open Scope list_scope.

(** The identifiers of a plan, each at its first occurrence. *)
Fixpoint first_encountered (ids : list string) : list string :=
  match ids with
  | [] => []
  | x :: rest => x :: filter (fun y => y <> x) (first_encountered rest)
  end.

(** The rotation id a sweep refers to. *)
Definition sweep_id (sweep : Sweep) : string := id_ (goniostatSweepSetting sweep).

(** A step of the handler that adds one translation, for the
    orientation [id]. *)
Definition adds_translation_for (id : string) (before after : state) : Prop :=
  exists t, after.1.1 = before.1.1 ++ [t] /\ matched_id t = id.

(** Motor positions: the goniostat at zero, the sample slightly off the
    axis. *)
Definition positions_example : gmap string float :=
  list_to_map
    [("omega", 0%float); ("kappa", 0%float); ("kappa_phi", 0%float);
     ("sampx", 0.5%float); ("sampy", 0.25%float); ("phiy", 0%float)].

(** A beamline whose centrings succeed where the motors stand, without
    translation calibration. *)
Definition beamline_example : Beamline :=
  {| rotation_axis_roles := ["omega"; "kappa"; "kappa_phi"];
     translation_axis_roles := ["sampx"; "sampy"; "phiy"];
     recentre_before_start := false;
     angular_tolerance := Some 1%float;
     get_positions := positions_example;
     centring_result :=
       fun motor_settings => Some (motor_settings ∪ positions_example);
     calculate_recentring := fun okp p => Ok ∅;
     get_motor_settings := axisSettings;
     new_rotation_id := "rotation-0" |}.

(** A sweep about omega at the given kappa, at 1 Angstroem and a
    detector distance of 200 mm. *)
Definition sweep_example (id : string) (kappa : float) : Sweep :=
  {| goniostatSweepSetting :=
       {| id_ := id; scanAxis := "omega";
          axisSettings :=
            list_to_map
              [("omega", 0%float); ("kappa", kappa); ("kappa_phi", 0%float)] |};
     initial_settings :=
       list_to_map
         [("omega", 0%float); ("kappa", kappa); ("kappa_phi", 0%float)];
     wavelength := 1%float;
     detectorSetting := list_to_map [("Distance", 200%float)] |}.

(** Four sweeps at three orientations. *)
Definition plan_example : list Sweep :=
  [sweep_example "a" 0; sweep_example "b" 30; sweep_example "a" 0;
   sweep_example "c" 60].

End SetupVocabulary.

Section CollectVocabulary.
Import PyFloat Messages Collect.
#[local] Open Scope list_scope.

(** The rotation id of the sweep a scan belongs to. *)
Definition rotation_of (scan : Scan) : string :=
  id_ (goniostatSweepSetting (sweep scan)).

(** A scan whose sweep carries the settings the handler reads: the
    kappa and phi angles and the detector distance. *)
Definition scan_ready (scan : Scan) : Prop :=
  is_Some (initial_settings (sweep scan) !! "kappa")
  /\ is_Some (initial_settings (sweep scan) !! "kappa_phi")
  /\ is_Some (detectorSetting (sweep scan) !! "Distance").

(** An orientation with both its angles. *)
Definition oriented (o : option float * option float) : Prop :=
  is_Some o.1 /\ is_Some o.2.

(** A session with an angular tolerance of 1 degree and two snapshots
    per orientation. *)
Definition session_example (mode : string) (multi : bool) : Session :=
  {| angular_tolerance := 1;
     use_multitrigger := multi;
     init_spot_dir := false;
     snapshot_count := 2;
     recentring_mode := mode;
     calculate_energy :=
       fun wavelength => (0x1.8cbfb15b573ebp+3 (* 12.3984 *) / wavelength)%float |}.

(** A scan of 100 images of a quarter of a degree. *)
Definition scan_example (sweep : Sweep) (first : Z) (start : float) : Scan :=
  {| sweep := sweep; imageStartNum := first; numImages := 100;
     imageWidth := 0.25; start := start; exposure := 0.5 |}.

(** Two scans of a sweep at kappa 0, then two of a sweep at kappa 30
    whose second scan stands 0.1 degree off the first. *)
Definition two_sweeps (kappa : float) (kappa' : float) : CollectionProposal :=
  {| scans :=
       [scan_example (sweep_example "a" 0) 1 0;
        scan_example (sweep_example "a" 0) 101 25;
        scan_example (sweep_example "b" kappa) 1 0;
        scan_example (sweep_example "b" kappa') 101 25];
     sweepRepeat := None;
     sweepOffset := None |}.

(** Three scans, the unrolled form of a sweep repeated three times. *)
Definition unrolled (repeat : option Z) (offset : option float)
  : CollectionProposal :=
  {| scans :=
       [scan_example (sweep_example "a" 0) 1 0;
        scan_example (sweep_example "a" 0) 101 20;
        scan_example (sweep_example "a" 0) 201 40];
     sweepRepeat := repeat;
     sweepOffset := offset |}.

End CollectVocabulary.

Section ControllerVocabulary.
Import Messages Controller.
#[local] Open Scope list_scope.

Context {Model External Reply : Type}.

(** An entry that opens a centring sequence anew: a [RequestCentring]
    message whose setting number is below 2. *)
Definition restarts_centring (e : entry External) : bool :=
  match e with
  | Message message_type (Centring request_centring) _ _ =>
      String.eqb message_type "RequestCentring"
      && (currentSettingNo request_centring <? 2)%Z
  | _ => false
  end.

(** A workflow with no such entry on its queue. *)
Definition calm (self : GphlWorkflow Model External Reply) : Prop :=
  forall q, _workflow_queue self = Some q ->
            Forall (fun e => restarts_centring e = false) q.

(** A world with a zoom motor, where the handlers of the strategy
    messages answer at once and leave the model alone. *)
Definition world_example : World unit unit unit :=
  {| beamline := beamline_example;
     zoom_positions := Some ["Zoom 1"; "Zoom 10"];
     parameters_needed := fun _ => Answered;
     data_handler := fun _ _ _ m => (m, Ok (Answer tt)) |}.

(** The centring request of a given number out of three, at an
    orientation whose translation is known. *)
Definition request_example (number : Z) : RequestCentring :=
  {| currentSettingNo := number;
     totalRotations := 3;
     goniostatRotation := goniostatSweepSetting (sweep_example "r" 30);
     translation := Some (list_to_map [("sampx", 0.5%float)]) |}.

(** A workflow in progress, with [queue] as its messages. *)
Definition workflow_example (fine_zoom : bool) (queue : list (entry unit))
  : GphlWorkflow unit unit unit :=
  {| specific_state := BUSY;
     _use_fine_zoom := fine_zoom;
     _server_subprocess_names := {["42" := "recen"]};
     _data_collection_group := None;
     _workflow_queue := Some queue;
     model := tt;
     log := [];
     zoom_moves := [];
     results := [] |}.

End ControllerVocabulary.

(** * Further code of the workflow runner

    The functions below are embedded the same way: the other update
    functions of the parameter popup, the choices that
    [query_collection_strategy] prepares for the user, the transmission
    a collection starts with, the snapshots taken after a centring; and
    the mockup of the attenuators. *)

(** ** Ordered dictionaries *)

(** [d.get(key)] on an [OrderedDict] *)
Fixpoint odict_get {V} (key : string) (d : list (string * V)) : option V :=
  match d with
  | [] => None
  | (k, v) :: rest => if String.eqb k key then Some v else odict_get key rest
  end.

(** ** Paths and numbers *)

(** [os.path.join(a, b)] on a POSIX system: an absolute [b] replaces
    [a]; otherwise [b] follows [a], after a slash unless [a] is empty or
    ends with one. *)
Definition path_join (a b : string) : string :=
  if String.prefix "/" b then b
  else if String.eqb a ""
          || String.eqb (String.substring (String.length a - 1) 1 a) "/"
  then a ++ b
  else a ++ "/" ++ b.

(** A number as Python has it: an [int] or a [float]. *)
Inductive number : Type :=
| Integer (n : Z)
| Real (x : float).

(** ** The snapshots after a centring *)

Module Snapshots.
#[local] Open Scope list_scope.

(** What [collect_centring_snapshots] does, in order: the records it
    logs, the moves of the omega axis, the snapshots it has taken. *)
Inductive action : Type :=
| Log (logger level text : string)
| MoveOmegaRelative (angle : number)
| TakeCrystalSnapshot (snapshot_filename : string).

(** The body of [for snapshot_index in range(number_of_snapshots)], for
    the indices still to come; the actions and [summed_angle]. *)
Fixpoint snapshot_loop (file_name_prefix timestamp snapshot_directory : string)
    (indices : list nat) (summed_angle : float) : list action * float :=
  match indices with
  | [] => ([], summed_angle)
  | snapshot_index :: rest =>
      let '(moves, summed_angle) :=
        match snapshot_index with
        | O => ([], summed_angle)
        | S _ => ([MoveOmegaRelative (Integer 90)], (summed_angle + 90)%float)
        end in
      let snapshot_filename :=
        (file_name_prefix ++ "_" ++ timestamp ++ "_"
         ++ pretty (snapshot_index + 1)%nat ++ ".jpeg")%string in
      let snapshot_filename := path_join snapshot_directory snapshot_filename in
      let '(later, summed_angle) :=
        snapshot_loop file_name_prefix timestamp snapshot_directory rest
          summed_angle in
      (moves
       ++ [Log "HWR" "DEBUG"
             ("Centring snapshot stored at " ++ snapshot_filename)%string;
           TakeCrystalSnapshot snapshot_filename]
       ++ later,
       summed_angle)
  end.

(** [GphlWorkflow.collect_centring_snapshots].  [number_of_snapshots]
    is the model's [snapshot_count], [archive_directory] what
    [path_template.get_archive_directory()] returns, [timestamp] the
    time of the call, to the second. *)
Definition collect_centring_snapshots (number_of_snapshots : Z)
    (archive_directory timestamp file_name_prefix : string) : list action :=
  if negb (number_of_snapshots =? 0)%Z then
    let snapshot_directory := path_join archive_directory "centring_snapshots" in
    let '(actions, summed_angle) :=
      snapshot_loop file_name_prefix timestamp snapshot_directory
        (seq 0 (Z.to_nat number_of_snapshots)) 0 in
    [Log "user_level_log" "INFO"
       ("Post-centring: Taking " ++ pretty number_of_snapshots
        ++ " sample snapshot(s)")%string]
    ++ actions
    ++ (if PyFloat.truthy summed_angle
        then [MoveOmegaRelative (Real (- summed_angle))] else [])
  else [].

End Snapshots.

(** ** The other update functions of the parameter popup *)

Module Popup.
Import PyFloat Dose.
#[local] Open Scope list_scope.

(** [int(parameters.get("repetition_count") or 1)] *)
Definition repetition_count_of (parameters : gmap string float) : result Z :=
  match parameters !! "repetition_count" with
  | Some v => if truthy v then int_of_float v else Ok 1%Z
  | None => Ok 1%Z
  end.

(** [GphlWorkflow.update_exptime] *)
Definition update_exptime (values_map : gmap string float)
  : result (gmap string float) :=
  let parameters := values_map in
  let exposure_time := get parameters "exposure" 0 in
  let image_width := get parameters "image_width" 0 in
  let transmission := get parameters "transmission" 0 in
  repetition_count ← repetition_count_of parameters;
  let total_strategy_length := get parameters "total_strategy_length" 0 in
  let std_dose_rate := get parameters "std_dose_rate" 0 in
  if truthy image_width && truthy exposure_time then
    rotation_rate ← truediv image_width exposure_time;
    let dd0 := [("rotation_rate", rotation_rate)] in
    experiment_time ← truediv total_strategy_length rotation_rate;
    let dd0 :=
      if truthy std_dose_rate && truthy transmission then
        (* NB - dose is calculated for *one* repetition *)
        dd0 ++ [("use_dose",
                 (std_dose_rate * experiment_time * transmission / 100)%float)]
      else dd0 in
    count ← float_of_int repetition_count;
    let dd0 := dd0 ++ [("experiment_time", (experiment_time * count)%float)] in
    Ok (set_values dd0 values_map)
  else Ok values_map.

(** [GphlWorkflow.update_transmission] *)
Definition update_transmission (values_map : gmap string float)
  : result (gmap string float) :=
  let parameters := values_map in
  let exposure_time := get parameters "exposure" 0 in
  let image_width := get parameters "image_width" 0 in
  let transmission := get parameters "transmission" 0 in
  let total_strategy_length := get parameters "total_strategy_length" 0 in
  let std_dose_rate := get parameters "std_dose_rate" 0 in
  if truthy image_width && truthy exposure_time
     && truthy std_dose_rate && truthy transmission
  then
    (* NB dose is calculated for *one* repetition *)
    experiment_time ←
      truediv (exposure_time * total_strategy_length)%float image_width;
    let use_dose :=
      (std_dose_rate * experiment_time * transmission / 100)%float in
    Ok (set_values [("use_dose", use_dose); ("exposure", exposure_time)]
          values_map)
  else Ok values_map.

Section Resolution.

(** The C library's logarithm, as for [resolution2dose_budget]. *)
Variable libm_log : float -> float.


End Resolution.

End Popup.

(** ** The recentring modes offered to the user *)

Module Recentring.
#[local] Open Scope list_scope.

(** [RECENTRING_MODES]: the labels of the pulldown and the modes they
    stand for, in the order of the [OrderedDict]. *)
Definition RECENTRING_MODES : list (string * string) :=
  [("Re-centre when orientation changes", "sweep");
   ("Re-centre at the start of each wedge", "scan");
   ("Re-centre all before acquisition start", "start");
   ("No manual re-centring, rely on calculated values", "none")].

(** [l.index(x)] *)
Fixpoint index (x : string) (l : list string) : result nat :=
  match l with
  | [] => Raise ValueError
  | y :: rest =>
      if String.eqb y x then Ok 0%nat else i ← index x rest; Ok (S i)
  end.

(** [del l[i]] *)
Definition del {A} (i : nat) (l : list A) : result (list A) :=
  if bool_decide (i < length l)%nat then Ok (delete i l) else Raise IndexError.

(** [l.pop(i)] *)
Definition pop {A} (i : nat) (l : list A) : result (A * list A) :=
  match l !! i with
  | Some x => Ok (x, delete i l)
  | None => Raise IndexError
  end.

(** [l.insert(i, x)]: beyond the end of the list [x] is appended. *)
Definition insert_at {A} (i : nat) (x : A) (l : list A) : list A :=
  take i l ++ x :: drop i l.

(** [for indx in range(len(modes) - 1, -1, -1)], with [n] indices still
    to visit:
    [if modes[indx] not in use_modes: del modes[indx]; del labels[indx]] *)
Fixpoint prune (use_modes : list string) (n : nat)
    (modes labels : list string) : result (list string * list string) :=
  match n with
  | O => Ok (modes, labels)
  | S indx =>
      mode ← subscript modes indx;
      if bool_decide (mode ∈ use_modes) then prune use_modes indx modes labels
      else
        modes ← del indx modes;
        labels ← del indx labels;
        prune use_modes indx modes labels
  end.

(** [# recentring mode:] in [GphlWorkflow.query_collection_strategy]:
    the labels of the pulldown, the modes behind them, the default mode
    and its label.  [configured] is
    [self.settings.get("default_recentring_mode")], [orientations] is
    [len(orientations)], [transcal] tells whether
    [load_transcal_parameters] found the calibration, [strategy_type] is
    [wf_parameters.get("strategy_type")]. *)
Definition recentring_choices (configured : option string)
    (orientations : nat) (is_interleaved transcal characterisation_done : bool)
    (strategy_type : option string)
  : result (list string * list string * string * string) :=
  let labels := map fst RECENTRING_MODES in
  let modes := map snd RECENTRING_MODES in
  let default_recentring_mode := default "sweep" configured in
  if String.eqb default_recentring_mode "scan"
     || negb (bool_decide (default_recentring_mode ∈ modes))
  then Raise ValueError
  else
    let use_modes := ["sweep"] in
    let use_modes :=
      if (1 <? orientations)%nat then use_modes ++ ["start"] else use_modes in
    let use_modes :=
      if is_interleaved then use_modes ++ ["scan"] else use_modes in
    let use_modes :=
      if transcal
         && (characterisation_done
             || bool_decide (strategy_type = Some "diffractcal"))
      then use_modes ++ ["none"] (* Not Characterisation *)
      else use_modes in
    '(modes, labels) ← prune use_modes (length modes) modes labels;
    '(modes, labels, default_recentring_mode) ←
      (if bool_decide (default_recentring_mode ∈ modes) then
         indx ← index default_recentring_mode modes;
         if negb (indx =? 0)%nat then
           (* Put default at top *)
           modes ← del indx modes;
           let modes := insert_at indx default_recentring_mode modes in
           '(default_label, labels) ← pop indx labels;
           let labels := insert_at indx default_label labels in
           Ok (modes, labels, default_recentring_mode)
         else Ok (modes, labels, default_recentring_mode)
       else Ok (modes, labels, "sweep"));
    indx ← index default_recentring_mode modes;
    default_label ← subscript labels indx;
    Ok (labels, modes, default_recentring_mode, default_label).

(** [RECENTRING_MODES.get(result.get("recentring_mode"))
     or default_recentring_mode]: what the answer of the user is turned
    into. *)
Definition chosen_mode (answer : option string)
    (default_recentring_mode : string) : string :=
  match answer ≫= fun label => odict_get label RECENTRING_MODES with
  | Some (String c mode) => String c mode
  | _ => default_recentring_mode
  end.

End Recentring.

(** ** The strategy as it is shown to the user *)

Module Strategy.
Import Messages Lattice.
#[local] Open Scope list_scope.


Section Sweeps.

(** [sweep.width], the angle a sweep covers. *)
Variable width : Sweep -> float.



End Sweeps.

End Strategy.

(** ** The image widths offered to the user *)

Module Widths.
#[local] Open Scope list_scope.

(** [l.sort()] on floats: on a list without a NaN, the one list in
    ascending order that keeps equal items in the order they had. *)
Fixpoint insert_sorted (x : float) (l : list float) : list float :=
  match l with
  | [] => [x]
  | y :: rest => if (x <? y)%float then x :: l else y :: insert_sorted x rest
  end.

Definition sort (l : list float) : list float :=
  foldl (fun acc x => insert_sorted x acc) [] l.

(** [l.index(x)] on floats *)
Fixpoint index (x : float) (l : list float) : result nat :=
  match l with
  | [] => Raise ValueError
  | y :: rest =>
      if (y =? x)%float then Ok 0%nat else i ← index x rest; Ok (S i)
  end.

(** [# Set up image width pulldown] in
    [GphlWorkflow.query_collection_strategy]: the widths of the
    pulldown and the one it shows first.  [allowedWidths] and
    [defaultWidthIdx] are those of the strategy, [default_image_widths]
    is [self.settings.get("default_image_widths")]; each may be
    [None].  The record logged when the defaults are used is left
    out. *)
Definition image_widths (allowedWidths : option (list float))
    (defaultWidthIdx : option nat) (default_image_widths : option (list float))
  : result (list float * float) :=
  '(allowed_widths, default_width_index) ←
    match allowedWidths with
    | Some (w :: ws) => Ok (w :: ws, default 0%nat defaultWidthIdx)
    | _ =>
        match default_image_widths with
        | None => Raise TypeError
        | Some widths =>
            let allowed_widths := widths in
            val ← subscript allowed_widths 0;
            let allowed_widths := sort allowed_widths in
            default_width_index ← index val allowed_widths;
            Ok (allowed_widths, default_width_index)
        end
    end;
  default_image_width ← subscript allowed_widths default_width_index;
  Ok (allowed_widths, default_image_width).

End Widths.

(** ** The transmission a collection starts with *)

Module Transmission.
Import PyFloat.

(** What [setup_data_collection] reads from the workflow model and
    writes to it before it asks the user: [recommended_dose_budget] is
    the value of the method of that name, [calculate_transmission] the
    method that gives the transmission, in per cent, for a dose. *)
Record WorkflowModel : Type := {
  automation_mode : bool;
  characterisation_done : bool;
  auto_acq_parameters : list (gmap string float);
  characterisation_dose : float;
  characterisation_budget_fraction : float;
  recommended_dose_budget : float;
  calculate_transmission : float -> float;
  exposure_time : float;
  transmission : option float;
}.

Definition with_exposure_time (model : WorkflowModel) (t : float)
  : WorkflowModel :=
  {| automation_mode := automation_mode model;
     characterisation_done := characterisation_done model;
     auto_acq_parameters := auto_acq_parameters model;
     characterisation_dose := characterisation_dose model;
     characterisation_budget_fraction := characterisation_budget_fraction model;
     recommended_dose_budget := recommended_dose_budget model;
     calculate_transmission := calculate_transmission model;
     exposure_time := t;
     transmission := transmission model |}.

Definition with_transmission (model : WorkflowModel) (t : float)
  : WorkflowModel :=
  {| automation_mode := automation_mode model;
     characterisation_done := characterisation_done model;
     auto_acq_parameters := auto_acq_parameters model;
     characterisation_dose := characterisation_dose model;
     characterisation_budget_fraction := characterisation_budget_fraction model;
     recommended_dose_budget := recommended_dose_budget model;
     calculate_transmission := calculate_transmission model;
     exposure_time := exposure_time model;
     transmission := Some t |}.

(** [GphlWorkflow.setup_data_collection], from
    [# get parameters and initial transmission/use_dose] to
    [gphl_workflow_model.transmission = transmission].
    [exposure_limits] is what
    [HWR.beamline.detector.get_exposure_time_limits()] returns. *)
Definition initial_transmission (model : WorkflowModel) (strategy_type : string)
    (exposure_limits : option float * option float) : result WorkflowModel :=
  '(transmission, use_dose) ←
    (if automation_mode model then
       (* Get parameters and transmission/use_dose *)
       parameters ←
         (if characterisation_done model
          then match last (auto_acq_parameters model) with
               | Some p => Ok p
               | None => Raise IndexError
               end
          else subscript (auto_acq_parameters model) 0);
       if bool_decide (is_Some (parameters !! "dose_budget"))
       then Raise ValueError
       else Ok (parameters !! "transmission", parameters !! "use_dose")
     else Ok (None, None));
  match transmission with
  | Some _ =>
      (* If transmission is already set (automation mode), there is
         nothing to do *)
      Ok model
  | None =>
      let use_dose :=
        match use_dose with
        | Some d => d
        | None =>
            (* Set use_dose from recommended budget *)
            let use_dose := recommended_dose_budget model in
            if characterisation_done model
            then (use_dose - characterisation_dose model)%float
            else if negb (String.eqb strategy_type "diffractcal")
            then (* This is characterisation *)
              (use_dose * characterisation_budget_fraction model)%float
            else use_dose
        end in
      let transmission := calculate_transmission model use_dose in
      if gt transmission 100 then
        let model :=
          if characterisation_done model || String.eqb strategy_type "diffractcal"
          then
            (* We are not in characterisation.
               Try top reset exposure time to get desired dose *)
            let exposure_time :=
              (exposure_time model * transmission / 100)%float in
            let exposure_time :=
              if truthy_opt exposure_limits.2
              then max2 (default 0%float exposure_limits.2) exposure_time
              else exposure_time in
            with_exposure_time model exposure_time
          else model in
        Ok (with_transmission model 100)
      else Ok (with_transmission model transmission)
  end.

End Transmission.

(** * AttenuatorsMockup

    [mxcubecore/HardwareObjects/AttenuatorsMockup.py]: a device that
    keeps the attenuation factor it is given and signals each change. *)

Module AttenuatorsMockup.
#[local] Open Scope list_scope.

(** The device: its [value], and the signals it has emitted through
    [Device.emit], each with its argument, in order. *)
Record AttenuatorsMockup : Type := {
  value : number;
  emitted : list (string * number);
}.

(** [self.emit(signal, argument)] *)
Definition emit (self : AttenuatorsMockup) (signal : string) (argument : number)
  : AttenuatorsMockup :=
  {| value := value self; emitted := emitted self ++ [(signal, argument)] |}.

(** [AttenuatorsMockup.__init__] *)
Definition __init__ : AttenuatorsMockup :=
  let self := {| value := Integer 0; emitted := [] |} in
  emit self "attFactorChanged" (value self).

(** [AttenuatorsMockup.getAttState] *)
Definition getAttState (self : AttenuatorsMockup) : Z := 0.

(** [AttenuatorsMockup.get_value] *)
Definition get_value (self : AttenuatorsMockup) : number := value self.

(** [AttenuatorsMockup.getAttFactor] *)
Definition getAttFactor (self : AttenuatorsMockup) : number := get_value self.

(** [AttenuatorsMockup.set_value] *)
Definition set_value (self : AttenuatorsMockup) (v : number)
  : AttenuatorsMockup :=
  let self := {| value := v; emitted := emitted self |} in
  emit self "attFactorChanged" (value self).

(** [AttenuatorsMockup.setTransmission] *)
Definition setTransmission (self : AttenuatorsMockup) (v : number)
  : AttenuatorsMockup :=
  set_value self v.

(** A call that changes the device. *)
Inductive call : Type :=
| SetValue (v : number)
| SetTransmission (v : number).

Definition run (self : AttenuatorsMockup) (c : call) : AttenuatorsMockup :=
  match c with
  | SetValue v => set_value self v
  | SetTransmission v => setTransmission self v
  end.

End AttenuatorsMockup.

(** * Vocabulary of the further properties, and examples *)

Section PopupExamples.
#[local] Open Scope float_scope.

(** A popup at 10 per cent transmission, for the given image width and
    exposure time. *)
Definition exposure_example (image_width exposure_time : float)
  : gmap string float :=
  list_to_map
    [("exposure", exposure_time); ("image_width", image_width);
     ("transmission", 10); ("std_dose_rate", 1);
     ("total_strategy_length", 180)].



End PopupExamples.

Section RecentringVocabulary.
Import Recentring.

(** The modes that make sense for a strategy: ["sweep"] always,
    ["start"] with more than one orientation, ["scan"] for an
    interleaved strategy, ["none"] with a translation calibration
    outside characterisation. *)
Definition usable (orientations : nat)
    (is_interleaved transcal characterisation_done : bool)
    (strategy_type : option string) (mode : string) : bool :=
  String.eqb mode "sweep"
  || String.eqb mode "start" && (1 <? orientations)%nat
  || String.eqb mode "scan" && is_interleaved
  || String.eqb mode "none" && transcal
     && (characterisation_done
         || bool_decide (strategy_type = Some "diffractcal")).

End RecentringVocabulary.

Section StrategyVocabulary.
Import Messages.
#[local] Open Scope list_scope.



End StrategyVocabulary.

Section TransmissionExamples.
Import Transmission.
#[local] Open Scope float_scope.

(** A characterised crystal with a budget of 10 MGy, 2 of them spent,
    exposed for 0.04 s an image, where a dose of 1 MGy takes a
    transmission of 25 per cent. *)
Definition model_example : WorkflowModel :=
  {| automation_mode := false;
     characterisation_done := true;
     auto_acq_parameters := [];
     characterisation_dose := 2;
     characterisation_budget_fraction := 0.25;
     recommended_dose_budget := 10;
     calculate_transmission := fun use_dose => 25 * use_dose;
     exposure_time := 0x1.47ae147ae147bp-5 (* 0.04 *);
     transmission := None |}.

End TransmissionExamples.

Section SetupEvents.
Import Setup.

(** The centrings and the series of snapshots among the actions of a
    handler. *)
Definition is_centring (e : event) : bool :=
  match e with Centring _ => true | CentringSnapshots _ _ _ => false end.

Definition centrings (events : list event) : nat :=
  length (List.filter is_centring events).

Definition snapshot_series (events : list event) : nat :=
  length (List.filter (fun e => negb (is_centring e)) events).

End SetupEvents.

Section CollectTasks.
Import Messages Collect.
#[local] Open Scope list_scope.

(** The acquisitions among the tasks of a queue, in order. *)
Definition data_collections (tasks : list task) : list AcquisitionParameters :=
  omap (fun t => match t with
                 | DataCollection acq => Some acq
                 | SampleCentring _ => None
                 end) tasks.

(** The scans of a proposal that are translated: all of them, or the
    first one of an unrolled multi-trigger sweep. *)
Definition treated (ss : Session) (proposal : CollectionProposal) : list Scan :=
  match multitrigger ss proposal with
  | Some _ => take 1 (scans proposal)
  | None => scans proposal
  end.



(** Snapshots at the start and whenever the orientation changes: the
    number of snapshots of each scan, [previous] being the rotation id
    of the scan before. *)
Fixpoint snapshots_planned (count : Z) (previous : option string)
    (scans : list Scan) : list Z :=
  match scans with
  | [] => []
  | scan :: rest =>
      (if bool_decide (previous = Some (rotation_of scan)) then 0%Z else count)
      :: snapshots_planned count (Some (rotation_of scan)) rest
  end.

(** Two scans at the orientation "a", two at "b" and one more at "a",
    with two snapshots per orientation. *)
Definition interleaved : CollectionProposal :=
  {| scans :=
       [scan_example (sweep_example "a" 0) 1 0;
        scan_example (sweep_example "a" 0) 101 25;
        scan_example (sweep_example "b" 30) 1 0;
        scan_example (sweep_example "b" 30) 101 25;
        scan_example (sweep_example "a" 0) 201 50];
     sweepRepeat := None;
     sweepOffset := None |}.

End CollectTasks.

Section SnapshotActions.
Import Snapshots.
#[local] Open Scope list_scope.

(** The moves of the omega axis among the actions, and the files of the
    snapshots, in order. *)
Definition omega_moves (actions : list action) : list number :=
  omap (fun a => match a with MoveOmegaRelative x => Some x | _ => None end)
    actions.

Definition snapshot_files (actions : list action) : list string :=
  omap (fun a => match a with TakeCrystalSnapshot f => Some f | _ => None end)
    actions.

(** [summed_angle] after [moves] quarter turns. *)
Fixpoint quarter_turns (moves : nat) : float :=
  match moves with
  | O => 0%float
  | S moves => (quarter_turns moves + 90)%float
  end.

(** Whether [moves] quarter turns add up, in floats, to the float of
    their sum in degrees, which is not zero unless there is none. *)
Definition adds_up (moves : nat) : bool :=
  match float_of_int (90 * Z.of_nat moves) with
  | Ok total =>
      PrimFloat.Leibniz.eqb (quarter_turns moves) total
      && Bool.eqb (PyFloat.truthy total) (negb (moves =? 0)%nat)
  | Raise _ => false
  end.

End SnapshotActions.

Section ControllerEndings.
Import Messages Controller.
#[local] Open Scope list_scope.

Context {External : Type}.

(** An entry that ends the workflow: the stop sentinel, or one of the
    three messages whose handlers put it on the queue. *)
Definition ends_workflow (e : entry External) : bool :=
  match e with
  | Stop => true
  | Message message_type _ _ _ =>
      bool_decide
        (message_type ∈ ["WorkflowAborted"; "WorkflowCompleted"; "WorkflowFailed"])
  end.

(** The loop is left: by [break], or by an exception of a handler. *)
Definition left_loop (o : outcome) : Prop :=
  o = Break \/ exists e, o = Raised e.

(** The handlers that end the workflow. *)
Definition is_ending (func : handler) : bool :=
  match func with
  | workflow_aborted_ | workflow_completed_ | workflow_failed_ => true
  | _ => false
  end.

(** The place of the first stop sentinel of a queue, its length when
    there is none. *)
Fixpoint first_stop (q : list (entry External)) : nat :=
  match q with
  | [] => 0
  | Stop :: _ => 0
  | Message _ _ _ _ :: rest => S (first_stop rest)
  end.

End ControllerEndings.

Section AttenuatorCalls.
Import AttenuatorsMockup.

(** The factor a call asks for. *)
Definition asked (c : call) : number :=
  match c with SetValue v | SetTransmission v => v end.

End AttenuatorCalls.

(** * Properties *)

(** ** Comparisons of floats *)

Section FloatOrder.
#[local] Open Scope float_scope.

Lemma ltb_irrefl (x : float) : (x <? x) = false.
Proof.
  rewrite FloatAxioms.ltb_spec. unfold SFltb, SFcompare.
  destruct (Prim2SF x) as [s | s | | s m e]; try reflexivity;
    try (destruct s; reflexivity).
  change (PosDef.Pos.compare_cont Eq m m) with (Pos.compare m m).
  rewrite Z.compare_refl, Pos.compare_refl. destruct s; reflexivity.
Qed.

Lemma positive_not_zero (x : float) : (0 <? x) = true -> (x =? 0) = false.
Proof.
  rewrite FloatAxioms.ltb_spec, FloatAxioms.eqb_spec. unfold SFltb, SFeqb.
  change (Prim2SF 0) with (S754_zero false).
  destruct (Prim2SF x) as [s | s | | s m e]; simpl; try discriminate;
    destruct s; simpl; congruence.
Qed.

Lemma positive_truthy (x : float) : (0 <? x) = true -> PyFloat.truthy x = true.
Proof.
  intros H. unfold PyFloat.truthy. now rewrite (positive_not_zero x H).
Qed.

Lemma mul_zero_or_nan_r (x y : float) :
  zero_or_nan (Prim2SF y) -> zero_or_nan (Prim2SF (x * y)).
Proof.
  rewrite FloatAxioms.mul_spec. unfold SF64mul, SFmul.
  destruct (Prim2SF x), (Prim2SF y); cbn; tauto.
Qed.

Lemma div_zero_or_nan_l (x y : float) :
  zero_or_nan (Prim2SF x) -> (0 <? y) = true -> zero_or_nan (Prim2SF (x / y)).
Proof.
  rewrite FloatAxioms.div_spec, FloatAxioms.ltb_spec.
  unfold SF64div, SFdiv, SFltb. change (Prim2SF 0) with (S754_zero false).
  destruct (Prim2SF x), (Prim2SF y); cbn; try tauto; try discriminate.
Qed.

Lemma eqb_zero (x : float) : (x =? 0) = true -> zero_or_nan (Prim2SF x).
Proof.
  rewrite FloatAxioms.eqb_spec. unfold SFeqb.
  change (Prim2SF 0) with (S754_zero false).
  destruct (Prim2SF x) as [s|s| |s m e]; cbn; try tauto; try discriminate;
    destruct s; discriminate.
Qed.

Lemma zero_or_nan_cases (x : float) :
  zero_or_nan (Prim2SF x) -> (x =? 0) = true \/ Prim2SF x = S754_nan.
Proof.
  rewrite FloatAxioms.eqb_spec. unfold SFeqb.
  change (Prim2SF 0) with (S754_zero false).
  destruct (Prim2SF x); cbn; tauto.
Qed.

Lemma ltb_div_nan (a x y : float) :
  Prim2SF y = S754_nan -> (a <? x / y) = false.
Proof.
  intros Hy. rewrite FloatAxioms.ltb_spec, FloatAxioms.div_spec, Hy.
  unfold SF64div, SFdiv, SFltb.
  destruct (Prim2SF x), (Prim2SF a); reflexivity.
Qed.

(** Over a strategy of length zero the experiment time is a zero or not
    a number: either the transmission cannot be computed, or it is not a
    number and compares above nothing. *)
Lemma zero_length_not_raised (e tsl iw r d : float) :
  (tsl =? 0) = true -> (0 <? iw) = true ->
  (r * (e * tsl / iw) =? 0) = false ->
  (100 <? 100 * d / (r * (e * tsl / iw))) = false.
Proof.
  intros Hlen Hw Hprod.
  assert (H : zero_or_nan (Prim2SF (r * (e * tsl / iw)))).
  { apply mul_zero_or_nan_r, div_zero_or_nan_l; [|exact Hw].
    apply mul_zero_or_nan_r, eqb_zero, Hlen. }
  apply zero_or_nan_cases in H as [H | H]; [congruence|].
  now apply ltb_div_nan.
Qed.

End FloatOrder.

(** ** Dose, exposure and transmission *)

Section UpdateDose.
Import Dose PyFloat.
#[local] Open Scope float_scope.

Lemma get_set_values_3 (m : gmap string float) (a b c : float) :
  let out :=
    set_values [("exposure", a); ("transmission", b); ("experiment_time", c)] m in
  get out "exposure" 0 = a /\ get out "transmission" 0 = b.
Proof.
  unfold set_values, get; simpl. split.
  - rewrite lookup_insert_ne by done. rewrite lookup_insert_ne by done.
    now rewrite lookup_insert_eq.
  - rewrite lookup_insert_ne by done. now rewrite lookup_insert_eq.
Qed.

Lemma get_set_values_4 (m : gmap string float) (a b c d : float) :
  let out :=
    set_values
      [("exposure", a); ("transmission", b); ("use_dose", c);
       ("experiment_time", d)] m in
  get out "exposure" 0 = a /\ get out "transmission" 0 = b
  /\ get out "use_dose" 0 = c.
Proof.
  unfold set_values, get; simpl. repeat split.
  - do 3 (rewrite lookup_insert_ne by done). now rewrite lookup_insert_eq.
  - do 2 (rewrite lookup_insert_ne by done). now rewrite lookup_insert_eq.
  - rewrite lookup_insert_ne by done. now rewrite lookup_insert_eq.
Qed.

Lemma truediv_ok (x y : float) :
  (y =? 0) = false -> truediv x y = Ok (x / y).
Proof. intros H. unfold truediv. now rewrite H. Qed.

(** C1, as the code has it.  When image width, exposure time, standard
    dose rate and requested dose are positive and the product of the
    dose rate and the experiment time is not zero, [update_dose]
    returns: with
    experiment_time = exposure * strategy_length / image_width and
    transmission = 100 * use_dose / (std_dose_rate * experiment_time);
    above 100 the transmission becomes 100 and the exposure is solved
    for; an exposure above a maximum that is set and not zero is clamped
    to it, with transmission 100 and the dose achievable at that
    exposure.  The transmission it sets is then never above 100, and the
    exposure never above such a maximum. *)
Theorem update_dose_reconciles
    (exposure_limits : option float * option float)
    (values_map : gmap string float) :
  let exposure_time := get values_map "exposure" 0 in
  let image_width := get values_map "image_width" 0 in
  let use_dose := get values_map "use_dose" 0 in
  let std_dose_rate := get values_map "std_dose_rate" 0 in
  let total_strategy_length := get values_map "total_strategy_length" 0 in
  let experiment_time := exposure_time * total_strategy_length / image_width in
  let transmission := 100 * use_dose / (std_dose_rate * experiment_time) in
  let raised := 100 <? transmission in
  let exposure' :=
    if raised then use_dose / std_dose_rate * image_width / total_strategy_length
    else exposure_time in
  let clamp :=
    match exposure_limits.2 with
    | Some mx => if truthy mx && (mx <? exposure') then Some mx else None
    | None => None
    end in
  (0 <? image_width) = true -> (0 <? exposure_time) = true ->
  (0 <? std_dose_rate) = true -> (0 <? use_dose) = true ->
  (std_dose_rate * experiment_time =? 0) = false ->
  exists out,
    update_dose exposure_limits values_map = Ok out
    /\ out =
       match clamp with
       | Some mx =>
           set_values
             [("exposure", mx); ("transmission", 100);
              ("use_dose",
               std_dose_rate * (mx * total_strategy_length / image_width));
              ("experiment_time", mx * total_strategy_length / image_width)]
             values_map
       | None =>
           set_values
             [("exposure", exposure');
              ("transmission", if raised then 100 else transmission);
              ("experiment_time",
               if raised then use_dose / std_dose_rate else experiment_time)]
             values_map
       end
    /\ (100 <? get out "transmission" 0) = false
    /\ (forall mx, exposure_limits.2 = Some mx -> truthy mx = true ->
        (mx <? get out "exposure" 0) = false).
Proof.
  intros exposure_time image_width use_dose std_dose_rate total_strategy_length
    experiment_time transmission raised exposure' clamp
    Hw He Hr Hd Hprod.
  pose proof (positive_not_zero _ Hw) as Hw0.
  pose proof (positive_not_zero _ Hr) as Hr0.
  assert (H100 : (100 <? 100) = false) by apply ltb_irrefl.
  unfold update_dose.
  fold exposure_time image_width use_dose std_dose_rate total_strategy_length.
  rewrite (positive_truthy _ Hw), (positive_truthy _ He),
    (positive_truthy _ Hr), (positive_truthy _ Hd).
  cbn [andb].
  rewrite (truediv_ok _ _ Hw0). cbn [mbind result_bind]. fold experiment_time.
  rewrite (truediv_ok _ _ Hprod). cbn [mbind result_bind]. fold transmission.
  unfold gt. fold raised.
  assert (Hraised : (100 <? transmission) = raised) by reflexivity.
  clearbody raised.
  destruct raised.
  - (* the transmission is set to 100 and the exposure solved for *)
    assert (Hlen : (total_strategy_length =? 0) = false).
    { destruct (total_strategy_length =? 0) eqn:Hzero; [|reflexivity].
      pose proof (zero_length_not_raised exposure_time total_strategy_length
                    image_width std_dose_rate use_dose Hzero Hw Hprod) as Hno.
      fold experiment_time transmission in Hno. congruence. }
    rewrite (truediv_ok use_dose _ Hr0). cbn [mbind result_bind].
    rewrite (truediv_ok _ _ Hlen). cbn [mbind result_bind].
    subst clamp. fold exposure'.
    destruct (exposure_limits.2) as [mx|] eqn:Hmax.
    + destruct (truthy mx && (mx <? exposure')) eqn:Hclamp.
      * rewrite (truediv_ok _ _ Hw0). cbn [mbind result_bind].
        eexists; split; [reflexivity|]. split; [reflexivity|].
        edestruct get_set_values_4 as (-> & -> & _).
        split; [exact H100|]. intros mx' [= <-] _. apply ltb_irrefl.
      * eexists; split; [reflexivity|]. split; [reflexivity|].
        edestruct get_set_values_3 as (-> & ->).
        split; [exact H100|]. intros mx' [= <-] Ht.
        rewrite Ht in Hclamp. exact Hclamp.
    + eexists; split; [reflexivity|]. split; [reflexivity|].
      edestruct get_set_values_3 as (-> & ->).
      split; [exact H100|]. intros mx' [=].
  - (* the transmission stands *)
    cbn [mbind result_bind]. subst clamp. fold exposure'.
    destruct (exposure_limits.2) as [mx|] eqn:Hmax.
    + destruct (truthy mx && (mx <? exposure')) eqn:Hclamp.
      * rewrite (truediv_ok _ _ Hw0). cbn [mbind result_bind].
        eexists; split; [reflexivity|]. split; [reflexivity|].
        edestruct get_set_values_4 as (-> & -> & _).
        split; [exact H100|]. intros mx' [= <-] _. apply ltb_irrefl.
      * eexists; split; [reflexivity|]. split; [reflexivity|].
        edestruct get_set_values_3 as (-> & ->).
        split; [exact Hraised|]. intros mx' [= <-] Ht.
        rewrite Ht in Hclamp. exact Hclamp.
    + eexists; split; [reflexivity|]. split; [reflexivity|].
      edestruct get_set_values_3 as (-> & ->).
      split; [exact Hraised|]. intros mx' [=].
Qed.

End UpdateDose.

Section UpdateDoseExamples.
Import Dose PyFloat.
#[local] Open Scope float_scope.

(** The transmission would be 200: it is set to 100 and the exposure
    to 2 s, which the maximum of 1.5 s clamps; the dose becomes 3. *)
Lemma update_dose_reconciles_witness :
  exists out,
    update_dose (None, Some 1.5) (popup_example 2) = Ok out
    /\ get out "exposure" 0 = 1.5
    /\ get out "transmission" 0 = 100
    /\ get out "use_dose" 0 = 3.
Proof.
  destruct (update_dose_reconciles (None, Some 1.5) (popup_example 2))
    as (out & Hrun & Hout & _); try (vm_compute; reflexivity).
  exists out. split; [exact Hrun|].
  rewrite Hout. vm_compute. repeat split.
Defined.

(** C1 fails as stated.  A maximum exposure of zero counts as no
    maximum: the exposure of 2 s is returned.  And nothing guards the
    strategy length: when it is zero (its default), the first division
    raises. *)
Lemma update_dose_counterexample :
  (exists out,
     update_dose (None, Some 0) (popup_example 2) = Ok out
     /\ (0 <? get out "exposure" 0) = true)
  /\ update_dose (None, Some 1.5) (popup_example 0) = Raise ZeroDivisionError.
Proof.
  split.
  - eexists. split; [vm_compute; reflexivity|]. vm_compute. reflexivity.
  - vm_compute. reflexivity.
Qed.

End UpdateDoseExamples.

Section DoseBudget.
Import Dose PyFloat.
#[local] Open Scope float_scope.

(** C6, as the code has it.  With the decay limit and the maximum
    budget replaced by the settings' values (default 25 and 20) when
    they are unset or zero, [resolution2dose_budget] returns
    min(2 * resolution^2 * log(100 / decay_limit), max_budget) /
    sensitivity.  It validates nothing: it raises [ZeroDivisionError]
    when the decay limit in force or the sensitivity is zero, and
    [ValueError] (from [math.log]) when 100 / decay_limit is not
    positive; a zero decay limit is an unset one; and the resolution,
    negative or not, never decides whether it fails. *)
Theorem resolution2dose_budget_spec (libm_log : float -> float)
    (settings : gmap string float) (resolution : float)
    (decay_limit maximum_dose_budget : option float)
    (relative_rad_sensitivity : float) :
  let max_budget :=
    or_else maximum_dose_budget (get settings "maximum_dose_budget" 20) in
  let decay := or_else decay_limit (get settings "decay_limit" 25) in
  resolution2dose_budget libm_log settings resolution decay_limit
    maximum_dose_budget relative_rad_sensitivity
  = (if decay =? 0 then Raise ZeroDivisionError
     else if 100 / decay <=? 0 then Raise ValueError
     else if relative_rad_sensitivity =? 0 then Raise ZeroDivisionError
     else Ok (min2 (2 * resolution * resolution * libm_log (100 / decay))
                max_budget / relative_rad_sensitivity))
  /\ resolution2dose_budget libm_log settings resolution (Some 0)
       maximum_dose_budget relative_rad_sensitivity
     = resolution2dose_budget libm_log settings resolution None
         maximum_dose_budget relative_rad_sensitivity
  /\ forall resolution',
       is_ok (resolution2dose_budget libm_log settings resolution' decay_limit
                maximum_dose_budget relative_rad_sensitivity)
       = is_ok (resolution2dose_budget libm_log settings resolution decay_limit
                  maximum_dose_budget relative_rad_sensitivity).
Proof.
  intros max_budget decay.
  assert (Hspec : forall r,
    resolution2dose_budget libm_log settings r decay_limit
      maximum_dose_budget relative_rad_sensitivity
    = (if decay =? 0 then Raise ZeroDivisionError
       else if 100 / decay <=? 0 then Raise ValueError
       else if relative_rad_sensitivity =? 0 then Raise ZeroDivisionError
       else Ok (min2 (2 * r * r * libm_log (100 / decay))
                  max_budget / relative_rad_sensitivity))).
  { intros r. unfold resolution2dose_budget. fold max_budget decay.
    unfold truediv, math_log.
    destruct (decay =? 0); [reflexivity|]. cbn [mbind result_bind].
    destruct (100 / decay <=? 0); reflexivity. }
  split; [apply Hspec|]. split.
  - reflexivity.
  - intros r'. rewrite !Hspec.
    destruct (decay =? 0); [reflexivity|].
    destruct (100 / decay <=? 0); [reflexivity|].
    destruct (relative_rad_sensitivity =? 0); reflexivity.
Qed.

(** C6 fails as stated.  At a resolution of -1 and a decay limit of 25,
    and at a resolution of 2 and a decay limit of 0, no logarithm
    whatever makes [resolution2dose_budget] fail. *)
Lemma resolution2dose_budget_counterexample :
  ~ (exists libm_log e,
       resolution2dose_budget libm_log ∅ (-1) (Some 25) None 1 = Raise e)
  /\ ~ (exists libm_log e,
          resolution2dose_budget libm_log ∅ 2 (Some 0) None 1 = Raise e).
Proof.
  split; intros (libm_log & e & H); vm_compute in H; discriminate H.
Qed.

End DoseBudget.

(** ** Lattice selection *)

Section LatticeSelection.
Import Lattice.

Variable format_columns :
  Z -> string -> float -> float * float * float -> float * float * float
  -> string.

(** C10.  Whatever the candidates and the hints, a message whose
    indexing format is not IDXREF makes [parse_indexing_solution], and
    with it the lattice selection, raise [RuntimeError]. *)
Theorem parse_indexing_solution_only_idxref (choose_lattice : ChooseLattice) :
  indexingFormat choose_lattice <> "IDXREF" ->
  parse_indexing_solution format_columns choose_lattice = Raise RuntimeError
  /\ forall py,
       select_lattice format_columns py choose_lattice = Raise RuntimeError.
Proof.
  intros Hformat.
  assert (Hparse :
    parse_indexing_solution format_columns choose_lattice = Raise RuntimeError).
  { unfold parse_indexing_solution.
    destruct (String.eqb_spec (indexingFormat choose_lattice) "IDXREF")
      as [Heq | _]; [contradiction | reflexivity]. }
  split; [exact Hparse|].
  intros py. unfold select_lattice. now rewrite Hparse.
Qed.

(** With the IDXREF format the selection may fail, but never with
    [RuntimeError]: that error tells the format, nothing else. *)
Lemma parse_indexing_solution_idxref (choose_lattice : ChooseLattice) :
  indexingFormat choose_lattice = "IDXREF" ->
  parse_indexing_solution format_columns choose_lattice <> Raise RuntimeError.
Proof.
  intros Hformat. unfold parse_indexing_solution. rewrite Hformat.
  change ("IDXREF" =? "IDXREF")%string with true. cbv iota.
  set (consistent := consistent_solutions_of _).
  set (allowed := default [] _).
  set (row := match allowed with [] => None | _ => _ end).
  destruct row as [ii|]; [discriminate|].
  cbn [mbind result_bind].
  set (family := match allowed with [] => _ | _ => _ end).
  assert (Hfamily : family <> Raise RuntimeError).
  { subst family. destruct allowed as [|l ls]; [discriminate|].
    destruct (negb _); [|discriminate].
    destruct (first_chars (l :: ls)) as [aset | e] eqn:Hset.
    - cbn [mbind result_bind]. destruct aset as [|c [|c' cs]]; discriminate.
    - cbn [mbind result_bind]. intros [= ->].
      revert Hset. generalize (l :: ls). clear.
      induction l as [|x l IH]; [discriminate|]. cbn [first_chars].
      destruct x; [discriminate|]. cbn [first_char mbind result_bind].
      destruct (first_chars l); cbn [mbind result_bind]; [discriminate|].
      intros [= ->]. now apply IH. }
  destruct family as [family | e]; cbn [mbind result_bind].
  - destruct (truthy_str family); cbn [mbind result_bind].
    + destruct (first_index _ consistent); cbn [mbind result_bind];
        [discriminate|].
      destruct (last consistent); discriminate.
    + destruct (last consistent); discriminate.
  - intros [= ->]. now apply Hfamily.
Qed.

(** C4 does not hold of the code.  [parse_indexing_solution] counts
    the selected row among the consistent solutions: with the candidates
    in the order oP (not consistent), mC, tP the row is 0, the mC
    solution.  [select_lattice] reads that row among all the solutions:
    on Python 2 it returns the first of them, oP, which is not even
    consistent; on Python 3 the subscript of [values()] raises
    [TypeError].  The mC candidate is returned on neither. *)
Theorem select_lattice_reads_wrong_row :
  let message := choose_among "IDXREF" [candidate_oP; candidate_mC; candidate_tP] in
  (exists header soldict,
     parse_indexing_solution format_columns message
     = Ok (header, soldict, Some 0%nat)
     /\ consistent_solutions_of (indexingSolutions message) !! 0%nat
        = Some candidate_mC)
  /\ select_lattice format_columns Py2 message = Ok candidate_oP
  /\ select_lattice format_columns Py3 message = Raise TypeError.
Proof.
  intros message.
  assert (Hparse :
    parse_indexing_solution format_columns message
    = Ok (header, solutions_dict_of format_columns (indexingSolutions message),
          Some 0%nat)) by reflexivity.
  assert (Hfirst : forall py,
    values_subscript py
      (solutions_dict_of format_columns (indexingSolutions message))
      (Some 0%nat)
    = match py with Py2 => Ok candidate_oP | Py3 => Raise TypeError end).
  { intros [|]; [|reflexivity].
    unfold values_subscript, solutions_dict_of, solution_line. cbn.
    unfold String.app. cbn. reflexivity. }
  split; [|split].
  - exists header, (solutions_dict_of format_columns (indexingSolutions message)).
    split; [exact Hparse | reflexivity].
  - unfold select_lattice. rewrite Hparse. exact (Hfirst Py2).
  - unfold select_lattice. rewrite Hparse. exact (Hfirst Py3).
Qed.

End LatticeSelection.

Lemma parse_indexing_solution_only_idxref_witness :
  "DIALS" <> "IDXREF"
  /\ Lattice.parse_indexing_solution columns_example
       (choose_among "DIALS" [candidate_mC; candidate_tP; candidate_oP])
     = Raise RuntimeError
  /\ Lattice.select_lattice columns_example Lattice.Py3
       (choose_among "DIALS" [candidate_mC; candidate_tP; candidate_oP])
     = Raise RuntimeError.
Proof.
  assert (H : "DIALS" <> "IDXREF") by discriminate.
  split; [exact H|].
  destruct (parse_indexing_solution_only_idxref columns_example
              (choose_among "DIALS" [candidate_mC; candidate_tP; candidate_oP]) H)
    as [Hparse Hselect].
  split; [exact Hparse | exact (Hselect Lattice.Py3)].
Defined.

(** ** The geometry solver's output *)

Section RecenOutput.
Import PyStr Recen.
#[local] Open Scope list_scope.

Lemma scan_lines_no_marker (lines rest : list str) :
  Forall (fun l => ~ is_marker l) lines ->
  scan_lines false (lines ++ rest) = scan_lines false rest.
Proof.
  induction 1 as [|l lines Hl _ IH]; [reflexivity|].
  cbn [app scan_lines]. rewrite bool_decide_eq_false_2 by exact Hl. exact IH.
Qed.

Lemma scan_lines_no_xyz (lines rest : list str) :
  Forall (fun l => ~ has_xyz l) lines ->
  scan_lines true (lines ++ rest) = scan_lines true rest.
Proof.
  induction 1 as [|l lines Hl _ IH]; [reflexivity|].
  cbn [app scan_lines]. unfold has_xyz in Hl.
  destruct (contains xyz_tag (strip l)); [contradiction|exact IH].
Qed.

Lemma scan_lines_marker (m : str) (rest : list str) :
  is_marker m -> scan_lines false (m :: rest) = scan_lines true rest.
Proof.
  intros Hm. cbn [scan_lines]. now rewrite bool_decide_eq_true_2 by exact Hm.
Qed.

Variable float_of_str : str -> option float.

(** C7, as the code has it.  The output is read from its last line
    backwards.  A translation is read only from a line containing
    ["X,Y,Z"] that comes before the last line reading
    ["NORMAL termination"] with no other such line in between: its last
    three words are converted, one per translation axis.  When no line
    reads ["NORMAL termination"], or none before the last one contains
    ["X,Y,Z"], and when the solver ends with a non-zero return code, the
    result is empty, one error is logged and nothing is raised. *)
Theorem calculate_recentring_reads_backwards
    (translation_axis_roles : list string) (output : str) :
  (forall before x between m after,
     splitlines output = before ++ x :: between ++ m :: after ->
     has_xyz x -> Forall (fun l => ~ has_xyz l) between ->
     is_marker m -> Forall (fun l => ~ is_marker l) after ->
     calculate_recentring float_of_str translation_axis_roles (Returned output)
     = (values ←
          fill_result float_of_str translation_axis_roles 0
            (last_items 3 (split (strip x))) ∅;
        Ok (values, [])))
  /\ (forall before m after,
        splitlines output = before ++ m :: after ->
        Forall (fun l => ~ has_xyz l) before ->
        is_marker m -> Forall (fun l => ~ is_marker l) after ->
        calculate_recentring float_of_str translation_axis_roles
          (Returned output)
        = Ok (∅, [FailedWithNormalTermination true output]))
  /\ (Forall (fun l => ~ is_marker l) (splitlines output) ->
      calculate_recentring float_of_str translation_axis_roles (Returned output)
      = Ok (∅, [FailedWithNormalTermination false output]))
  /\ (forall returncode,
        calculate_recentring float_of_str translation_axis_roles
          (CalledProcessError returncode output)
        = Ok (∅, [FailedWithReturncode returncode output])).
Proof.
  repeat split.
  - intros before x between m after Hlines Hx Hbetween Hm Hafter.
    unfold calculate_recentring, find_translation. rewrite Hlines.
    rewrite reverse_app, reverse_cons, reverse_app, reverse_cons.
    rewrite <- !app_assoc.
    rewrite scan_lines_no_marker by now apply Forall_reverse.
    cbn [app]. rewrite scan_lines_marker by exact Hm.
    rewrite scan_lines_no_xyz by now apply Forall_reverse.
    cbn [app scan_lines]. unfold has_xyz in Hx. rewrite Hx. reflexivity.
  - intros before m after Hlines Hbefore Hm Hafter.
    unfold calculate_recentring, find_translation. rewrite Hlines.
    rewrite reverse_app, reverse_cons. rewrite <- !app_assoc.
    rewrite scan_lines_no_marker by now apply Forall_reverse.
    cbn [app]. rewrite scan_lines_marker by exact Hm.
    rewrite <- (app_nil_r (reverse before)).
    rewrite scan_lines_no_xyz by now apply Forall_reverse.
    reflexivity.
  - intros Hnone. unfold calculate_recentring, find_translation.
    rewrite <- (app_nil_r (reverse (splitlines output))).
    rewrite scan_lines_no_marker by now apply Forall_reverse.
    reflexivity.
Qed.

(** Where a translation line is found, the conversion of its words is
    not protected: a word that is no number raises [ValueError], a line
    with fewer words than translation axes raises [IndexError]. *)
Lemma fill_result_raises (roles : list string) (ii : nat) (ll0 : list str)
    (values : gmap string float) :
  (exists jj word,
     (jj < length roles)%nat /\ ll0 !! (ii + jj)%nat = Some word
     /\ float_of_str word = None
     /\ forall kk w, (kk < jj)%nat -> ll0 !! (ii + kk)%nat = Some w ->
                     is_Some (float_of_str w)) ->
  (length roles <= length ll0 - ii)%nat ->
  fill_result float_of_str roles ii ll0 values = Raise ValueError.
Proof.
  revert ii values.
  induction roles as [|tag roles IH]; intros ii values (jj & word & Hjj & Hword & Hbad & Hgood) Hlen.
  - cbn in Hjj. lia.
  - cbn [fill_result]. destruct jj as [|jj].
    + rewrite Nat.add_0_r in Hword. rewrite Hword, Hbad. reflexivity.
    + destruct (ll0 !! ii) as [w|] eqn:Hw.
      * destruct (Hgood 0%nat w) as [v Hv]; [lia | now rewrite Nat.add_0_r |].
        rewrite Hv. apply IH.
        -- exists jj, word. cbn in Hjj. repeat split; [lia | | exact Hbad |].
           ++ now replace (S ii + jj)%nat with (ii + S jj)%nat by lia.
           ++ intros kk w' Hkk Hw'. apply (Hgood (S kk)); [lia|].
              now replace (ii + S kk)%nat with (S ii + kk)%nat by lia.
        -- cbn in Hlen. lia.
      * apply lookup_ge_None in Hw. cbn in Hlen. lia.
Qed.

End RecenOutput.

Section RecenExamples.
Import PyStr Recen.
#[local] Open Scope list_scope.

(** C7 fails as stated.  A marker line followed by the translation line
    is refused, while the translation line followed by the marker line
    is read; and a translation that is no number raises [ValueError]
    whenever [float] refuses it. *)
Lemma calculate_recentring_counterexample :
  find_translation marker_then_translation = (true, None)
  /\ find_translation translation_then_marker
     = (true, Some [lit "1.5"; lit "-0.25"; lit "2.0"])
  /\ (forall float_of_str : str -> option float,
        float_of_str (lit "1.5") = Some 1.5%float ->
        float_of_str (lit "****") = None ->
        calculate_recentring float_of_str ["sampx"; "sampy"; "phiy"]
          (Returned garbled_translation)
        = Raise ValueError).
Proof.
  split; [vm_compute; reflexivity|]. split; [vm_compute; reflexivity|].
  intros float_of_str H1 H2. unfold calculate_recentring.
  replace (find_translation garbled_translation)
    with (true, Some [lit "1.5"; lit "****"; lit "2.0"])
    by (vm_compute; reflexivity).
  cbn [fill_result lookup list_lookup]. rewrite H1.
  cbn [fill_result lookup list_lookup]. rewrite H2. reflexivity.
Qed.

Lemma calculate_recentring_reads_backwards_witness :
  calculate_recentring float_example ["sampx"; "sampy"; "phiy"]
    (Returned translation_then_marker)
  = Ok (<["phiy" := 2%float]> (<["sampy" := (-0.25)%float]>
          (<["sampx" := 1.5%float]> ∅)), []).
Proof.
  destruct (calculate_recentring_reads_backwards float_example
              ["sampx"; "sampy"; "phiy"] translation_then_marker)
    as (Hread & _).
  rewrite (Hread [] (lit " X,Y,Z  1.5 -0.25 2.0") []
             (lit " NORMAL termination") []).
  - vm_compute. reflexivity.
  - vm_compute. reflexivity.
  - vm_compute. reflexivity.
  - constructor.
  - vm_compute. reflexivity.
  - constructor.
Defined.

End RecenExamples.

(** ** Centring of the orientations of a plan *)

Lemma bind_Ok {A B} (m : result A) (f : A -> result B) (b : B) :
  m ≫= f = Ok b -> exists a, m = Ok a /\ f a = Ok b.
Proof. destruct m as [a|e]; [eauto | discriminate]. Qed.

Ltac invert_result :=
  repeat
    (cbn beta iota in *;
     match goal with
     | H : Raise _ = Ok _ |- _ => discriminate H
     | H : Ok _ = Ok _ |- _ => injection H as H
     | H : _ ≫= _ = Ok _ |- _ =>
         let a := fresh "a" in
         let Ha := fresh "Ha" in
         apply bind_Ok in H as (a & Ha & H)
     | H : (if ?b then _ else _) = Ok _ |- _ => destruct b eqn:?
     | H : match ?x with _ => _ end = Ok _ |- _ => destruct x eqn:?
     end).

Section SetupTranslations.
Import Messages Setup.
#[local] Open Scope list_scope.

Lemma first_encountered_elem (ids : list string) (x : string) :
  x ∈ first_encountered ids <-> x ∈ ids.
Proof.
  induction ids as [|y ids IH]; [reflexivity|]. cbn [first_encountered].
  rewrite !elem_of_cons, list_elem_of_filter, IH.
  destruct (decide (x = y)); tauto.
Qed.

Lemma first_encountered_NoDup (ids : list string) :
  NoDup (first_encountered ids).
Proof.
  induction ids as [|y ids IH]; [constructor|]. cbn [first_encountered].
  apply NoDup_cons. split; [|now apply NoDup_filter].
  rewrite list_elem_of_filter. tauto.
Qed.

Lemma ordered_sweep_settings_ids (sweeps : list Sweep) (seen : gset string)
    (acc : list GoniostatSweepSetting) :
  id_ <$> ordered_sweep_settings sweeps seen acc
  = (id_ <$> acc)
    ++ filter (fun x => x ∉ seen) (first_encountered (sweep_id <$> sweeps)).
Proof.
  revert seen acc.
  induction sweeps as [|sweep sweeps IH]; intros seen acc.
  - cbn. now rewrite app_nil_r.
  - cbn [ordered_sweep_settings fmap list_fmap first_encountered].
    fold (sweep_id sweep).
    destruct (decide (sweep_id sweep ∈ seen)) as [Hin | Hout].
    + rewrite bool_decide_eq_false_2 by tauto.
      rewrite IH, filter_cons_False by tauto.
      rewrite list_filter_filter_l; [reflexivity|].
      intros y Hy ->. contradiction.
    + rewrite bool_decide_eq_true_2 by exact Hout.
      rewrite IH, fmap_app, <- app_assoc, filter_cons_True by exact Hout.
      cbn [fmap list_fmap app]. fold (sweep_id sweep). do 2 f_equal.
      rewrite list_filter_filter. apply list_filter_iff.
      intros y. rewrite not_elem_of_union, not_elem_of_singleton. tauto.
Qed.

Lemma execute_sample_centring_id (bl : Beamline) (qe : gmap string float)
    (rotation : string) (requested : option string)
    (t : GoniostatTranslation) (positions : gmap string float) :
  execute_sample_centring bl qe rotation requested = Ok (t, positions) ->
  rotation_id t = rotation /\ requestedRotationId t = requested.
Proof.
  unfold execute_sample_centring. intros H. invert_result. subst. now split.
Qed.

Lemma remaining_sweep_setting_adds (bl : Beamline) (recentring_mode : string)
    (recen_parameters : option RecenParameters) (pos_dict : gmap string float)
    (st st' : state) (sweepSetting : GoniostatSweepSetting) :
  remaining_sweep_setting bl recentring_mode recen_parameters pos_dict st
    sweepSetting = Ok st' ->
  adds_translation_for (id_ sweepSetting) st st'.
Proof.
  unfold remaining_sweep_setting, adds_translation_for.
  destruct st as [[ts rid] ev]. intros H. invert_result; subst; cbn;
    try (eexists; split; [reflexivity|reflexivity]).
  all: match goal with
       | H : execute_sample_centring _ _ _ _ = Ok _ |- _ =>
           apply execute_sample_centring_id in H as [Hid Hreq]
       end;
    eexists; (split; [reflexivity|]); unfold matched_id; now rewrite Hreq, Hid.
Qed.

Lemma remaining_sweep_settings_ids (bl : Beamline) (recentring_mode : string)
    (recen_parameters : option RecenParameters) (pos_dict : gmap string float)
    (sweepSettings : list GoniostatSweepSetting) (st st' : state) :
  remaining_sweep_settings bl recentring_mode recen_parameters pos_dict st
    sweepSettings = Ok st' ->
  matched_id <$> st'.1.1 = (matched_id <$> st.1.1) ++ (id_ <$> sweepSettings).
Proof.
  revert st. induction sweepSettings as [|s rest IH]; intros st H.
  - cbn in H. injection H as <-. cbn. now rewrite app_nil_r.
  - cbn [remaining_sweep_settings] in H. apply bind_Ok in H as (st1 & H1 & H).
    apply remaining_sweep_setting_adds in H1 as (t & Hts & Hid).
    rewrite (IH _ H), Hts, fmap_app, <- app_assoc. cbn. now rewrite Hid.
Qed.

Lemma first_when_centred_adds (bl : Beamline) (recentring_mode : string)
    (recen_parameters : option RecenParameters)
    (sweepSetting : GoniostatSweepSetting) (pos : gmap string float)
    (okp : list float) (st st' : state) :
  first_when_centred bl recentring_mode recen_parameters sweepSetting pos okp st
  = Ok st' ->
  adds_translation_for (id_ sweepSetting) st st'.
Proof.
  unfold first_when_centred, adds_translation_for.
  destruct st as [[ts rid] ev]. intros H. invert_result; subst; cbn;
    try (eexists; split; [reflexivity|reflexivity]).
  all: match goal with
       | H : execute_sample_centring _ _ _ _ = Ok _ |- _ =>
           apply execute_sample_centring_id in H as [Hid Hreq]
       end;
    eexists; (split; [reflexivity|]); unfold matched_id; now rewrite Hreq, Hid.
Qed.

Lemma first_when_precentred_adds (bl : Beamline)
    (sweepSetting : GoniostatSweepSetting) (pos : gmap string float)
    (st st' : state) :
  first_when_precentred bl sweepSetting pos st = Ok st' ->
  adds_translation_for (id_ sweepSetting) st st'.
Proof.
  unfold first_when_precentred, adds_translation_for.
  destruct st as [[ts rid] ev]. intros H. invert_result; subst; cbn.
  eexists; split; reflexivity.
Qed.

Lemma ordered_sweep_settings_first_encountered (sweeps : list Sweep) :
  id_ <$> ordered_sweep_settings sweeps ∅ []
  = first_encountered (sweep_id <$> sweeps).
Proof.
  rewrite ordered_sweep_settings_ids. cbn [fmap list_fmap app].
  induction (first_encountered (sweep_id <$> sweeps)) as [|x l IH];
    [reflexivity|].
  rewrite filter_cons_True by apply not_elem_of_empty. now rewrite IH.
Qed.

(** C2.  When [setup_data_collection] returns, the translations it
    hands to the workflow answer, one each and in this order, for the
    rotation ids of the plan's sweeps as they are first met (the
    translation of a rotation made on the spot answers through its
    [requestedRotationId]); the order is reversed in the recentring mode
    ["start"].  So every id of the plan has exactly one translation. *)
Theorem setup_data_collection_translations (bl : Beamline)
    (characterisation_done : bool) (strategy_type recentring_mode : string)
    (transcal : option (list float * list float))
    (current_rotation_id : option string) (sweeps : list Sweep)
    (out : Outcome) :
  setup_data_collection bl characterisation_done strategy_type recentring_mode
    transcal current_rotation_id sweeps = Ok out ->
  let ids := first_encountered (sweep_id <$> sweeps) in
  let answered := matched_id <$> goniostat_translations out in
  answered = (if String.eqb recentring_mode "start" then reverse ids else ids)
  /\ NoDup answered
  /\ forall id, id ∈ answered <-> id ∈ (sweep_id <$> sweeps).
Proof.
  intros H ids answered.
  assert (Horder :
    answered = if String.eqb recentring_mode "start" then reverse ids else ids).
  { subst answered ids. unfold setup_data_collection in H.
    rewrite <- ordered_sweep_settings_first_encountered.
    set (plain := ordered_sweep_settings sweeps ∅ []) in *.
    assert (Hids :
      (id_ <$> (if String.eqb recentring_mode "start" then reverse plain
                else plain))
      = if String.eqb recentring_mode "start" then reverse (id_ <$> plain)
        else id_ <$> plain).
    { destruct (String.eqb recentring_mode "start");
        [apply fmap_reverse | reflexivity]. }
    rewrite <- Hids. clear Hids.
    set (sweepSettings :=
           if String.eqb recentring_mode "start" then reverse plain else plain)
      in *.
    apply bind_Ok in H as (sweepSetting & Hfirst & H).
    unfold subscript in Hfirst.
    destruct sweepSettings as [|s0 rest]; [discriminate|].
    cbn in Hfirst. injection Hfirst as <-.
    apply bind_Ok in H as ([st pos] & Hstart & H).
    apply bind_Ok in H as (current_okp & _ & H).
    apply bind_Ok in H as (current_xyz & _ & H).
    apply bind_Ok in H as (st1 & Hst1 & H).
    assert (Hone : matched_id <$> st1.1.1 = [id_ s0]).
    { destruct (recentre_before_start bl && negb characterisation_done).
      - apply bind_Ok in Hstart as (qe & _ & Hstart).
        apply bind_Ok in Hstart as ([t pos'] & Hexec & Hstart).
        apply execute_sample_centring_id in Hexec as [Hid Hreq].
        injection Hstart as <- <-. cbn in Hst1. injection Hst1 as <-.
        cbn. unfold matched_id. now rewrite Hreq, Hid.
      - injection Hstart as <- <-. cbn [fst] in Hst1.
        destruct (characterisation_done || String.eqb strategy_type "diffractcal").
        + apply first_when_centred_adds in Hst1 as (t & -> & <-). reflexivity.
        + destruct (negb (recentre_before_start bl)).
          * apply first_when_precentred_adds in Hst1 as (t & -> & <-).
            reflexivity.
          * injection Hst1 as <-. cbn in H. discriminate. }
    destruct (st1.1.1) as [|t ts] eqn:Hts; [discriminate|].
    apply bind_Ok in H as ([[ts' rid'] ev'] & Hrest & H).
    injection H as <-. cbn [goniostat_translations].
    apply remaining_sweep_settings_ids in Hrest. cbn [fst tail] in Hrest.
    rewrite Hrest, Hts, Hone. reflexivity. }
  split; [exact Horder|].
  assert (Hnodup : NoDup ids) by apply first_encountered_NoDup.
  assert (Helem : forall id, id ∈ ids <-> id ∈ (sweep_id <$> sweeps))
    by (intros id; apply first_encountered_elem).
  rewrite Horder. destruct (String.eqb recentring_mode "start").
  - split; [now rewrite reverse_Permutation|].
    intros id. now rewrite elem_of_reverse.
  - now split.
Qed.

End SetupTranslations.

Section SetupReturns.
Import Messages Setup.
#[local] Open Scope list_scope.

Lemma mapM_lookup_key {A} (f : string -> float -> A) (d : gmap string float)
    (roles : list string) :
  Forall (fun role => is_Some (d !! role)) roles ->
  exists vs, mapM (fun x => v ← lookup_key d x; Ok (f x v)) roles = Ok vs.
Proof.
  induction 1 as [|role roles [v Hv] _ [vs IH]]; [now exists []|].
  exists (f role v :: vs). cbn [mapM]. rewrite IH. unfold lookup_key.
  rewrite Hv. reflexivity.
Qed.

Lemma mapM_lookup_key_plain (d : gmap string float) (roles : list string) :
  Forall (fun role => is_Some (d !! role)) roles ->
  exists vs, mapM (lookup_key d) roles = Ok vs.
Proof.
  induction 1 as [|role roles [v Hv] _ [vs IH]]; [now exists []|].
  exists (v :: vs). cbn [mapM]. rewrite IH. unfold lookup_key.
  rewrite Hv. reflexivity.
Qed.

Lemma ordered_sweep_settings_prefix (sweeps : list Sweep) (seen : gset string)
    (acc : list GoniostatSweepSetting) :
  exists tl, ordered_sweep_settings sweeps seen acc = acc ++ tl.
Proof.
  revert seen acc. induction sweeps as [|s sweeps IH]; intros seen acc.
  - exists []. cbn. now rewrite app_nil_r.
  - cbn [ordered_sweep_settings]. destruct (bool_decide _); [|apply IH].
    destruct (IH ({[id_ (goniostatSweepSetting s)]} ∪ seen)
                (acc ++ [goniostatSweepSetting s])) as [tl ->].
    rewrite <- app_assoc. eauto.
Qed.

(** The handler does return in the plain case of a first
    characterisation: the sample centred beforehand, no translation
    calibration, a recentring mode other than ["start"], a plan that is
    not empty, and motor positions known for the rotation and
    translation axes and for the axes of the first orientation. *)
Lemma setup_data_collection_returns (bl : Beamline)
    (strategy_type recentring_mode : string)
    (current_rotation_id : option string) (sweep : Sweep) (sweeps : list Sweep) :
  recentre_before_start bl = false ->
  String.eqb strategy_type "diffractcal" = false ->
  String.eqb recentring_mode "start" = false ->
  Forall (fun role => is_Some (get_positions bl !! role))
    (rotation_axis_roles bl ++ translation_axis_roles bl) ->
  dom (axisSettings (goniostatSweepSetting sweep)) ⊆ dom (get_positions bl) ->
  exists out,
    setup_data_collection bl false strategy_type recentring_mode None
      current_rotation_id (sweep :: sweeps) = Ok out.
Proof.
  intros Hbefore Hstrategy Hmode Hroles Haxes.
  apply Forall_app in Hroles as [Hrot Htrans].
  unfold setup_data_collection. rewrite Hmode, Hbefore, Hstrategy.
  cbn [ordered_sweep_settings].
  rewrite bool_decide_eq_true_2 by apply not_elem_of_empty.
  set (rest := ordered_sweep_settings sweeps _ _).
  destruct (ordered_sweep_settings_prefix sweeps
              ({[id_ (goniostatSweepSetting sweep)]} ∪ ∅)
              ([] ++ [goniostatSweepSetting sweep])) as [tl Hrest].
  subst rest. rewrite Hrest. clear Hrest. cbn [app].
 cbn [subscript lookup list_lookup mbind result_bind andb negb orb].
  destruct (mapM_lookup_key_plain _ _ Hrot) as [okp ->].
  destruct (mapM_lookup_key_plain _ _ Htrans) as [xyz ->].
  cbn [mbind result_bind fmap option_fmap option_map fst snd].
  unfold first_when_precentred. rewrite bool_decide_eq_true_2 by exact Haxes.
  cbn [mbind result_bind fst snd app tail].
  generalize (Some (new_rotation_id bl)).
  generalize (@nil event).
  generalize [{| rotation_id := new_rotation_id bl;
                 requestedRotationId := Some (id_ (goniostatSweepSetting sweep));
                 translation_settings := translation_part bl (get_positions bl) |}].
  induction tl as [|s tl IH]; intros ts ev rid.
  - cbn. eauto.
  - cbn [remaining_sweep_settings]. unfold remaining_sweep_setting at 1.
    cbn [mbind result_bind]. rewrite Hmode.
    destruct (mapM_lookup_key (fun role v => (role, v)) _ _ Htrans) as [vs ->].
    cbn [mbind result_bind]. apply IH.
Qed.

End SetupReturns.

Section SetupExamples.
Import Messages Setup.
#[local] Open Scope list_scope.

Lemma setup_data_collection_translations_witness :
  exists out,
    setup_data_collection beamline_example true "acquisition" "start" None None
      plan_example = Ok out
    /\ matched_id <$> goniostat_translations out = ["c"; "b"; "a"].
Proof.
  destruct (setup_data_collection beamline_example true "acquisition" "start"
              None None plan_example) as [out | e] eqn:Hrun;
    [|vm_compute in Hrun; discriminate Hrun].
  exists out. split; [reflexivity|].
  destruct (setup_data_collection_translations _ _ _ _ _ _ _ _ Hrun)
    as [Horder _].
  rewrite Horder. reflexivity.
Defined.

End SetupExamples.

(** ** Translation of a collection proposal *)

Section CollectData.
Import PyFloat Messages Collect.
#[local] Open Scope list_scope.

Lemma max_deviation_oriented (o l : option float * option float) :
  oriented o -> oriented l -> exists d, max_deviation o l = Ok d.
Proof.
  destruct o as [o1 o2], l as [l1 l2]. unfold oriented. cbn [fst snd].
  intros [[? ->] [? ->]] [[? ->] [? ->]]. cbn. eauto.
Qed.

Lemma collect_scans_app (ss : Session) (mt : option float) (n : Z)
    (st : loop_state) (l1 l2 : list Scan) :
  collect_scans ss mt n st (l1 ++ l2)
  = st' ← collect_scans ss mt n st l1; collect_scans ss mt n st' l2.
Proof.
  revert st. induction l1 as [|s l1 IH]; intros st; [reflexivity|].
  cbn [app collect_scans].
  destruct (collect_scan ss mt n st s) as [st1|e]; [|reflexivity].
  cbn [mbind result_bind]. apply IH.
Qed.

(** One scan outside multi-trigger mode: the state it leaves. *)
Lemma collect_scan_plain (ss : Session) (n : Z) (st : loop_state) (scan : Scan) :
  scan_ready scan ->
  match last_orientation st with Some l => oriented l | None => True end ->
  exists maxdev acq,
    match last_orientation st with
    | Some l => max_deviation (orientation_of (sweep scan)) l = Ok maxdev
    | None => maxdev = Collect.maxdev st
    end
    /\ collect_scan ss None n st scan
       = Ok {| sweeps := sweep scan :: sweeps st;
               last_orientation := Some (orientation_of (sweep scan));
               maxdev := maxdev;
               snapshotted_rotation_ids :=
                 if bool_decide (rotation_of scan ∈ snapshotted_rotation_ids st)
                    && bool_decide (Some (rotation_of scan)
                                    = current_rotation_id st)
                 then snapshotted_rotation_ids st
                 else {[rotation_of scan]} ∪ snapshotted_rotation_ids st;
               current_rotation_id := Some (rotation_of scan);
               queue :=
                 queue st
                 ++ (if recentre ss st (rotation_of scan) maxdev
                     then [SampleCentring (initial_settings (sweep scan))]
                     else [])
                 ++ [DataCollection acq] |}
    /\ (is_Some (centred_position acq)
        <-> recentre ss st (rotation_of scan) maxdev = false)
    /\ num_images acq = numImages scan.
Proof.
  intros (Hk & Hp & [d Hd]) Hlast. unfold collect_scan.
  unfold lookup_key. rewrite Hd. cbn [mbind result_bind].
  assert (Hmax : exists maxdev,
    match last_orientation st with
    | Some l => max_deviation (orientation_of (sweep scan)) l
    | None => Ok (Collect.maxdev st)
    end = Ok maxdev
    /\ match last_orientation st with
       | Some l => max_deviation (orientation_of (sweep scan)) l = Ok maxdev
       | None => maxdev = Collect.maxdev st
       end).
  { destruct (last_orientation st) as [l|]; [|eauto].
    destruct (max_deviation_oriented (orientation_of (sweep scan)) l)
      as [m Hm]; [now split | exact Hlast | eauto]. }
  destruct Hmax as (maxdev & -> & Hmaxdev). cbn [mbind result_bind].
  eexists maxdev, _. split; [exact Hmaxdev|]. split; [reflexivity|].
  cbn [centred_position num_images]. split; [|reflexivity].
  fold (rotation_of scan).
  destruct (recentre ss st (rotation_of scan) maxdev).
  - split; [intros [? [=]] | discriminate].
  - split; [reflexivity | eauto].
Qed.

Lemma recentre_same_rotation (ss : Session) (st : loop_state) (r : string)
    (maxdev : float) :
  recentring_mode ss = "sweep" ->
  sweeps st = [] \/ current_rotation_id st = Some r ->
  recentre ss st r maxdev = false.
Proof.
  intros Hmode [Hfirst | Hsame]; unfold recentre.
  - now rewrite Hfirst.
  - destruct (sweeps st); [reflexivity|]. rewrite Hmode, Hsame.
    now rewrite bool_decide_eq_true_2.
Qed.

Lemma recentre_other_rotation (ss : Session) (st : loop_state) (a b : string)
    (maxdev : float) :
  recentring_mode ss = "sweep" ->
  sweeps st <> [] -> current_rotation_id st = Some a -> a <> b ->
  recentre ss st b maxdev
  = negb ((0 <=? maxdev)%float && (maxdev <? angular_tolerance ss)%float).
Proof.
  intros Hmode Hseen Hcurrent Hab. unfold recentre.
  destruct (sweeps st); [contradiction|]. rewrite Hmode, Hcurrent.
  rewrite bool_decide_eq_false_2 by congruence. reflexivity.
Qed.

(** In the mode ["sweep"], scans at the rotation id the model stands at
    (or opening the proposal) are collected at the precalculated
    position: no centring is queued. *)
Lemma collect_scans_one_rotation (ss : Session) (n : Z) (r : string)
    (scans : list Scan) (st : loop_state) :
  recentring_mode ss = "sweep" ->
  Forall (fun s => scan_ready s /\ rotation_of s = r) scans ->
  sweeps st = [] \/ current_rotation_id st = Some r ->
  match last_orientation st with Some l => oriented l | None => True end ->
  exists st' acqs,
    collect_scans ss None n st scans = Ok st'
    /\ queue st' = queue st ++ (DataCollection <$> acqs)
    /\ length acqs = length scans
    /\ Forall (fun a => is_Some (centred_position a)) acqs
    /\ last_orientation st'
       = match last scans with
         | Some s => Some (orientation_of (sweep s))
         | None => last_orientation st
         end
    /\ (scans <> [] -> sweeps st' <> [] /\ current_rotation_id st' = Some r).
Proof.
  intros Hmode Hscans. revert st.
  induction Hscans as [|s scans [Hready Hr] _ IH]; intros st Hst Hlast.
  - exists st, []. cbn. rewrite app_nil_r. repeat split; eauto. congruence.
  - destruct (collect_scan_plain ss n st s Hready Hlast)
      as (maxdev & acq & _ & Hstep & Hpos & _).
    rewrite Hr in Hstep, Hpos.
    rewrite (recentre_same_rotation ss st r maxdev Hmode Hst) in Hstep, Hpos.
    match type of Hstep with _ = Ok ?x => set (st1 := x) in * end.
    assert (Hst1 : sweeps st1 = [] \/ current_rotation_id st1 = Some r)
      by (right; reflexivity).
    assert (Hlast1 :
      match last_orientation st1 with Some l => oriented l | None => True end).
    { cbn. destruct Hready as (? & ? & _). now split. }
    cbn [collect_scans]. rewrite Hstep. cbn [mbind result_bind].
    destruct (IH st1 Hst1 Hlast1)
      as (st' & acqs & Hrun & Hqueue & Hlen & Hall & Hori & Hnext).
    exists st', (acq :: acqs). rewrite Hrun. split; [reflexivity|].
    split; [rewrite Hqueue; cbn; now rewrite <- app_assoc|].
    split; [cbn; now rewrite Hlen|].
    split; [constructor; [now apply Hpos | exact Hall]|].
    split.
    + rewrite Hori, last_cons. cbn [last_orientation st1].
      now destruct (last scans).
    + intros _. destruct scans as [|s' scans'].
      * cbn in Hrun. injection Hrun as <-. cbn. split; [discriminate|reflexivity].
      * now apply Hnext.
Qed.

(** C5, as the code has it.  Take a proposal outside multi-trigger mode
    whose scans are those of a first sweep, ending with [p], followed by
    those of a second sweep, starting with [q], at another rotation id,
    in the recentring mode ["sweep"].  Then [collect_data] queues one
    data collection per scan and at most one centring, before the first
    scan of the second sweep; it queues that one exactly when the
    deviation [maxdev] of kappa and phi between [p] and [q] is not
    within [0 <= maxdev < angular_tolerance].  No other scan is
    recentred, the first scan of the first sweep included: all of them
    are collected at the precalculated position. *)
Theorem collect_data_two_sweeps (ss : Session) (rid : option string)
    (failed : bool) (proposal : CollectionProposal)
    (first second : list Scan) (p q : Scan) (a b : string) :
  init_spot_dir ss = false ->
  recentring_mode ss = "sweep" ->
  multitrigger ss proposal = None ->
  scans proposal = (first ++ [p]) ++ q :: second ->
  Forall (fun s => rotation_of s = a) (first ++ [p]) ->
  Forall (fun s => rotation_of s = b) (q :: second) ->
  a <> b ->
  Forall scan_ready (scans proposal) ->
  exists done maxdev acqs1 acq acqs2,
    collect_data ss rid failed proposal = Ok done
    /\ max_deviation (orientation_of (sweep q)) (orientation_of (sweep p))
       = Ok maxdev
    /\ tasks done
       = (DataCollection <$> acqs1)
         ++ (if (0 <=? maxdev)%float && (maxdev <? angular_tolerance ss)%float
             then []
             else [SampleCentring (initial_settings (sweep q))])
         ++ DataCollection acq :: (DataCollection <$> acqs2)
    /\ (is_Some (centred_position acq)
        <-> (0 <=? maxdev)%float && (maxdev <? angular_tolerance ss)%float
            = true)
    /\ length acqs1 = S (length first)
    /\ length acqs2 = length second
    /\ Forall (fun acq => is_Some (centred_position acq)) (acqs1 ++ acqs2).
Proof.
  intros Hinit Hmode Hmt Hscans Ha Hb Hab Hready.
  rewrite Hscans in Hready. apply Forall_app in Hready as [Hready1 Hready2].
  apply Forall_cons in Hready2 as [Hq Hready2].
  apply Forall_cons in Hb as [Hqb Hb].
  unfold collect_data. rewrite Hinit, Hmt. cbn [mbind result_bind].
  rewrite Hscans, collect_scans_app.
  set (n := Z.of_nat _).
  set (st0 := {| sweeps := []; last_orientation := None; maxdev := _;
                 snapshotted_rotation_ids := _; current_rotation_id := rid;
                 queue := [] |}).
  destruct (collect_scans_one_rotation ss n a (first ++ [p]) st0 Hmode)
    as (st1 & acqs1 & Hrun1 & Hqueue1 & Hlen1 & Hall1 & Hori1 & Hnext1).
  { apply Forall_and. now split. }
  { left. reflexivity. }
  { exact I. }
  rewrite Hrun1. cbn [mbind result_bind collect_scans].
  rewrite last_snoc in Hori1.
  assert (Hfilled : first ++ [p] <> []) by now destruct first.
  destruct (Hnext1 Hfilled) as [Hseen1 Hcur1].
  destruct (collect_scan_plain ss n st1 q Hq)
    as (maxdev & acq & Hmax & Hstep & Hpos & _).
  { rewrite Hori1. apply Forall_app in Hready1 as [_ Hp].
    apply Forall_inv in Hp. destruct Hp as (? & ? & _). now split. }
  rewrite Hori1 in Hmax. rewrite Hqb in Hstep, Hpos.
  rewrite (recentre_other_rotation ss st1 a b maxdev Hmode Hseen1 Hcur1 Hab)
    in Hstep, Hpos.
  match type of Hstep with _ = Ok ?x => set (st2 := x) in * end.
  rewrite Hstep. cbn [mbind result_bind].
  destruct (collect_scans_one_rotation ss n b second st2 Hmode)
    as (st3 & acqs2 & Hrun2 & Hqueue2 & Hlen2 & Hall2 & _ & _).
  { apply Forall_and. now split. }
  { right. reflexivity. }
  { cbn. destruct Hq as (? & ? & _). now split. }
  rewrite Hrun2.
  eexists _, maxdev, acqs1, acq, acqs2.
  split; [reflexivity|]. split; [exact Hmax|].
  split; [|split; [|split; [|split]]].
  - cbn [tasks]. rewrite Hqueue2. cbn [queue st2]. rewrite Hqueue1.
    cbn [queue st0 app]. rewrite <- !app_assoc.
    destruct ((0 <=? maxdev)%float && (maxdev <? angular_tolerance ss)%float);
      reflexivity.
  - rewrite Hpos.
    destruct ((0 <=? maxdev)%float && (maxdev <? angular_tolerance ss)%float);
      cbn; split; congruence.
  - rewrite Hlen1, length_app. cbn. lia.
  - exact Hlen2.
  - apply Forall_app. now split.
Qed.

(** C3, as the code has it.  Outside the characterisation path, with
    multi-trigger mode enabled, a repeat count that is not zero and a
    sweep offset that is set and not zero: when the repeat count is not
    the number of scans [collect_data] raises [ValueError]; when it is,
    only the first scan is collected, with the image count of the scan
    times the repeat count, the image count of the scan per trigger, and
    an overlap of the images per trigger times the image width less the
    sweep offset. *)
Theorem collect_data_multitrigger (ss : Session) (rid : option string)
    (failed : bool) (proposal : CollectionProposal)
    (repeat_count : Z) (sweep_offset : float) :
  init_spot_dir ss = false ->
  use_multitrigger ss = true ->
  sweepRepeat proposal = Some repeat_count -> repeat_count <> 0%Z ->
  sweepOffset proposal = Some sweep_offset -> truthy sweep_offset = true ->
  (repeat_count <> Z.of_nat (length (scans proposal)) ->
   collect_data ss rid failed proposal = Raise ValueError)
  /\ (forall scan rest per_trigger,
        scans proposal = scan :: rest ->
        repeat_count = Z.of_nat (length (scans proposal)) ->
        is_Some (detectorSetting (sweep scan) !! "Distance") ->
        float_of_int (numImages scan) = Ok per_trigger ->
        exists done acq,
          collect_data ss rid failed proposal = Ok done
          /\ tasks done = [DataCollection acq]
          /\ num_images acq = (numImages scan * repeat_count)%Z
          /\ num_images_per_trigger acq = Some (numImages scan)
          /\ num_triggers acq = Some repeat_count
          /\ overlap acq
             = Some (per_trigger * imageWidth scan - sweep_offset)%float).
Proof.
  intros Hinit Huse Hrepeat Hnonzero Hoffset Htruthy.
  assert (Hmt : multitrigger ss proposal = Some sweep_offset).
  { unfold multitrigger. rewrite Hrepeat, Hoffset, Htruthy, Huse.
    destruct (Z.eqb_spec repeat_count 0); [contradiction|reflexivity]. }
  split.
  - intros Hcount. unfold collect_data. rewrite Hinit, Hmt, Hrepeat.
    cbn [default]. unfold id. destruct (Z.eqb_spec repeat_count
                               (Z.of_nat (length (scans proposal))));
      [contradiction|reflexivity].
  - intros scan rest per_trigger Hscans Hcount [d Hd] Hfloat.
    unfold collect_data. rewrite Hinit, Hmt, Hrepeat. cbn [default]. unfold id.
    rewrite <- Hcount, Z.eqb_refl. cbn [negb mbind result_bind].
    rewrite Hscans. cbn [take collect_scans].
    unfold collect_scan. unfold lookup_key. rewrite Hd.
    cbn [mbind result_bind last_orientation]. rewrite Hfloat.
    cbn [mbind result_bind]. eexists _, _. split; [reflexivity|].
    cbn. repeat split; reflexivity.
Qed.

End CollectData.

Section CollectExamples.
Import PyFloat Messages Collect.
#[local] Open Scope list_scope.

Lemma collect_data_two_sweeps_witness :
  exists done maxdev acqs1 acq acqs2,
    collect_data (session_example "sweep" false) (Some "a") false
      (two_sweeps 30 0x1.e19999999999ap+4 (* 30.1 *)) = Ok done
    /\ max_deviation (orientation_of (sweep_example "b" 30))
         (orientation_of (sweep_example "a" 0)) = Ok maxdev
    /\ tasks done
       = (DataCollection <$> acqs1)
         ++ (if (0 <=? maxdev)%float && (maxdev <? 1)%float then []
             else [SampleCentring (initial_settings (sweep_example "b" 30))])
         ++ DataCollection acq :: (DataCollection <$> acqs2)
    /\ (is_Some (centred_position acq)
        <-> (0 <=? maxdev)%float && (maxdev <? 1)%float = true)
    /\ length acqs1 = 2%nat
    /\ length acqs2 = 1%nat
    /\ Forall (fun acq => is_Some (centred_position acq)) (acqs1 ++ acqs2).
Proof.
  apply (collect_data_two_sweeps (session_example "sweep" false) (Some "a") false
           (two_sweeps 30 0x1.e19999999999ap+4)
           [scan_example (sweep_example "a" 0) 1 0]
           [scan_example (sweep_example "b" 0x1.e19999999999ap+4) 101 25]
           (scan_example (sweep_example "a" 0) 101 25)
           (scan_example (sweep_example "b" 30) 1 0) "a" "b");
    try reflexivity; try discriminate;
    repeat constructor; eexists; reflexivity.
Defined.

(** C5 fails as stated.  With the second sweep at kappa 30 the first
    scan of the first sweep is not recentred, only that of the second
    sweep is; with the second sweep at kappa 0.5, within the tolerance,
    no scan is recentred at all. *)
Lemma collect_data_two_sweeps_counterexample :
  (exists done,
     collect_data (session_example "sweep" false) (Some "a") false
       (two_sweeps 30 0x1.e19999999999ap+4 (* 30.1 *)) = Ok done
     /\ recentred (tasks done) = [false; false; true; false])
  /\ (exists done,
        collect_data (session_example "sweep" false) (Some "a") false
          (two_sweeps 0.5 0x1.3333333333333p-1 (* 0.6 *)) = Ok done
        /\ recentred (tasks done) = [false; false; false; false]).
Proof.
  split; eexists; (split; [vm_compute; reflexivity|]); vm_compute; reflexivity.
Qed.

Lemma collect_data_multitrigger_witness :
  collect_data (session_example "sweep" true) (Some "a") false
    (unrolled (Some 2%Z) (Some 20%float)) = Raise ValueError
  /\ exists done acq,
       collect_data (session_example "sweep" true) (Some "a") false
         (unrolled (Some 3%Z) (Some 20%float)) = Ok done
       /\ tasks done = [DataCollection acq]
       /\ num_images acq = 300%Z
       /\ num_images_per_trigger acq = Some 100%Z
       /\ num_triggers acq = Some 3%Z
       /\ overlap acq = Some 5%float.
Proof.
  split.
  - apply (collect_data_multitrigger (session_example "sweep" true) (Some "a")
             false (unrolled (Some 2%Z) (Some 20%float)) 2 20);
      try reflexivity; discriminate.
  - destruct (collect_data_multitrigger (session_example "sweep" true)
                (Some "a") false (unrolled (Some 3%Z) (Some 20%float)) 3 20)
      as [_ H]; try reflexivity; try discriminate.
    destruct (H (scan_example (sweep_example "a" 0) 1 0)
                [scan_example (sweep_example "a" 0) 101 20;
                 scan_example (sweep_example "a" 0) 201 40] 100%float)
      as (done & acq & Hrun & Htasks & Hn & Hper & Htrig & Hover);
      try reflexivity; [eexists; reflexivity|].
    exists done, acq. repeat split; assumption.
Defined.

(** C3 fails as stated.  A strategy that declares a repeat count of 2
    but no sweep offset (or a sweep offset of zero) is not a
    multi-trigger sweep for the handler: the three scans do not match
    the count, nothing is raised, and three data collections are
    queued. *)
Lemma collect_data_multitrigger_counterexample :
  (exists done,
     collect_data (session_example "sweep" true) (Some "a") false
       (unrolled (Some 2%Z) None) = Ok done
     /\ length (tasks done) = 3%nat)
  /\ (exists done,
        collect_data (session_example "sweep" true) (Some "a") false
          (unrolled (Some 2%Z) (Some 0%float)) = Ok done
        /\ length (tasks done) = 3%nat).
Proof.
  split; eexists; (split; [vm_compute; reflexivity|]); vm_compute; reflexivity.
Qed.

End CollectExamples.

(** ** The controller *)

Section ControllerFacts.
Import Messages Controller.
#[local] Open Scope list_scope.

Context {Model External Reply : Type}.

#[local] Abbreviation GphlWorkflow := (GphlWorkflow Model External Reply).
#[local] Abbreviation World := (World Model External Reply).
#[local] Abbreviation entry := (entry External).

Lemma processor_functions_string :
  processor_functions !! "String" = Some echo_info_string_.
Proof. reflexivity. Qed.

Lemma processor_functions_centring (message_type : string) :
  processor_functions !! message_type = Some process_centring_request_ ->
  message_type = "RequestCentring".
Proof.
  intros H. apply elem_of_list_to_map_2 in H.
  repeat (apply elem_of_cons in H as [H | H]; [congruence|]).
  now apply elem_of_nil in H.
Qed.

(** C9, as the code has it.  A message of kind ["String"] has a handler
    in the table, but the loop does not call it: the message is taken
    off the queue and nothing else changes, no record is logged, no
    response is appended, and the loop goes on.  The handler itself,
    [echo_info_string], does nothing but log the payload, after the
    name of the subprocess when the correlation id has a name that is
    not empty. *)
Theorem string_message_not_echoed (w : World) (self : GphlWorkflow)
    (p : payload External) (correlation_id : option string)
    (result_list : option nat) (rest : list entry) :
  _workflow_queue self
  = Some (Message "String" p correlation_id result_list :: rest) ->
  processor_functions !! "String" = Some echo_info_string_
  /\ dispatch w self = (with_queue self (Some rest), Continue)
  /\ forall payload : string,
       echo_info_string self payload correlation_id
       = with_log self
           {| logger := "root"; level := "INFO";
              text :=
                match subprocess_name self correlation_id with
                | Some (String a name) => String a name +:+ ": " +:+ payload
                | _ => payload
                end |}.
Proof.
  intros Hqueue. split; [reflexivity|]. split.
  - unfold dispatch. rewrite Hqueue, processor_functions_string. reflexivity.
  - intros payload. unfold echo_info_string.
    destruct (subprocess_name self correlation_id) as [[|a name]|]; reflexivity.
Qed.

Lemma process_centring_request_keeps_zoom (w : World) (self : GphlWorkflow)
    (request_centring : RequestCentring) :
  _use_fine_zoom self = true ->
  (currentSettingNo request_centring <? 2)%Z = false ->
  let after := (process_centring_request w self request_centring).1 in
  _use_fine_zoom after = true /\ _workflow_queue after = _workflow_queue self.
Proof.
  intros Hzoom Hno. unfold process_centring_request. rewrite Hno.
  destruct self as [state zoom names group q m l moves rs]. cbn in Hzoom.
  subst zoom. destruct group; cbn; now split.
Qed.

Lemma invoke_keeps_zoom (w : World) (func : handler) (self : GphlWorkflow)
    (p : payload External) (correlation_id : option string) :
  _use_fine_zoom self = true ->
  (forall request_centring,
     func = process_centring_request_ -> p = Centring request_centring ->
     (currentSettingNo request_centring <? 2)%Z = false) ->
  let after := (invoke w func self p correlation_id).1 in
  _use_fine_zoom after = true
  /\ (_workflow_queue after = _workflow_queue self
      \/ _workflow_queue after = (fun q => q ++ [Stop]) <$> _workflow_queue self).
Proof.
  intros Hzoom Hno.
  assert (Hfunc : func = process_centring_request_
                  \/ func <> process_centring_request_)
    by (destruct func; (now left) || (right; discriminate)).
  destruct Hfunc as [-> | Hother].
  - destruct p as [| | |request_centring|]; cbn -[process_centring_request];
      try (split; [exact Hzoom | now left]).
    destruct (process_centring_request_keeps_zoom w self request_centring Hzoom)
      as [Hz Hq]; [now apply Hno|].
    split; [exact Hz | left; exact Hq].
  - clear Hno.
    destruct self as [state zoom names group q m l moves rs]. cbn in Hzoom.
    subst zoom.
    destruct func; try contradiction; cbn.
    + destruct p; cbn; auto. unfold echo_info_string.
      destruct (subprocess_name _ _) as [[|? ?]|]; cbn; auto.
    + destruct p; cbn; auto.
      destruct correlation_id as [[|? ?]|]; cbn; auto.
    + unfold echo_subprocess_stopped.
      destruct (subprocess_name _ _), correlation_id; cbn; auto.
    + auto.
    + destruct (data_handler w _ _ _ _) as [[? ?] ?]; cbn; auto.
    + destruct (data_handler w _ _ _ _) as [[? ?] ?]; cbn; auto.
    + destruct (data_handler w _ _ _ _) as [[? ?] ?]; cbn; auto.
    + auto.
    + destruct (data_handler w _ _ _ _) as [[? ?] ?]; cbn; auto.
    + auto.
    + auto.
    + auto.
Qed.

Lemma dispatch_keeps_zoom (w : World) (self : GphlWorkflow) :
  _use_fine_zoom self = true -> calm self ->
  _use_fine_zoom (dispatch w self).1 = true /\ calm (dispatch w self).1.
Proof.
  intros Hzoom Hcalm. unfold dispatch.
  destruct (_workflow_queue self) as [[|e rest]|] eqn:Hqueue;
    [now split | | now split].
  specialize (Hcalm _ Hqueue). apply Forall_cons in Hcalm as [He Hrest].
  set (popped := with_queue self (Some rest)).
  assert (Hpopped : _use_fine_zoom popped = true) by exact Hzoom.
  assert (Hcalm_popped : forall after : GphlWorkflow,
    _workflow_queue after = _workflow_queue popped
    \/ _workflow_queue after = (fun q => q ++ [Stop]) <$> _workflow_queue popped ->
    calm after).
  { intros after [Hq | Hq] q; rewrite Hq; cbn; intros [= <-];
      [exact Hrest|].
    apply Forall_app. split; [exact Hrest | now repeat constructor]. }
  destruct e as [|message_type p correlation_id result_list].
  { cbn. split; [exact Hzoom | apply Hcalm_popped; now left]. }
  destruct (processor_functions !! message_type) as [func|] eqn:Hfunc.
  2:{ cbn. split; [exact Hzoom | apply Hcalm_popped; now left]. }
  destruct (negb (String.eqb message_type "String")).
  2:{ cbn. split; [exact Hzoom | apply Hcalm_popped; now left]. }
  set (logged := with_log popped _).
  destruct (invoke_keeps_zoom w func logged p correlation_id)
    as [Hz Hq]; [exact Hzoom | |].
  { intros request_centring -> ->.
    apply processor_functions_centring in Hfunc as ->.
    cbn in He. exact He. }
  destruct (invoke w func logged p correlation_id) as [after [response|e]].
  - destruct result_list; cbn; (split; [exact Hz | apply Hcalm_popped, Hq]).
  - cbn. split; [exact Hz | apply Hcalm_popped, Hq].
Qed.

(** C8, as the code has it.  Once the fine zoom flag is set, it stays
    set through every turn of the dispatch loop, whatever the messages,
    as long as no [RequestCentring] message with a setting number below
    2 is on the queue: such a message, and nothing else, sets it back. *)
Theorem fine_zoom_stays_on (w : World) (turns : nat) (self : GphlWorkflow) :
  _use_fine_zoom self = true ->
  (forall q, _workflow_queue self = Some q ->
             Forall (fun e => restarts_centring e = false) q) ->
  _use_fine_zoom (execute w turns self).1 = true.
Proof.
  revert self. induction turns as [|turns IH]; intros self Hzoom Hcalm.
  - exact Hzoom.
  - cbn [execute].
    destruct (dispatch_keeps_zoom w self Hzoom Hcalm) as [Hz Hc].
    destruct (dispatch w self) as [after []]; try exact Hz.
    apply IH; [exact Hz | exact Hc].
Qed.

End ControllerFacts.

Section ControllerExamples.
Import Messages Controller.
#[local] Open Scope list_scope.

Lemma fine_zoom_stays_on_witness :
  _use_fine_zoom
    (execute world_example 4
       (workflow_example true
          [Message "RequestCentring" (Centring (request_example 2)) None (Some 0%nat);
           Message "String" (Text "centred") (Some "42") None;
           Message "RequestCentring" (Centring (request_example 3)) None (Some 1%nat);
           Message "WorkflowCompleted" NoPayload None None])).1
  = true.
Proof.
  apply fine_zoom_stays_on; [reflexivity|].
  intros q [= <-]. repeat constructor.
Defined.

(** C8 fails as stated.  The second centring request sets the flag; a
    later request numbered 1, the start of another sequence in the same
    session, sets it back. *)
Lemma fine_zoom_counterexample :
  let session :=
    workflow_example false
      [Message "RequestCentring" (Centring (request_example 2)) None None;
       Message "RequestCentring" (Centring (request_example 1)) None None] in
  _use_fine_zoom (execute world_example 1 session).1 = true
  /\ _use_fine_zoom (execute world_example 2 session).1 = false.
Proof. split; vm_compute; reflexivity. Qed.

Lemma string_message_not_echoed_witness :
  let self :=
    workflow_example false [Message "String" (Text "centred") (Some "42") (Some 0%nat)] in
  dispatch world_example self = (workflow_example false [], Continue)
  /\ log (echo_info_string self "centred" (Some "42"))
     = [{| logger := "root"; level := "INFO"; text := "recen: centred" |}].
Proof.
  intros self.
  destruct (string_message_not_echoed world_example self (Text "centred")
              (Some "42") (Some 0%nat) [] eq_refl) as (_ & Hdispatch & Hecho).
  split; [exact Hdispatch|]. rewrite Hecho. reflexivity.
Defined.

(** C9 fails as stated.  After the loop has taken a ["String"] message
    off the queue nothing is logged, where a call of the handler would
    have logged the payload. *)
Lemma string_message_counterexample :
  let self :=
    workflow_example false [Message "String" (Text "centred") (Some "42") (Some 0%nat)] in
  log (dispatch world_example self).1 = []
  /\ results (dispatch world_example self).1 = []
  /\ log (invoke world_example echo_info_string_ self (Text "centred") (Some "42")).1
     = [{| logger := "root"; level := "INFO"; text := "recen: centred" |}].
Proof. repeat split; vm_compute; reflexivity. Qed.

End ControllerExamples.

(** * Further properties *)

(** ** The order of first encounter *)

Section FirstEncountered.
#[local] Open Scope list_scope.

Lemma first_encountered_snoc (ids : list string) (x : string) :
  first_encountered (ids ++ [x])
  = if bool_decide (x ∈ ids) then first_encountered ids
    else first_encountered ids ++ [x].
Proof.
  induction ids as [|y ids IH].
  - cbn. now rewrite bool_decide_eq_false_2 by apply not_elem_of_nil.
  - cbn [app first_encountered]. rewrite IH.
    destruct (decide (x = y)) as [->|Hne].
    + rewrite (bool_decide_eq_true_2 (y ∈ y :: ids))
        by apply list_elem_of_here.
      destruct (bool_decide (y ∈ ids)); [reflexivity|].
      rewrite filter_app, filter_cons_False by tauto.
      now rewrite filter_nil, app_nil_r.
    + rewrite (bool_decide_ext (x ∈ y :: ids) (x ∈ ids))
        by (rewrite elem_of_cons; tauto).
      destruct (bool_decide (x ∈ ids)); [reflexivity|].
      rewrite filter_app, filter_cons_True by congruence.
      reflexivity.
Qed.

End FirstEncountered.

(** ** The update functions of the parameter popup *)

Section PopupFacts.
Import Dose PyFloat Popup.
#[local] Open Scope float_scope.

Lemma get_truthy (m : gmap string float) (key : string) :
  truthy (get m key 0) = true -> m !! key = Some (get m key 0).
Proof.
  unfold get. destruct (m !! key) as [v|]; [reflexivity|].
  cbn. unfold truthy. now vm_compute.
Qed.

(** X1.  [update_transmission] never raises, whatever the popup holds,
    and the popup it leaves differs from the one it found at most in the
    dose. *)
Theorem update_transmission_only_dose (values_map : gmap string float) :
  exists out,
    update_transmission values_map = Ok out
    /\ forall key, key <> "use_dose" -> out !! key = values_map !! key.
Proof.
  unfold update_transmission.
  destruct (truthy (get values_map "image_width" 0)) eqn:Hw; cbn [andb];
    [|eexists; split; [reflexivity|done]].
  destruct (truthy (get values_map "exposure" 0)) eqn:He; cbn [andb];
    [|eexists; split; [reflexivity|done]].
  destruct (truthy (get values_map "std_dose_rate" 0)
            && truthy (get values_map "transmission" 0));
    [|eexists; split; [reflexivity|done]].
  rewrite truediv_ok
    by (unfold truthy in Hw; now destruct (get values_map "image_width" 0 =? 0)).
  cbn. eexists; split; [reflexivity|]. intros key Hkey.
  unfold set_values; cbn.
  destruct (decide (key = "exposure")) as [->|Hne].
  - rewrite lookup_insert_eq. symmetry. now apply get_truthy.
  - rewrite lookup_insert_ne by done. now rewrite lookup_insert_ne.
Qed.

Lemma repetition_count_of_raises (m : gmap string float) (e : exn) :
  repetition_count_of m = Raise e -> e = ValueError \/ e = OverflowError.
Proof.
  unfold repetition_count_of, int_of_float.
  destruct (m !! "repetition_count") as [v|]; [|discriminate].
  destruct (truthy v); [|discriminate].
  destruct (Prim2SF v) as [s|s| |s mm ee]; intros H; inversion H; auto.
Qed.

(** X2.  [update_exptime] raises [ZeroDivisionError] exactly when the
    image width and the exposure time are not zero and their quotient,
    the rotation rate, is: a strategy length, a dose rate or a
    transmission of zero never makes it raise that. *)
Theorem update_exptime_zero_rate (values_map : gmap string float) :
  let exposure_time := get values_map "exposure" 0 in
  let image_width := get values_map "image_width" 0 in
  update_exptime values_map = Raise ZeroDivisionError
  <-> is_ok (repetition_count_of values_map) = true
      /\ truthy image_width = true /\ truthy exposure_time = true
      /\ (image_width / exposure_time =? 0) = true.
Proof.
  cbn zeta. unfold update_exptime.
  destruct (repetition_count_of values_map) as [n|e] eqn:Hn; cbn.
  2: { split; [|intros [? _]; discriminate].
       intros H. apply repetition_count_of_raises in Hn.
       destruct Hn; congruence. }
  destruct (truthy (get values_map "image_width" 0)) eqn:Hw; cbn [andb].
  2: { split; [discriminate|]. intros (_ & ? & _); discriminate. }
  destruct (truthy (get values_map "exposure" 0)) eqn:He; cbn [andb].
  2: { split; [discriminate|]. intros (_ & _ & ? & _); discriminate. }
  rewrite truediv_ok
    by (unfold truthy in He; now destruct (get values_map "exposure" 0 =? 0)).
  cbn. unfold truediv at 1.
  destruct (get values_map "image_width" 0 / get values_map "exposure" 0 =? 0)
    eqn:Hrate; cbn.
  - tauto.
  - split; [|intros (_ & _ & _ & ?); discriminate].
    destruct (float_of_int n) as [c|e] eqn:Hc; cbn; [discriminate|].
    unfold float_of_int in Hc.
    destruct (is_infinity _) in Hc; congruence.
Qed.

End PopupFacts.

Section PopupResolution.
Import Dose PyFloat Popup.
#[local] Open Scope float_scope.

Variable libm_log : float -> float.


End PopupResolution.

Section PopupWitnesses.
Import Dose PyFloat Popup.
#[local] Open Scope float_scope.

(** An image width of 2^-700 degrees exposed for 2^700 seconds: the
    rotation rate is below the smallest float. *)
Lemma update_exptime_zero_rate_witness :
  update_exptime (exposure_example 0x1p-700 0x1p+700) = Raise ZeroDivisionError.
Proof.
  apply (update_exptime_zero_rate (exposure_example 0x1p-700 0x1p+700)).
  vm_compute. auto.
Defined.


End PopupWitnesses.

(** ** The recentring modes offered to the user *)

Section RecentringFacts.
Import Recentring.
#[local] Open Scope list_scope.

Lemma configured_cases (configured : option string) :
  let d := default "sweep" configured in
  d = "sweep" \/ d = "start" \/ d = "none"
  \/ (String.eqb d "scan" || negb (bool_decide (d ∈ map snd RECENTRING_MODES)))
     = true.
Proof.
  cbn zeta. set (d := default "sweep" configured). clearbody d.
  destruct (decide (d = "sweep")) as [->|H1]; [auto|].
  destruct (decide (d = "start")) as [->|H2]; [auto|].
  destruct (decide (d = "none")) as [->|H3]; [auto|].
  do 3 right. destruct (String.eqb d "scan") eqn:Hs; [reflexivity|].
  cbn [orb]. apply negb_true_iff, bool_decide_eq_false.
  apply String.eqb_neq in Hs. cbn. rewrite !elem_of_cons, elem_of_nil.
  intuition congruence.
Qed.

(** X4.  The pulldown holds the usable modes in the order of
    [RECENTRING_MODES], whatever the default is: the default is not
    moved to the top. The default mode is the configured one when that
    is usable and ["sweep"] otherwise, and the default label is the
    label of the default mode. *)
Theorem recentring_choices_menu (configured : option string)
    (orientations : nat) (is_interleaved transcal characterisation_done : bool)
    (strategy_type : option string)
    (labels modes : list string) (mode label : string) :
  recentring_choices configured orientations is_interleaved transcal
    characterisation_done strategy_type
  = Ok (labels, modes, mode, label) ->
  let use := usable orientations is_interleaved transcal characterisation_done
               strategy_type in
  let offered := List.filter (fun entry => use entry.2) RECENTRING_MODES in
  labels = map fst offered /\ modes = map snd offered
  /\ mode = (if use (default "sweep" configured)
             then default "sweep" configured else "sweep")
  /\ In (label, mode) offered.
Proof.
  unfold recentring_choices, usable.
  destruct (configured_cases configured) as [Hd|[Hd|[Hd|Hd]]];
    cbn zeta in Hd; rewrite Hd; [| | |discriminate];
    set (many := (1 <? orientations)%nat); clearbody many;
    set (calibration := bool_decide (strategy_type = Some "diffractcal"));
    clearbody calibration;
    destruct many, is_interleaved, transcal, characterisation_done,
      calibration;
    vm_compute; intros H; inversion H; subst; clear H;
    repeat split; tauto.
Qed.

(** X5.  No pulldown is made, and [ValueError] is raised, exactly when
    the configured default mode is ["scan"] or is none of the modes of
    [RECENTRING_MODES]; nothing else is ever raised, whatever the
    strategy. *)
Theorem recentring_choices_raises (configured : option string)
    (orientations : nat) (is_interleaved transcal characterisation_done : bool)
    (strategy_type : option string) (e : exn) :
  recentring_choices configured orientations is_interleaved transcal
    characterisation_done strategy_type
  = Raise e
  <-> e = ValueError
      /\ (configured = Some "scan"
          \/ exists mode, configured = Some mode
                          /\ ~ In mode ["sweep"; "scan"; "start"; "none"]).
Proof.
  unfold recentring_choices.
  destruct (configured_cases configured) as [Hd|[Hd|[Hd|Hd]]];
    cbn zeta in Hd; rewrite Hd.
  4: { split; [intros H; inversion H; subst; split; [reflexivity|]
              |intros [-> _]; reflexivity].
       destruct configured as [mode|]; [|discriminate Hd]. cbn in Hd.
       apply orb_true_iff in Hd as [Hd|Hd].
       - left. apply String.eqb_eq in Hd. now subst.
       - right. exists mode. split; [reflexivity|].
         apply negb_true_iff, bool_decide_eq_false in Hd.
         intros Hin. apply Hd. now apply list_elem_of_In. }
  all: set (many := (1 <? orientations)%nat); clearbody many;
    set (calibration := bool_decide (strategy_type = Some "diffractcal"));
    clearbody calibration.
  all: split;
    [destruct many, is_interleaved, transcal, characterisation_done,
       calibration; vm_compute; discriminate|].
  all: intros [_ [Hc|(mode & Hc & Hn)]]; subst configured; cbn in Hd;
    [discriminate|]; subst mode; exfalso; apply Hn; cbn; tauto.
Qed.

(** X6.  The answer of the user is turned back into the mode it stands
    for: a label of the pulldown gives the mode at the same place, the
    default label gives the default mode, and so does no answer. *)
Theorem chosen_mode_of_label (configured : option string)
    (orientations : nat) (is_interleaved transcal characterisation_done : bool)
    (strategy_type : option string)
    (labels modes : list string) (mode label : string) :
  recentring_choices configured orientations is_interleaved transcal
    characterisation_done strategy_type
  = Ok (labels, modes, mode, label) ->
  map (fun answer => chosen_mode (Some answer) mode) labels = modes
  /\ chosen_mode (Some label) mode = mode
  /\ chosen_mode None mode = mode.
Proof.
  unfold recentring_choices.
  destruct (configured_cases configured) as [Hd|[Hd|[Hd|Hd]]];
    cbn zeta in Hd; rewrite Hd; [| | |discriminate];
    set (many := (1 <? orientations)%nat); clearbody many;
    set (calibration := bool_decide (strategy_type = Some "diffractcal"));
    clearbody calibration;
    destruct many, is_interleaved, transcal, characterisation_done,
      calibration;
    vm_compute; intros H; inversion H; subst; clear H;
    repeat split.
Qed.

End RecentringFacts.

Section RecentringWitnesses.
Import Recentring.

(** A characterised crystal, a strategy of three orientations, a
    translation calibration, and ["none"] as the configured default. *)
Lemma recentring_choices_menu_witness :
  recentring_choices (Some "none") 3 false true true None
  = Ok (["Re-centre when orientation changes";
         "Re-centre all before acquisition start";
         "No manual re-centring, rely on calculated values"],
        ["sweep"; "start"; "none"], "none",
        "No manual re-centring, rely on calculated values")
  /\ In ("No manual re-centring, rely on calculated values", "none")
       (List.filter (fun entry => usable 3 false true true None entry.2)
          RECENTRING_MODES).
Proof.
  split; [reflexivity|].
  apply (recentring_choices_menu (Some "none") 3 false true true None
           ["Re-centre when orientation changes";
            "Re-centre all before acquisition start";
            "No manual re-centring, rely on calculated values"]
           ["sweep"; "start"; "none"] "none"
           "No manual re-centring, rely on calculated values").
  reflexivity.
Defined.

Lemma chosen_mode_of_label_witness :
  chosen_mode (Some "Re-centre when orientation changes") "sweep" = "sweep".
Proof.
  apply (chosen_mode_of_label (Some "start") 1 false false false None
           ["Re-centre when orientation changes"] ["sweep"] "sweep"
           "Re-centre when orientation changes").
  reflexivity.
Defined.

End RecentringWitnesses.

(** ** The strategy as it is shown to the user *)

Section OrderedDicts.
Import Lattice.
#[local] Open Scope list_scope.

Context {V : Type}.




End OrderedDicts.

Section StrategyFacts.
Import Messages Setup Strategy.
#[local] Open Scope list_scope.

Variable width : Sweep -> float.



End StrategyFacts.

(** ** The image widths offered to the user *)

Section WidthFacts.
Import Widths.
#[local] Open Scope list_scope.

Lemma insert_sorted_Permutation (x : float) (l : list float) :
  insert_sorted x l ≡ₚ x :: l.
Proof.
  induction l as [|y l IH]; [reflexivity|]. cbn [insert_sorted].
  destruct (x <? y)%float; [reflexivity|].
  rewrite IH. apply Permutation_swap.
Qed.

Lemma sort_Permutation (l : list float) : sort l ≡ₚ l.
Proof.
  unfold sort. rewrite <- (app_nil_l l) at 2. generalize (@nil float).
  induction l as [|x l IH]; intros acc; cbn [foldl].
  - now rewrite app_nil_r.
  - rewrite IH, insert_sorted_Permutation. apply Permutation_middle.
Qed.

Lemma index_found (x : float) (l : list float) :
  (exists y, y ∈ l /\ (y =? x)%float = true) ->
  exists i y, index x l = Ok i /\ l !! i = Some y /\ (y =? x)%float = true.
Proof.
  induction l as [|z l IH]; intros (y & Hy & Heq).
  - now apply elem_of_nil in Hy.
  - cbn [index]. destruct (z =? x)%float eqn:Hz.
    + exists 0%nat, z. repeat split. exact Hz.
    + destruct IH as (i & y' & Hi & Hy' & Heq').
      * apply elem_of_cons in Hy as [->|Hy]; [congruence|eauto].
      * exists (S i), y'. rewrite Hi. repeat split; assumption.
Qed.

(** X8.  When the strategy allows no image widths, the configured widths
    are offered, sorted, and the width shown first is still the first of
    the configured ones, wherever sorting has put it: it is equal to it
    as a float. The configured widths are taken to be numbers. *)
Theorem image_widths_default (defaultWidthIdx : option nat)
    (val : float) (others : list float) :
  Forall (fun x => (x =? x)%float = true) (val :: others) ->
  exists default_image_width,
    image_widths None defaultWidthIdx (Some (val :: others))
    = Ok (sort (val :: others), default_image_width)
    /\ (default_image_width =? val)%float = true
    /\ sort (val :: others) ≡ₚ val :: others.
Proof.
  intros Hnumbers. apply Forall_cons in Hnumbers as [Hval _].
  unfold image_widths. cbn [subscript lookup list_lookup mbind result_bind].
  destruct (index_found val (sort (val :: others)))
    as (i & y & Hi & Hy & Heq).
  { exists val. split; [|exact Hval].
    rewrite sort_Permutation. apply list_elem_of_here. }
  rewrite Hi. cbn [mbind result_bind]. unfold subscript. rewrite Hy.
  exists y. repeat split; [exact Heq|apply sort_Permutation].
Qed.

Lemma image_widths_default_witness :
  exists default_image_width,
    image_widths None None (Some [0.5; 0.125; 1; 0.25]%float)
    = Ok ([0.125; 0.25; 0.5; 1]%float, default_image_width)
    /\ (default_image_width =? 0.5)%float = true
    /\ [0.125; 0.25; 0.5; 1]%float ≡ₚ [0.5; 0.125; 1; 0.25]%float.
Proof.
  apply (image_widths_default None 0.5 [0.125; 1; 0.25]%float).
  repeat constructor.
Defined.

End WidthFacts.

(** ** The transmission a collection starts with *)

Section FloatOrderAsym.
#[local] Open Scope float_scope.

Lemma ltb_asym (x y : float) : (x <? y) = true -> (y <? x) = false.
Proof.
  rewrite !FloatAxioms.ltb_spec. unfold SFltb, SFcompare.
  destruct (Prim2SF x) as [s|s| |s m e], (Prim2SF y) as [s'|s'| |s' m' e'];
    try discriminate; try reflexivity;
    try (destruct s; try discriminate; reflexivity);
    try (destruct s'; try discriminate; reflexivity);
    try (destruct s, s'; try discriminate; reflexivity).
  change (PosDef.Pos.compare_cont Eq m m') with (Pos.compare m m').
  change (PosDef.Pos.compare_cont Eq m' m) with (Pos.compare m' m).
  rewrite (Z.compare_antisym e e'), (Pos.compare_antisym m m').
  destruct s, s', (e ?= e')%Z, (m ?= m')%positive; cbn;
    try discriminate; reflexivity.
Qed.

Lemma max2_not_below (a b : float) :
  (PyFloat.max2 a b <? a) = false /\ (PyFloat.max2 a b <? b) = false.
Proof.
  unfold PyFloat.max2. destruct (a <? b) eqn:Hab.
  - split; [now apply ltb_asym|apply ltb_irrefl].
  - split; [apply ltb_irrefl|exact Hab].
Qed.

End FloatOrderAsym.

Section TransmissionFacts.
Import PyFloat Transmission.
#[local] Open Scope float_scope.

(** X9.  When [setup_data_collection] computes the transmission
    (automation gives none), the transmission it stores in the model is
    never above 100 per cent. The exposure time is left as it is, or,
    outside characterisation, replaced: and where the detector has a
    maximum exposure time that is not zero, the new exposure time is not
    below that maximum, which the code takes the larger of the two with. *)
Theorem initial_transmission_capped (model : WorkflowModel)
    (strategy_type : string) (exposure_limits : option float * option float)
    (after : WorkflowModel) :
  initial_transmission model strategy_type exposure_limits = Ok after ->
  after = model
  \/ (exists t, transmission after = Some t /\ gt t 100 = false)
     /\ (exposure_time after = exposure_time model
         \/ (characterisation_done model || String.eqb strategy_type "diffractcal")
            = true
            /\ forall max_exposure,
                 exposure_limits.2 = Some max_exposure ->
                 truthy max_exposure = true ->
                 (exposure_time after <? max_exposure) = false).
Proof.
  unfold initial_transmission. intros H.
  apply bind_Ok in H as ([given use_dose] & _ & H).
  destruct given as [t|]; [left; now injection H as <-|]. right.
  set (use := match use_dose with Some d => d | None => _ end) in H.
  clearbody use.
  destruct (gt (calculate_transmission model use) 100) eqn:Habove;
    injection H as <-.
  - split; [exists 100; split; [reflexivity|apply ltb_irrefl]|].
    destruct (characterisation_done model || String.eqb strategy_type "diffractcal");
      [|now left].
    right. split; [reflexivity|]. intros max_exposure Hmax Htruthy.
    cbn. rewrite Hmax. cbn. rewrite Htruthy. apply max2_not_below.
  - split; [|now left]. eexists. split; [reflexivity|exact Habove].
Qed.

End TransmissionFacts.

Section TransmissionWitness.
Import PyFloat Transmission.
#[local] Open Scope float_scope.

(** 8 MGy take a transmission of 200 per cent: the exposure time of
    0.04 s is doubled, and then raised to the maximum of 0.5 s. *)
Lemma initial_transmission_capped_witness :
  exists after,
    initial_transmission model_example "acquisition" (Some 0.015625, Some 0.5)
    = Ok after
    /\ transmission after = Some 100 /\ exposure_time after = 0.5
    /\ (after = model_example
        \/ (exists t, transmission after = Some t /\ gt t 100 = false)
           /\ (exposure_time after = exposure_time model_example
               \/ (characterisation_done model_example
                   || String.eqb "acquisition" "diffractcal") = true
                  /\ forall max_exposure,
                       (Some 0.015625, Some 0.5).2 = Some max_exposure ->
                       truthy max_exposure = true ->
                       (exposure_time after <? max_exposure) = false)).
Proof.
  eexists. split; [reflexivity|]. split; [reflexivity|]. split; [reflexivity|].
  apply (initial_transmission_capped model_example "acquisition"
           (Some 0.015625, Some 0.5)).
  reflexivity.
Defined.

End TransmissionWitness.

(** ** Centring of the orientations of a plan: the instrument *)

Section SetupCentrings.
Import Messages Setup.
#[local] Open Scope list_scope.

Lemma centrings_app (a b : list event) :
  centrings (a ++ b) = (centrings a + centrings b)%nat.
Proof. unfold centrings. now rewrite List.filter_app, length_app. Qed.

Lemma snapshot_series_app (a b : list event) :
  snapshot_series (a ++ b) = (snapshot_series a + snapshot_series b)%nat.
Proof. unfold snapshot_series. now rewrite List.filter_app, length_app. Qed.

Lemma collect_centring_snapshots_series (bl : Beamline)
    (settings : gmap string float) (snap : event) :
  collect_centring_snapshots bl settings = Ok snap -> is_centring snap = false.
Proof.
  unfold collect_centring_snapshots. intros H. invert_result. now subst.
Qed.

Lemma remaining_sweep_setting_events (bl : Beamline) (recentring_mode : string)
    (recen_parameters : option RecenParameters) (pos_dict : gmap string float)
    (st st' : state) (sweepSetting : GoniostatSweepSetting) :
  remaining_sweep_setting bl recentring_mode recen_parameters pos_dict st
    sweepSetting = Ok st' ->
  if String.eqb recentring_mode "start" then
    exists qe snap, st'.2 = st.2 ++ [Centring qe; snap]
                    /\ is_centring snap = false
  else st'.2 = st.2.
Proof.
  unfold remaining_sweep_setting. destruct st as [[ts rid] ev]. intros H.
  destruct (String.eqb recentring_mode "start");
    invert_result; subst; cbn; try reflexivity.
  all: match goal with
       | H : collect_centring_snapshots _ _ = Ok _ |- _ =>
           apply collect_centring_snapshots_series in H
       end; eauto.
Qed.

Lemma remaining_sweep_settings_events (bl : Beamline) (recentring_mode : string)
    (recen_parameters : option RecenParameters) (pos_dict : gmap string float)
    (sweepSettings : list GoniostatSweepSetting) (st st' : state) :
  remaining_sweep_settings bl recentring_mode recen_parameters pos_dict st
    sweepSettings = Ok st' ->
  if String.eqb recentring_mode "start" then
    centrings st'.2 = (centrings st.2 + length sweepSettings)%nat
    /\ snapshot_series st'.2 = (snapshot_series st.2 + length sweepSettings)%nat
  else st'.2 = st.2.
Proof.
  revert st. induction sweepSettings as [|s rest IH]; intros st H.
  - cbn in H. injection H as <-. cbn.
    destruct (String.eqb recentring_mode "start"); [lia|reflexivity].
  - cbn [remaining_sweep_settings] in H. apply bind_Ok in H as (st1 & H1 & H).
    apply remaining_sweep_setting_events in H1. apply IH in H.
    destruct (String.eqb recentring_mode "start").
    + destruct H1 as (qe & snap & Hev & Hsnap). destruct H as [Hc Hs].
      rewrite Hc, Hs, Hev, centrings_app, snapshot_series_app.
      unfold centrings, snapshot_series. cbn. rewrite Hsnap. cbn. lia.
    + congruence.
Qed.

Lemma first_when_centred_events (bl : Beamline) (recentring_mode : string)
    (recen_parameters : option RecenParameters)
    (sweepSetting : GoniostatSweepSetting) (pos : gmap string float)
    (okp : list float) (st st' : state) :
  first_when_centred bl recentring_mode recen_parameters sweepSetting pos okp st
  = Ok st' ->
  st'.2 = st.2
  \/ String.eqb recentring_mode "none" = false
     /\ exists qe,
          if String.eqb recentring_mode "start" then
            exists snap, st'.2 = st.2 ++ [Centring qe; snap]
                         /\ is_centring snap = false
          else st'.2 = st.2 ++ [Centring qe].
Proof.
  unfold first_when_centred. destruct st as [[ts rid] ev]. intros H.
  invert_result; subst; cbn; auto.
  all: right; split; [reflexivity|]; eexists.
  1, 2: eexists; rewrite <- app_assoc; split; [reflexivity|];
    eapply collect_centring_snapshots_series; eassumption.
  all: reflexivity.
Qed.

(** X10.  In a recentring mode other than ["start"],
    [setup_data_collection] has the user centre the sample at most once,
    at the first orientation, and takes no snapshots. In the mode
    ["none"] there is no centring at all, unless the sample is to be
    centred before the start and the crystal is not characterised yet. *)
Theorem setup_data_collection_centres_once (bl : Beamline)
    (characterisation_done : bool) (strategy_type recentring_mode : string)
    (transcal : option (list float * list float))
    (current_rotation_id : option string) (sweeps : list Sweep)
    (out : Outcome) :
  setup_data_collection bl characterisation_done strategy_type recentring_mode
    transcal current_rotation_id sweeps = Ok out ->
  recentring_mode <> "start" ->
  (events out = [] \/ exists qe, events out = [Centring qe])
  /\ (recentring_mode = "none" ->
      recentre_before_start bl && negb characterisation_done = false ->
      events out = []).
Proof.
  intros H Hmode. apply String.eqb_neq in Hmode.
  unfold setup_data_collection in H. rewrite Hmode in H.
  apply bind_Ok in H as (sweepSetting & _ & H).
  apply bind_Ok in H as ([st pos] & Hfirst & H).
  apply bind_Ok in H as (okp & _ & H).
  apply bind_Ok in H as (xyz & _ & H).
  apply bind_Ok in H as (st1 & Hst1 & H).
  destruct (st1.1.1) as [|t ts] eqn:Hts; [discriminate|].
  apply bind_Ok in H as ([[ts' rid'] ev'] & Hrest & H).
  injection H as <-. cbn [events].
  apply remaining_sweep_settings_events in Hrest. rewrite Hmode in Hrest.
  cbn [snd] in Hrest. subst ev'.
  destruct (recentre_before_start bl && negb characterisation_done) eqn:Hbefore.
  - (* the sample is centred before the start *)
    apply bind_Ok in Hfirst as (qe & _ & Hfirst).
    apply bind_Ok in Hfirst as ([translation positions] & _ & Hfirst).
    injection Hfirst as <- <-. cbn in Hst1. injection Hst1 as <-.
    split; [right; eauto|]. intros _ Hno. discriminate Hno.
  - injection Hfirst as <- <-. cbn [fst snd] in Hst1.
    destruct (characterisation_done || String.eqb strategy_type "diffractcal").
    + apply first_when_centred_events in Hst1 as [Hev|[Hnone (qe & Hev)]].
      * split; [left; exact Hev|]. intros _ _. exact Hev.
      * rewrite Hmode in Hev. split; [right; exists qe; exact Hev|].
        intros -> _. discriminate Hnone.
    + destruct (negb (recentre_before_start bl)).
      * unfold first_when_precentred in Hst1. invert_result. subst.
        split; [now left|reflexivity].
      * injection Hst1 as <-. discriminate Hts.
Qed.

(** X11.  In the recentring mode ["start"] every orientation of the plan
    is centred before the acquisition starts, each centring followed by
    a series of snapshots; only for the first orientation met (the last
    of the plan) the centring or its snapshots may be left out: with [n]
    orientations there are [n - 1] or [n] centrings, and [n - 1] or [n]
    series of snapshots, never more series than centrings. *)
Theorem setup_data_collection_centres_all (bl : Beamline)
    (characterisation_done : bool) (strategy_type : string)
    (transcal : option (list float * list float))
    (current_rotation_id : option string) (sweeps : list Sweep)
    (out : Outcome) :
  setup_data_collection bl characterisation_done strategy_type "start"
    transcal current_rotation_id sweeps = Ok out ->
  let n := length (first_encountered (sweep_id <$> sweeps)) in
  (n - 1 <= snapshot_series (events out) <= centrings (events out))%nat
  /\ (centrings (events out) <= n)%nat.
Proof.
  intros H. cbn zeta. unfold setup_data_collection in H.
  cbn [String.eqb Ascii.eqb Bool.eqb andb] in H.
  rewrite <- ordered_sweep_settings_first_encountered, length_fmap.
  rewrite <- (length_reverse (ordered_sweep_settings sweeps ∅ [])).
  set (sweepSettings := reverse (ordered_sweep_settings sweeps ∅ [])) in *.
  apply bind_Ok in H as (sweepSetting & Hhead & H).
  apply bind_Ok in H as ([st pos] & Hfirst & H).
  apply bind_Ok in H as (okp & _ & H).
  apply bind_Ok in H as (xyz & _ & H).
  apply bind_Ok in H as (st1 & Hst1 & H).
  destruct (st1.1.1) as [|t ts] eqn:Hts; [discriminate|].
  apply bind_Ok in H as ([[ts' rid'] ev'] & Hrest & H).
  injection H as <-. cbn [events].
  apply remaining_sweep_settings_events in Hrest.
  cbn [String.eqb Ascii.eqb Bool.eqb andb snd] in Hrest.
  destruct Hrest as [Hc Hs]. rewrite Hc, Hs.
  assert (Hlen : length sweepSettings = S (length (tail sweepSettings))).
  { destruct sweepSettings; [discriminate Hhead|reflexivity]. }
  rewrite Hlen.
  assert (Hfirst_events :
    (snapshot_series st1.2 <= centrings st1.2 <= 1)%nat).
  { destruct (recentre_before_start bl && negb characterisation_done).
    - apply bind_Ok in Hfirst as (qe & _ & Hfirst).
      apply bind_Ok in Hfirst as ([translation positions] & _ & Hfirst).
      injection Hfirst as <- <-. cbn in Hst1. injection Hst1 as <-.
      cbn. lia.
    - injection Hfirst as <- <-. cbn [fst snd] in Hst1.
      destruct (characterisation_done || String.eqb strategy_type "diffractcal").
      + apply first_when_centred_events in Hst1 as [Hev|[_ (qe & Hev)]].
        * rewrite Hev. cbn. lia.
        * cbn [String.eqb Ascii.eqb Bool.eqb andb] in Hev.
          destruct Hev as (snap & Hev & Hsnap). rewrite Hev.
          unfold centrings, snapshot_series. cbn. rewrite Hsnap. cbn. lia.
      + destruct (negb (recentre_before_start bl)).
        * unfold first_when_precentred in Hst1. invert_result. subst.
          cbn. lia.
        * injection Hst1 as <-. discriminate Hts. }
  lia.
Qed.

End SetupCentrings.

Section SetupCentringExamples.
Import Messages Setup.
#[local] Open Scope list_scope.

Lemma setup_data_collection_centres_once_witness :
  exists out,
    setup_data_collection beamline_example true "acquisition" "sweep" None None
      plan_example = Ok out
    /\ (events out = [] \/ exists qe, events out = [Centring qe]).
Proof.
  destruct (setup_data_collection beamline_example true "acquisition" "sweep"
              None None plan_example) as [out|e] eqn:H;
    [|vm_compute in H; discriminate H].
  exists out. split; [reflexivity|].
  apply (setup_data_collection_centres_once beamline_example true
           "acquisition" "sweep" None None plan_example out H).
  discriminate.
Defined.

Lemma setup_data_collection_centres_all_witness :
  exists out,
    setup_data_collection beamline_example true "acquisition" "start" None None
      plan_example = Ok out
    /\ (2 <= snapshot_series (events out) <= centrings (events out))%nat
    /\ (centrings (events out) <= 3)%nat.
Proof.
  destruct (setup_data_collection beamline_example true "acquisition" "start"
              None None plan_example) as [out|e] eqn:H;
    [|vm_compute in H; discriminate H].
  exists out. split; [reflexivity|].
  apply (setup_data_collection_centres_all beamline_example true
           "acquisition" None None plan_example out H).
Defined.

End SetupCentringExamples.

(** ** The snapshots after a centring *)

Section SnapshotFacts.
Import Snapshots.
#[local] Open Scope list_scope.

Variables file_name_prefix timestamp snapshot_directory : string.

#[local] Abbreviation snapshot_loop :=
  (snapshot_loop file_name_prefix timestamp snapshot_directory).

(** The file of the snapshot of a given index. *)
#[local] Abbreviation file_of := (fun snapshot_index : nat =>
  path_join snapshot_directory
    (file_name_prefix +:+ "_" +:+ timestamp +:+ "_"
     +:+ pretty (snapshot_index + 1)%nat +:+ ".jpeg")).

Lemma snapshot_loop_from (first count : nat) (summed_angle : float) :
  let '(actions, total) :=
    snapshot_loop (seq (S first) count) summed_angle in
  omega_moves actions = repeat (Integer 90) count
  /\ snapshot_files actions = file_of <$> seq (S first) count
  /\ total = Nat.iter count (fun s => (s + 90)%float) summed_angle.
Proof.
  revert first summed_angle. induction count as [|count IH];
    intros first summed_angle; [repeat split|].
  cbn [seq Snapshots.snapshot_loop]. specialize (IH (S first) (summed_angle + 90)%float).
  destruct (snapshot_loop (seq (S (S first)) count) (summed_angle + 90))
    as [later total].
  destruct IH as (Hm & Hf & Ht). unfold omega_moves, snapshot_files in *.
  cbn. rewrite Hm, Hf.
  repeat split. rewrite Ht.
  apply (Nat.iter_swap count _ (fun s => (s + 90)%float)).
Qed.

Lemma iter_quarter_turns (count : nat) :
  Nat.iter count (fun s => (s + 90)%float) 0%float = quarter_turns count.
Proof.
  induction count as [|count IH]; [reflexivity|].
  cbn [quarter_turns]. rewrite Nat.iter_succ. now rewrite IH.
Qed.

Lemma adds_up_to (count : nat) :
  (count <= 1000)%nat -> adds_up count = true.
Proof.
  intros Hcount.
  assert (Hall : forallb adds_up (seq 0 1001) = true) by (vm_compute; reflexivity).
  rewrite forallb_forall in Hall. apply Hall, in_seq. lia.
Qed.

End SnapshotFacts.

Section SnapshotTurns.
Import Snapshots.
#[local] Open Scope list_scope.

(** X12.  For a number of snapshots from 1 to 1000, omega is turned by a
    quarter turn before every snapshot but the first, and after the last
    one it is turned back by the sum of the quarter turns, to the
    degree: the sample is left at the omega it was centred at. The files
    of the snapshots are numbered from 1. *)
Theorem collect_centring_snapshots_turns (number_of_snapshots : nat)
    (archive_directory timestamp file_name_prefix : string) (back : float) :
  (0 < number_of_snapshots <= 1000)%nat ->
  float_of_int (90 * (Z.of_nat number_of_snapshots - 1)) = Ok back ->
  let actions :=
    collect_centring_snapshots (Z.of_nat number_of_snapshots)
      archive_directory timestamp file_name_prefix in
  omega_moves actions
  = repeat (Integer 90) (number_of_snapshots - 1)
    ++ (if (1 <? number_of_snapshots)%nat then [Real (- back)] else [])
  /\ snapshot_files actions
     = (fun snapshot_index : nat =>
          path_join (path_join archive_directory "centring_snapshots")
            (file_name_prefix +:+ "_" +:+ timestamp +:+ "_"
             +:+ pretty (snapshot_index + 1)%nat +:+ ".jpeg"))
       <$> seq 0 number_of_snapshots.
Proof.
  intros [Hpos Hmax] Hback. cbn zeta. unfold collect_centring_snapshots.
  destruct number_of_snapshots as [|count]; [lia|].
  replace (Z.of_nat (S count) =? 0)%Z with false by (symmetry; apply Z.eqb_neq; lia).
  cbn [negb]. rewrite Nat2Z.id. cbn [seq Snapshots.snapshot_loop].
  pose proof (snapshot_loop_from file_name_prefix timestamp
                (path_join archive_directory "centring_snapshots")
                0 count 0%float) as Hloop.
  destruct (Snapshots.snapshot_loop _ _ _ (seq 1 count) 0) as [later total].
  destruct Hloop as (Hmoves & Hfiles & Htotal).
  rewrite iter_quarter_turns in Htotal.
  pose proof (adds_up_to count ltac:(lia)) as Hsum. unfold adds_up in Hsum.
  replace (90 * (Z.of_nat (S count) - 1))%Z with (90 * Z.of_nat count)%Z
    in Hback by lia.
  rewrite Hback in Hsum. apply andb_true_iff in Hsum as [Heq Htruthy].
  apply FloatAxioms.Leibniz.eqb_spec in Heq. apply Bool.eqb_prop in Htruthy.
  rewrite <- Htotal in Heq. subst back.
  unfold omega_moves, snapshot_files in *. rewrite !omap_app.
  cbn -[path_join]. rewrite Hmoves, Hfiles, Htruthy, Nat.sub_0_r.
  destruct count; cbn -[path_join]; rewrite ?app_nil_r; split; reflexivity.
Qed.

Lemma collect_centring_snapshots_turns_witness :
  omega_moves (collect_centring_snapshots 4 "/archive" "2021-03-01T12:00:00" "0_30_0")
  = [Integer 90; Integer 90; Integer 90; Real (-270)]
  /\ snapshot_files
       (collect_centring_snapshots 4 "/archive" "2021-03-01T12:00:00" "0_30_0")
     = ["/archive/centring_snapshots/0_30_0_2021-03-01T12:00:00_1.jpeg";
        "/archive/centring_snapshots/0_30_0_2021-03-01T12:00:00_2.jpeg";
        "/archive/centring_snapshots/0_30_0_2021-03-01T12:00:00_3.jpeg";
        "/archive/centring_snapshots/0_30_0_2021-03-01T12:00:00_4.jpeg"].
Proof.
  apply (collect_centring_snapshots_turns 4 "/archive" "2021-03-01T12:00:00"
           "0_30_0" 270); [lia|reflexivity].
Defined.

End SnapshotTurns.

(** ** The geometry solver's output: all axes or none *)

Section RecenAllOrNothing.
Import PyStr Recen.
#[local] Open Scope list_scope.

Variable float_of_str : str -> option float.

Lemma fill_result_Ok (roles : list string) (ii : nat) (ll0 : list str)
    (values out : gmap string float) :
  fill_result float_of_str roles ii ll0 values = Ok out ->
  dom out = dom values ∪ list_to_set roles
  /\ (ii + length roles <= length ll0 \/ roles = [])%nat.
Proof.
  revert ii values. induction roles as [|tag roles IH]; intros ii values H.
  - cbn in H. injection H as <-. split; [|now right].
    cbn [list_to_set]. now rewrite (right_id_L ∅ (∪)).
  - cbn [fill_result] in H.
    destruct (ll0 !! ii) as [word|] eqn:Hword; [|discriminate].
    destruct (float_of_str word) as [v|]; [|discriminate].
    apply IH in H as [Hdom Hlen]. split.
    + rewrite Hdom, dom_insert_L. cbn [list_to_set].
      rewrite (comm_L (∪) {[tag]} (dom values)).
      now rewrite (assoc_L (∪)).
    + left. apply lookup_lt_Some in Hword. cbn [length].
      destruct Hlen as [Hlen| ->]; cbn; lia.
Qed.

(** X13.  [calculate_recentring] never returns a part of a translation:
    when it returns, the result has a value for every translation axis
    and nothing is logged, or it is empty and one error is logged. Since
    the values are read from the last three words of a line, the first
    can only happen with three axes at most. *)
Theorem calculate_recentring_all_or_nothing
    (translation_axis_roles : list string) (run : completed)
    (values : gmap string float) (logged : list log_record) :
  calculate_recentring float_of_str translation_axis_roles run
  = Ok (values, logged) ->
  logged = [] /\ dom values = list_to_set translation_axis_roles
  /\ (length translation_axis_roles <= 3)%nat
  \/ values = ∅ /\ length logged = 1%nat.
Proof.
  unfold calculate_recentring.
  destruct run as [output|returncode output];
    [|intros [= <- <-]; right; now split].
  destruct (find_translation output) as [terminated_ok [ll0|]] eqn:Hfind;
    [|intros [= <- <-]; right; now split].
  intros H. apply bind_Ok in H as (out & Hfill & H). injection H as <- <-.
  left. apply fill_result_Ok in Hfill as [Hdom Hlen].
  split; [reflexivity|].
  split; [rewrite Hdom, dom_empty_L; apply (left_id_L ∅ (∪))|].
  destruct Hlen as [Hlen| ->]; [|cbn; lia].
  assert (Hll0 : (length ll0 <= 3)%nat).
  { unfold find_translation in Hfind. revert Hfind.
    generalize (reverse (splitlines output)). generalize false.
    intros flag lines. revert flag.
    induction lines as [|line lines IH]; intros flag H; [discriminate|].
    cbn [scan_lines] in H. destruct flag.
    - destruct (contains xyz_tag (strip line)); [|now apply IH in H].
      injection H as _ <-. unfold last_items. rewrite length_drop. lia.
    - destruct (bool_decide (strip line = marker)); now apply IH in H. }
  lia.
Qed.

End RecenAllOrNothing.

Section RecenAllOrNothingWitness.
Import PyStr Recen.
#[local] Open Scope list_scope.

Lemma calculate_recentring_all_or_nothing_witness :
  exists values logged,
    calculate_recentring float_example ["sampx"; "sampy"; "phiy"]
      (Returned translation_then_marker) = Ok (values, logged)
    /\ (logged = []
        /\ dom values = list_to_set ["sampx"; "sampy"; "phiy"]
        /\ (length ["sampx"; "sampy"; "phiy"] <= 3)%nat
        \/ values = ∅ /\ length logged = 1%nat).
Proof.
  destruct (calculate_recentring float_example ["sampx"; "sampy"; "phiy"]
              (Returned translation_then_marker)) as [[values logged]|e] eqn:H;
    [|vm_compute in H; discriminate H].
  exists values, logged. split; [reflexivity|].
  exact (calculate_recentring_all_or_nothing float_example _ _ _ _ H).
Defined.

End RecenAllOrNothingWitness.

(** ** Translation of a collection proposal: snapshots and centrings *)

Section CollectTasksFacts.
Import PyFloat Messages Collect.
#[local] Open Scope list_scope.

Lemma data_collections_app (a b : list task) :
  data_collections (a ++ b) = data_collections a ++ data_collections b.
Proof. apply omap_app. Qed.

(** What one turn of the loop over the scans leaves, when it returns. *)
Lemma collect_scan_Ok (ss : Session) (mt : option float) (n : Z)
    (st st' : loop_state) (scan : Scan) :
  collect_scan ss mt n st scan = Ok st' ->
  exists maxdev acq,
    let centring := recentre ss st (rotation_of scan) maxdev in
    let snapshotted :=
      bool_decide (rotation_of scan ∈ snapshotted_rotation_ids st)
      && bool_decide (Some (rotation_of scan) = current_rotation_id st) in
    queue st'
    = queue st
      ++ (if centring then [SampleCentring (initial_settings (sweep scan))]
          else [])
      ++ [DataCollection acq]
    /\ centred_position acq
       = (if centring then None
          else Some (<[scanAxis (goniostatSweepSetting (sweep scan))
                       := start scan]> (initial_settings (sweep scan))))
    /\ take_snapshots acq = (if snapshotted then 0%Z else snapshot_count ss)
    /\ first_image acq = imageStartNum scan
    /\ sweeps st' = sweep scan :: sweeps st
    /\ current_rotation_id st' = Some (rotation_of scan)
    /\ snapshotted_rotation_ids st'
       = (if snapshotted then snapshotted_rotation_ids st
          else {[rotation_of scan]} ∪ snapshotted_rotation_ids st).
Proof.
  unfold collect_scan. fold (rotation_of scan). intros H.
  apply bind_Ok in H as (detdistance & _ & H).
  apply bind_Ok in H as (maxdev & _ & H).
  apply bind_Ok in H as ([[[triggers per_trigger] images] overlap] & _ & H).
  injection H as <-. exists maxdev. eexists. cbn.
  repeat split; reflexivity.
Qed.

Lemma collect_data_Ok (ss : Session) (rid : option string) (failed : bool)
    (proposal : CollectionProposal) (done : CollectionDone) :
  collect_data ss rid failed proposal = Ok done ->
  init_spot_dir ss = false ->
  exists st,
    collect_scans ss (multitrigger ss proposal)
      (Z.of_nat (length (scans proposal)))
      {| sweeps := []; last_orientation := None; maxdev := (-1)%float;
         snapshotted_rotation_ids := ∅; current_rotation_id := rid;
         queue := [] |}
      (treated ss proposal) = Ok st
    /\ tasks done = queue st
    /\ final_rotation_id done = current_rotation_id st.
Proof.
  unfold collect_data, treated. intros H Hspot. rewrite Hspot in H.
  apply bind_Ok in H as (scans' & Hscans & H).
  apply bind_Ok in H as (st & Hst & H). injection H as <-.
  exists st. repeat split.
  destruct (multitrigger ss proposal).
  - destruct (negb _) in Hscans; [discriminate|]. now injection Hscans as <-.
  - now injection Hscans as <-.
Qed.

Lemma collect_scans_snapshots (ss : Session) (mt : option float) (n : Z)
    (scans : list Scan) (st st' : loop_state) (previous : option string) :
  collect_scans ss mt n st scans = Ok st' ->
  previous = None /\ snapshotted_rotation_ids st = ∅
  \/ (exists r, previous = Some r /\ current_rotation_id st = Some r
                /\ r ∈ snapshotted_rotation_ids st) ->
  take_snapshots <$> data_collections (queue st')
  = (take_snapshots <$> data_collections (queue st))
    ++ snapshots_planned (snapshot_count ss) previous scans.
Proof.
  revert st previous. induction scans as [|scan scans IH];
    intros st previous H Hprevious.
  - cbn in H. injection H as <-. cbn. now rewrite app_nil_r.
  - cbn [collect_scans] in H. apply bind_Ok in H as (st1 & Hstep & H).
    apply collect_scan_Ok in Hstep
      as (maxdev & acq & Hq & _ & Hsnap & _ & _ & Hcurrent & Hids).
    cbn zeta in Hq, Hsnap, Hids.
    rewrite (IH st1 (Some (rotation_of scan)) H).
    2: { right. exists (rotation_of scan). repeat split; [exact Hcurrent|].
         rewrite Hids. destruct (_ && _) eqn:Hb.
         - apply andb_true_iff in Hb as [Hb _].
           now apply bool_decide_eq_true in Hb.
         - apply elem_of_union_l, elem_of_singleton. reflexivity. }
    rewrite Hq, !data_collections_app, !fmap_app, <- app_assoc. f_equal.
    cbn [snapshots_planned].
    replace (data_collections
               (if recentre ss st (rotation_of scan) maxdev
                then [SampleCentring (initial_settings (sweep scan))] else []))
      with (@nil AcquisitionParameters) by now destruct (recentre _ _ _ _).
    cbn. rewrite Hsnap. do 2 f_equal.
    destruct Hprevious as [[-> Hempty]|(r & -> & Hr & Hin)].
    + rewrite Hempty.
      rewrite (bool_decide_eq_false_2 (rotation_of scan ∈ ∅))
        by apply not_elem_of_empty.
      cbn [andb].
      now rewrite (bool_decide_eq_false_2 (None = Some (rotation_of scan)))
        by discriminate.
    + rewrite Hr. destruct (decide (r = rotation_of scan)) as [<-|Hne].
      * rewrite (bool_decide_eq_true_2 (r ∈ snapshotted_rotation_ids st))
          by exact Hin.
        now rewrite !(bool_decide_eq_true_2 (Some r = Some r)) by reflexivity.
      * rewrite (bool_decide_eq_false_2 (Some (rotation_of scan) = Some r))
          by congruence.
        rewrite andb_false_r.
        now rewrite (bool_decide_eq_false_2 (Some r = Some (rotation_of scan)))
          by congruence.
Qed.

(** X14.  Snapshots are taken at the start and whenever the orientation
    changes: the first data collection of a proposal takes the snapshots
    of the session, and so does every one whose rotation id is not that
    of the scan before, be it an id that was met earlier; the others
    take none. *)
Theorem collect_data_snapshots (ss : Session) (rid : option string)
    (failed : bool) (proposal : CollectionProposal) (done : CollectionDone) :
  collect_data ss rid failed proposal = Ok done ->
  init_spot_dir ss = false ->
  take_snapshots <$> data_collections (tasks done)
  = snapshots_planned (snapshot_count ss) None (treated ss proposal).
Proof.
  intros H Hspot.
  apply collect_data_Ok in H as (st & Hst & -> & _); [|exact Hspot].
  rewrite (collect_scans_snapshots _ _ _ _ _ _ None Hst); [reflexivity|].
  now left.
Qed.

Lemma recentre_other_mode (ss : Session) (st : loop_state) (r : string)
    (maxdev : float) :
  recentring_mode ss <> "scan" -> recentring_mode ss <> "sweep" ->
  recentre ss st r maxdev = false.
Proof.
  intros Hscan Hsweep. unfold recentre. destruct (sweeps st); [reflexivity|].
  apply String.eqb_neq in Hscan, Hsweep. now rewrite Hscan, Hsweep.
Qed.

Lemma collect_scans_other_mode (ss : Session) (mt : option float) (n : Z)
    (scans : list Scan) (st st' : loop_state) :
  recentring_mode ss <> "scan" -> recentring_mode ss <> "sweep" ->
  collect_scans ss mt n st scans = Ok st' ->
  exists acqs,
    queue st' = queue st ++ (DataCollection <$> acqs)
    /\ Forall (fun acq => is_Some (centred_position acq)) acqs.
Proof.
  intros Hscan Hsweep. revert st.
  induction scans as [|scan scans IH]; intros st H.
  - cbn in H. injection H as <-. exists []. cbn. now rewrite app_nil_r.
  - cbn [collect_scans] in H. apply bind_Ok in H as (st1 & Hstep & H).
    apply collect_scan_Ok in Hstep as (maxdev & acq & Hq & Hpos & _).
    cbn zeta in Hq, Hpos.
    rewrite (recentre_other_mode ss st _ _ Hscan Hsweep) in Hq, Hpos.
    destruct (IH st1 H) as (acqs & Hq' & Hall).
    exists (acq :: acqs). split.
    + rewrite Hq', Hq. cbn. now rewrite <- app_assoc.
    + constructor; [rewrite Hpos; eauto|exact Hall].
Qed.

(** X15.  In a recentring mode other than ["scan"] and ["sweep"], that
    is in the modes ["start"] and ["none"], [collect_data] queues no
    centring: the queue holds data collections only, each with the
    precalculated position it is collected at. *)
Theorem collect_data_no_centring (ss : Session) (rid : option string)
    (failed : bool) (proposal : CollectionProposal) (done : CollectionDone) :
  collect_data ss rid failed proposal = Ok done ->
  recentring_mode ss <> "scan" -> recentring_mode ss <> "sweep" ->
  exists acqs,
    tasks done = DataCollection <$> acqs
    /\ Forall (fun acq => is_Some (centred_position acq)) acqs.
Proof.
  intros H Hscan Hsweep.
  destruct (init_spot_dir ss) eqn:Hspot.
  - unfold collect_data in H. rewrite Hspot in H. injection H as <-.
    exists []. split; [reflexivity|constructor].
  - apply collect_data_Ok in H as (st & Hst & -> & _); [|exact Hspot].
    apply collect_scans_other_mode in Hst as (acqs & Hq & Hall);
      [|exact Hscan|exact Hsweep].
    exists acqs. split; [exact Hq|exact Hall].
Qed.

Lemma recentred_scan (centring : bool) (settings : gmap string float)
    (acq : AcquisitionParameters) (rest : list task) :
  recentred
    ((if centring then [SampleCentring settings] else [])
     ++ [DataCollection acq] ++ rest)
  = centring :: recentred rest.
Proof. destruct centring; reflexivity. Qed.

Lemma collect_scans_each_scan (ss : Session) (mt : option float) (n : Z)
    (scans : list Scan) (st st' : loop_state) :
  recentring_mode ss = "scan" -> sweeps st <> [] ->
  collect_scans ss mt n st scans = Ok st' ->
  exists later,
    queue st' = queue st ++ later
    /\ recentred later = (fun _ => true) <$> scans.
Proof.
  intros Hmode. revert st.
  induction scans as [|scan scans IH]; intros st Hseen H.
  - cbn in H. injection H as <-. exists []. cbn. now rewrite app_nil_r.
  - cbn [collect_scans] in H. apply bind_Ok in H as (st1 & Hstep & H).
    apply collect_scan_Ok in Hstep
      as (maxdev & acq & Hq & _ & _ & _ & Hsweeps & _).
    cbn zeta in Hq.
    assert (Hcentring : recentre ss st (rotation_of scan) maxdev = true).
    { unfold recentre. destruct (sweeps st); [contradiction|].
      now rewrite Hmode. }
    rewrite Hcentring in Hq.
    destruct (IH st1) as (later & Hq' & Hlater); [now rewrite Hsweeps|exact H|].
    exists ([SampleCentring (initial_settings (sweep scan))]
            ++ [DataCollection acq] ++ later).
    split.
    + rewrite Hq', Hq, <- !app_assoc. reflexivity.
    + rewrite (recentred_scan true). cbn. now rewrite Hlater.
Qed.

(** X16.  In the recentring mode ["scan"], [collect_data] queues a
    centring before every scan but the first one of the proposal, which
    is collected where the sample stands. *)
Theorem collect_data_each_scan (ss : Session) (rid : option string)
    (failed : bool) (proposal : CollectionProposal) (done : CollectionDone) :
  collect_data ss rid failed proposal = Ok done ->
  init_spot_dir ss = false ->
  recentring_mode ss = "scan" ->
  recentred (tasks done)
  = match treated ss proposal with
    | [] => []
    | _ :: rest => false :: ((fun _ => true) <$> rest)
    end.
Proof.
  intros H Hspot Hmode.
  apply collect_data_Ok in H as (st & Hst & -> & _); [|exact Hspot].
  destruct (treated ss proposal) as [|scan rest].
  - cbn in Hst. now injection Hst as <-.
  - cbn [collect_scans] in Hst. apply bind_Ok in Hst as (st1 & Hstep & Hst).
    apply collect_scan_Ok in Hstep
      as (maxdev & acq & Hq & _ & _ & _ & Hsweeps & _).
    cbn in Hq.
    apply collect_scans_each_scan in Hst as (later & Hq' & Hlater);
      [|exact Hmode|now rewrite Hsweeps].
    rewrite Hq', Hq. cbn. now rewrite Hlater.
Qed.





End CollectTasksFacts.

Section CollectTasksExamples.
Import PyFloat Messages Collect.
#[local] Open Scope list_scope.

Lemma collect_data_snapshots_witness :
  exists done,
    collect_data (session_example "sweep" false) (Some "a") false interleaved
    = Ok done
    /\ take_snapshots <$> data_collections (tasks done) = [2; 0; 2; 0; 2]%Z.
Proof.
  destruct (collect_data (session_example "sweep" false) (Some "a") false
              interleaved) as [done|e] eqn:H;
    [|vm_compute in H; discriminate H].
  exists done. split; [reflexivity|].
  apply (collect_data_snapshots _ _ _ _ _ H). reflexivity.
Defined.

Lemma collect_data_no_centring_witness :
  exists done acqs,
    collect_data (session_example "none" false) (Some "a") false interleaved
    = Ok done
    /\ tasks done = DataCollection <$> acqs
    /\ Forall (fun acq => is_Some (centred_position acq)) acqs.
Proof.
  destruct (collect_data (session_example "none" false) (Some "a") false
              interleaved) as [done|e] eqn:H;
    [|vm_compute in H; discriminate H].
  destruct (collect_data_no_centring _ _ _ _ _ H) as (acqs & Htasks & Hall);
    [discriminate|discriminate|].
  exists done, acqs. split; [reflexivity|]. split; [exact Htasks|exact Hall].
Defined.

Lemma collect_data_each_scan_witness :
  exists done,
    collect_data (session_example "scan" false) (Some "a") false interleaved
    = Ok done
    /\ recentred (tasks done) = [false; true; true; true; true].
Proof.
  destruct (collect_data (session_example "scan" false) (Some "a") false
              interleaved) as [done|e] eqn:H;
    [|vm_compute in H; discriminate H].
  exists done. split; [reflexivity|].
  apply (collect_data_each_scan _ _ _ _ _ H); reflexivity.
Defined.


End CollectTasksExamples.

(** ** Lattice selection: the row and the table *)

Section OrderedDictSet.
Import Lattice.
#[local] Open Scope list_scope.

Context {V : Type}.

Lemma odict_get_set_eq (key : string) (v : V) (d : list (string * V)) :
  odict_get key (odict_set key v d) = Some v.
Proof.
  induction d as [|[k w] d IH]; cbn.
  - now rewrite String.eqb_refl.
  - destruct (String.eqb k key) eqn:Hk; cbn; now rewrite Hk.
Qed.

Lemma odict_get_set_ne (key key' : string) (v : V) (d : list (string * V)) :
  key' <> key -> odict_get key' (odict_set key v d) = odict_get key' d.
Proof.
  intros Hne. induction d as [|[k w] d IH]; cbn.
  - apply String.eqb_neq in Hne. rewrite String.eqb_sym. now rewrite Hne.
  - destruct (String.eqb k key) eqn:Hk; cbn.
    + apply String.eqb_eq in Hk as ->.
      apply not_eq_sym, String.eqb_neq in Hne. now rewrite Hne.
    + now rewrite IH.
Qed.

Lemma odict_set_keys (key : string) (v : V) (d : list (string * V)) :
  map fst (odict_set key v d)
  = if bool_decide (key ∈ map fst d) then map fst d else map fst d ++ [key].
Proof.
  induction d as [|[k w] d IH]; cbn.
  - now rewrite bool_decide_eq_false_2 by apply not_elem_of_nil.
  - destruct (String.eqb k key) eqn:Hk; cbn.
    + apply String.eqb_eq in Hk as ->.
      now rewrite bool_decide_eq_true_2 by apply list_elem_of_here.
    + apply String.eqb_neq in Hk. rewrite IH.
      rewrite (bool_decide_ext (key ∈ k :: map fst d) (key ∈ map fst d))
        by (rewrite elem_of_cons; intuition congruence).
      now destruct (bool_decide (key ∈ map fst d)).
Qed.

End OrderedDictSet.

Section FirstIndex.
Import Lattice.
#[local] Open Scope list_scope.

Context {A : Type}.

Lemma first_index_Some (test : A -> bool) (l : list A) (i : nat) :
  first_index test l = Some i ->
  exists x, l !! i = Some x /\ test x = true
            /\ forall j y, (j < i)%nat -> l !! j = Some y -> test y = false.
Proof.
  revert i. induction l as [|x l IH]; intros i H; [discriminate|].
  cbn [first_index] in H. destruct (test x) eqn:Hx.
  - injection H as <-. exists x. repeat split; [exact Hx|]. intros j y Hj. lia.
  - destruct (first_index test l) as [i'|]; [|discriminate].
    injection H as <-. destruct (IH i' eq_refl) as (z & Hz & Htest & Hbefore).
    exists z. repeat split; [exact Hz|exact Htest|].
    intros [|j] y Hj Hy; cbn in Hy.
    + now injection Hy as <-.
    + apply (Hbefore j); [lia|exact Hy].
Qed.

Lemma first_index_None (test : A -> bool) (l : list A) :
  first_index test l = None -> Forall (fun x => test x = false) l.
Proof.
  induction l as [|x l IH]; intros H; [constructor|].
  cbn [first_index] in H. destruct (test x) eqn:Hx; [discriminate|].
  constructor; [exact Hx|]. apply IH.
  now destruct (first_index test l).
Qed.

End FirstIndex.

Section LatticeRows.
Import Lattice.
#[local] Open Scope list_scope.

Variable format_columns :
  Z -> string -> float -> float * float * float -> float * float * float
  -> string.

#[local] Abbreviation parse_indexing_solution :=
  (parse_indexing_solution format_columns).

Lemma first_chars_raises (l : list string) (e : exn) :
  first_chars l = Raise e -> e = IndexError.
Proof.
  revert e. induction l as [|x l IH]; intros e H; [discriminate|].
  cbn [first_chars] in H. destruct x as [|c x]; cbn in H.
  - now injection H as <-.
  - destruct (first_chars l) as [cs|e'] eqn:Hcs; cbn in H; [discriminate|].
    injection H as <-. now apply IH.
Qed.

(** X18.  Without a consistent solution there is nothing to select:
    [parse_indexing_solution] raises [IndexError] on the table of an
    IDXREF run none of whose solutions is consistent, whatever the
    lattices and the crystal family asked for. *)
Theorem parse_indexing_solution_none_consistent (choose_lattice : ChooseLattice) :
  indexingFormat choose_lattice = "IDXREF" ->
  Forall (fun s => isConsistent s = false) (indexingSolutions choose_lattice) ->
  parse_indexing_solution choose_lattice = Raise IndexError.
Proof.
  intros Hformat Hnone. unfold Lattice.parse_indexing_solution.
  rewrite Hformat. cbn [String.eqb Ascii.eqb Bool.eqb andb].
  assert (Hempty : consistent_solutions_of (indexingSolutions choose_lattice) = []).
  { unfold consistent_solutions_of.
    induction Hnone as [|s l Hs _ IH]; [reflexivity|].
    cbn [List.filter]. now rewrite Hs. }
  rewrite Hempty. cbn [first_index last].
  destruct (default [] (lattices choose_lattice)) as [|lattice rest] eqn:Hl.
  - cbn. destruct (truthy_str (crystalFamilyChar choose_lattice)); reflexivity.
  - cbn [mbind result_bind].
    destruct (negb (truthy_str (crystalFamilyChar choose_lattice))).
    + destruct (first_chars (lattice :: rest)) as [aset|e] eqn:Hchars.
      * cbn. destruct aset as [|c [|? ?]]; cbn;
          match goal with
          | |- context [if ?b then _ else _] => destruct b
          end; reflexivity.
      * apply first_chars_raises in Hchars as ->. reflexivity.
    + cbn. destruct (truthy_str _); reflexivity.
Qed.

Lemma parse_indexing_solution_selects (choose_lattice : ChooseLattice)
    (header : string) (soldict : list (string * IndexingSolution))
    (select_row : option nat) :
  parse_indexing_solution choose_lattice = Ok (header, soldict, select_row) ->
  let consistent := consistent_solutions_of (indexingSolutions choose_lattice) in
  let allowed := default [] (lattices choose_lattice) in
  exists ii solution,
    select_row = Some ii /\ consistent !! ii = Some solution
    /\ (Exists (fun s => bravaisLattice s ∈ allowed) consistent ->
        bravaisLattice solution ∈ allowed
        /\ forall j s, (j < ii)%nat -> consistent !! j = Some s ->
                       bravaisLattice s ∉ allowed).
Proof.
  cbn zeta. unfold Lattice.parse_indexing_solution.
  destruct (String.eqb (indexingFormat choose_lattice) "IDXREF"); [|discriminate].
  set (consistent := consistent_solutions_of (indexingSolutions choose_lattice)).
  set (allowed := default [] (lattices choose_lattice)).
  set (by_lattice :=
         first_index (fun s => bool_decide (bravaisLattice s ∈ allowed))
           consistent).
  assert (Hallowed :
    match allowed with [] => None | _ :: _ => by_lattice end = by_lattice
    \/ allowed = []).
  { destruct allowed; [now right | now left]. }
  destruct by_lattice as [ii|] eqn:Hby.
  - (* a solution matches the lattices *)
    destruct Hallowed as [Hsame|Hnil].
    + rewrite Hsame. cbn. intros [= <- <- <-].
      apply first_index_Some in Hby as (solution & Hii & Htest & Hbefore).
      exists ii, solution. repeat split; [exact Hii| |].
      * now apply bool_decide_eq_true in Htest.
      * intros j s Hj Hs. specialize (Hbefore j s Hj Hs).
        now apply bool_decide_eq_false in Hbefore.
    + apply first_index_Some in Hby as (solution & _ & Htest & _).
      apply bool_decide_eq_true in Htest. rewrite Hnil in Htest.
      now apply elem_of_nil in Htest.
  - (* none does: the crystal family, then the last consistent solution *)
    apply first_index_None in Hby.
    assert (Hnone : ~ Exists (fun s => bravaisLattice s ∈ allowed) consistent).
    { intros Hex. apply Exists_exists in Hex as (s & Hs & Hin).
      rewrite Forall_forall in Hby. specialize (Hby s Hs).
      now apply bool_decide_eq_false in Hby. }
    replace (match allowed with [] => None | _ :: _ => None end)
      with (@None nat) by now destruct allowed.
    intros H. apply bind_Ok in H as (row & Hrow & H).
    apply bind_Ok in H as (row' & Hrow' & H). injection H as <- <- <-.
    assert (Hfound : exists ii solution,
              row' = Some ii /\ consistent !! ii = Some solution).
    { destruct row as [ii|].
      - injection Hrow' as <-.
        apply bind_Ok in Hrow as (family & _ & Hrow).
        destruct (truthy_str family); [|discriminate].
        injection Hrow as Hrow.
        apply first_index_Some in Hrow as (solution & Hii & _).
        exists ii, solution. now split.
      - destruct (last consistent) as [final|] eqn:Hlast; [|discriminate].
        injection Hrow' as <-.
        destruct (first_index (fun s => String.eqb _ _) consistent)
          as [ii|] eqn:Hfirst.
        + apply first_index_Some in Hfirst as (solution & Hii & _).
          exists ii, solution. now split.
        + apply first_index_None in Hfirst. rewrite Forall_forall in Hfirst.
          apply last_Some_elem_of in Hlast. specialize (Hfirst final Hlast).
          cbn in Hfirst. now rewrite String.eqb_refl in Hfirst. }
    destruct Hfound as (ii & solution & -> & Hii).
    exists ii, solution. repeat split; [exact Hii|contradiction|contradiction].
Qed.

(** X19.  When [parse_indexing_solution] returns, the row it selects is
    a row of the consistent solutions; and when one of them has a
    lattice that is among the lattices asked for, the row is the first
    such solution. *)
Theorem parse_indexing_solution_row (choose_lattice : ChooseLattice)
    (header : string) (soldict : list (string * IndexingSolution))
    (select_row : option nat) :
  parse_indexing_solution choose_lattice = Ok (header, soldict, select_row) ->
  let consistent := consistent_solutions_of (indexingSolutions choose_lattice) in
  let allowed := default [] (lattices choose_lattice) in
  exists ii solution,
    select_row = Some ii /\ consistent !! ii = Some solution
    /\ (Exists (fun s => bravaisLattice s ∈ allowed) consistent ->
        bravaisLattice solution ∈ allowed
        /\ forall j s, (j < ii)%nat -> consistent !! j = Some s ->
                       bravaisLattice s ∉ allowed).
Proof. apply parse_indexing_solution_selects. Qed.

Lemma parse_indexing_solution_table (choose_lattice : ChooseLattice)
    (header : string) (soldict : list (string * IndexingSolution))
    (select_row : option nat) :
  parse_indexing_solution choose_lattice = Ok (header, soldict, select_row) ->
  soldict = solutions_dict_of format_columns (indexingSolutions choose_lattice).
Proof.
  unfold Lattice.parse_indexing_solution.
  destruct (String.eqb (indexingFormat choose_lattice) "IDXREF"); [|discriminate].
  intros H. apply bind_Ok in H as (row & _ & H).
  apply bind_Ok in H as (row' & _ & H). now injection H as _ <- _.
Qed.

Lemma odict_set_new {V} (key : string) (v : V) (d : list (string * V)) :
  key ∉ map fst d -> odict_set key v d = d ++ [(key, v)].
Proof.
  induction d as [|[k w] d IH]; intros Hout; [reflexivity|].
  cbn [map fst] in Hout. apply not_elem_of_cons in Hout as [Hne Hout].
  cbn [odict_set app]. apply not_eq_sym, String.eqb_neq in Hne.
  rewrite Hne. now rewrite IH.
Qed.

Lemma solutions_dict_of_distinct (solutions : list IndexingSolution) :
  NoDup (solution_line format_columns <$> solutions) ->
  solutions_dict_of format_columns solutions
  = map (fun s => (solution_line format_columns s, s)) solutions.
Proof.
  unfold solutions_dict_of.
  induction solutions as [|s solutions IH] using rev_ind; intros Hnd;
    [reflexivity|].
  rewrite fmap_app in Hnd. apply NoDup_app in Hnd as (Hnd & Hfresh & _).
  rewrite foldl_app, map_app. cbn [foldl map]. rewrite (IH Hnd).
  apply odict_set_new. rewrite map_map. cbn [fst].
  intros Hin. apply (Hfresh _ Hin). cbn. apply list_elem_of_here.
Qed.

(** X21.  Where the consistent solutions come first in the table, as
    IDXREF lists them, and no two solutions are formatted to the same
    line, the row selected among the consistent solutions is also the
    row of the table: [select_lattice] on Python 2 returns the solution
    that [parse_indexing_solution] has selected. *)
Theorem select_lattice_consistent_first (choose_lattice : ChooseLattice)
    (consistent others : list IndexingSolution) (header : string)
    (soldict : list (string * IndexingSolution)) (select_row : option nat) :
  indexingSolutions choose_lattice = consistent ++ others ->
  Forall (fun s => isConsistent s = true) consistent ->
  Forall (fun s => isConsistent s = false) others ->
  NoDup (solution_line format_columns <$> indexingSolutions choose_lattice) ->
  parse_indexing_solution choose_lattice = Ok (header, soldict, select_row) ->
  exists ii solution,
    select_row = Some ii /\ consistent !! ii = Some solution
    /\ select_lattice format_columns Py2 choose_lattice = Ok solution.
Proof.
  intros Hsolutions Hconsistent Hothers Hlines Hparse.
  pose proof (parse_indexing_solution_table _ _ _ _ Hparse) as Htable.
  destruct (parse_indexing_solution_selects _ _ _ _ Hparse)
    as (ii & solution & -> & Hii & _).
  assert (Hfilter : consistent_solutions_of (indexingSolutions choose_lattice)
                    = consistent).
  { rewrite Hsolutions. unfold consistent_solutions_of.
    rewrite List.filter_app.
    replace (List.filter isConsistent others) with (@nil IndexingSolution).
    - rewrite app_nil_r. clear -Hconsistent.
      induction Hconsistent as [|s l Hs _ IH]; [reflexivity|].
      cbn [List.filter]. now rewrite Hs, IH.
    - clear -Hothers. induction Hothers as [|s l Hs _ IH]; [reflexivity|].
      cbn [List.filter]. now rewrite Hs. }
  rewrite Hfilter in Hii. exists ii, solution.
  split; [reflexivity|]. split; [exact Hii|].
  unfold select_lattice. rewrite Hparse. cbn [mbind result_bind].
  unfold values_subscript, odict_values.
  rewrite Htable, (solutions_dict_of_distinct _ Hlines), map_map. cbn [snd].
  rewrite map_id, Hsolutions, (lookup_app_l_Some _ _ _ _ Hii). reflexivity.
Qed.

(** X20.  The table of the solutions has one row for each distinct line,
    in the order in which the lines are first met; looking a line up
    gives the last of the solutions that are formatted to it. *)
Theorem solutions_dict_of_lines (solutions : list IndexingSolution) :
  let line := solution_line format_columns in
  let soldict := solutions_dict_of format_columns solutions in
  map fst soldict = first_encountered (line <$> solutions)
  /\ forall key,
       odict_get key soldict = last (filter (fun s => line s = key) solutions).
Proof.
  cbn zeta. unfold solutions_dict_of.
  induction solutions as [|s solutions [IHkeys IHget]] using rev_ind;
    [split; reflexivity|].
  rewrite foldl_app. cbn [foldl]. split.
  - rewrite odict_set_keys, IHkeys, fmap_app. cbn [fmap list_fmap].
    rewrite first_encountered_snoc.
    apply (f_equal (fun b : bool => if b then _ else _)).
    apply bool_decide_ext, first_encountered_elem.
  - intros key. rewrite filter_app.
    destruct (decide (solution_line format_columns s = key)) as [<-|Hne].
    + rewrite odict_get_set_eq, filter_cons_True, filter_nil by reflexivity.
      now rewrite last_snoc.
    + rewrite odict_get_set_ne by congruence.
      rewrite filter_cons_False, filter_nil, app_nil_r by exact Hne.
      apply IHget.
Qed.

End LatticeRows.

Section LatticeRowExamples.
Import Lattice.
#[local] Open Scope list_scope.

Lemma parse_indexing_solution_none_consistent_witness :
  parse_indexing_solution columns_example
    (choose_among "IDXREF" [candidate_oP; candidate false 12 "hP" 250])
  = Raise IndexError.
Proof.
  apply parse_indexing_solution_none_consistent; [reflexivity|].
  repeat constructor.
Defined.

(** Of the consistent solutions tP and mC, the second has the lattice
    that is asked for: its row, in the consistent solutions, is 1. *)
Lemma parse_indexing_solution_row_witness :
  exists ii solution,
    Some 1%nat = Some ii
    /\ [candidate_tP; candidate_mC] !! ii = Some solution
    /\ (Exists (fun s => bravaisLattice s ∈ ["mC"]) [candidate_tP; candidate_mC] ->
        bravaisLattice solution ∈ ["mC"]
        /\ forall j s, (j < ii)%nat -> [candidate_tP; candidate_mC] !! j = Some s ->
                       bravaisLattice s ∉ ["mC"]).
Proof.
  apply (parse_indexing_solution_row columns_example
           (choose_among "IDXREF" [candidate_oP; candidate_tP; candidate_mC])
           (header)
           (solutions_dict_of columns_example
              [candidate_oP; candidate_tP; candidate_mC])).
  reflexivity.
Defined.

(** The table of the example with the consistent solutions first. *)
Lemma select_lattice_consistent_first_witness :
  exists ii solution,
    Some 0%nat = Some ii /\ [candidate_mC; candidate_tP] !! ii = Some solution
    /\ select_lattice columns_example Py2
         (choose_among "IDXREF" [candidate_mC; candidate_tP; candidate_oP])
       = Ok solution.
Proof.
  apply (select_lattice_consistent_first columns_example
           (choose_among "IDXREF" [candidate_mC; candidate_tP; candidate_oP])
           [candidate_mC; candidate_tP] [candidate_oP] header
           (solutions_dict_of columns_example
              [candidate_mC; candidate_tP; candidate_oP])).
  - reflexivity.
  - repeat constructor.
  - repeat constructor.
  - refine (bool_decide_unpack _ _). vm_compute. exact I.
  - reflexivity.
Defined.

End LatticeRowExamples.

(** ** The controller: the end of the loop, subprocesses, the zoom *)

Section ControllerLoop.
Import Messages Controller.
#[local] Open Scope list_scope.

Context {Model External Reply : Type}.

#[local] Abbreviation GphlWorkflow := (GphlWorkflow Model External Reply).
#[local] Abbreviation World := (World Model External Reply).
#[local] Abbreviation entry := (entry External).

Lemma processor_functions_ending (message_type : string) (func : handler) :
  processor_functions !! message_type = Some func ->
  is_ending func
  = bool_decide
      (message_type ∈ ["WorkflowAborted"; "WorkflowCompleted"; "WorkflowFailed"]).
Proof.
  intros H. apply elem_of_list_to_map_2 in H.
  repeat (apply elem_of_cons in H as [H | H];
          [injection H as -> ->; reflexivity|]).
  now apply elem_of_nil in H.
Qed.

Lemma process_centring_request_queue (w : World) (self : GphlWorkflow)
    (request_centring : RequestCentring) :
  _workflow_queue (process_centring_request w self request_centring).1
  = _workflow_queue self.
Proof.
  unfold process_centring_request.
  destruct self as [state zoom names group q m l moves rs].
  destruct group, (currentSettingNo request_centring <? 2)%Z, zoom,
    (translation request_centring); cbn; try reflexivity.
  all: destruct (zoom_positions w) as [ll0|]; cbn;
    [destruct (last ll0); reflexivity|].
  all: destruct (parameters_needed w request_centring); reflexivity.
Qed.

Lemma invoke_queue (w : World) (func : handler) (self : GphlWorkflow)
    (p : payload External) (correlation_id : option string) :
  _workflow_queue (invoke w func self p correlation_id).1
  = if is_ending func then (fun q => q ++ [Stop]) <$> _workflow_queue self
    else _workflow_queue self.
Proof.
  destruct func; cbn -[process_centring_request]; try reflexivity.
  - destruct p; cbn; try reflexivity. unfold echo_info_string.
    destruct (subprocess_name _ _) as [[|? ?]|]; reflexivity.
  - destruct p; cbn; try reflexivity.
    destruct correlation_id as [[|? ?]|]; reflexivity.
  - unfold echo_subprocess_stopped.
    destruct (subprocess_name _ _), correlation_id; reflexivity.
  - destruct (data_handler w _ _ _ _) as [[? ?] ?]; reflexivity.
  - destruct (data_handler w _ _ _ _) as [[? ?] ?]; reflexivity.
  - destruct (data_handler w _ _ _ _) as [[? ?] ?]; reflexivity.
  - destruct p; try reflexivity. apply process_centring_request_queue.
  - destruct (data_handler w _ _ _ _) as [[? ?] ?]; reflexivity.
Qed.

Lemma first_stop_length (q : list entry) : first_stop q <= length q.
Proof. induction q as [|[|] q IH]; cbn; lia. Qed.

Lemma first_stop_snoc (q : list entry) : first_stop (q ++ [Stop]) = first_stop q.
Proof. induction q as [|[|] q IH]; cbn; congruence. Qed.

Lemma execute_leaves_loop (w : World) (turns : nat) :
  forall (self : GphlWorkflow) (q : list entry),
    _workflow_queue self = Some q ->
    Exists (fun e => ends_workflow e = true) q ->
    first_stop q < turns ->
    left_loop (execute w turns self).2.
Proof.
  induction turns as [|turns IH]; intros self q Hq Hends Hturns; [lia|].
  cbn [execute]. unfold dispatch. rewrite Hq.
  destruct q as [|[|message_type p correlation_id result_list] rest].
  - now apply Exists_nil in Hends.
  - left. reflexivity.
  - cbn [first_stop] in Hturns.
    destruct (processor_functions !! message_type) as [func|] eqn:Hfunc;
      [|left; reflexivity].
    apply processor_functions_ending in Hfunc.
    apply Exists_cons in Hends. cbn [ends_workflow] in Hends.
    rewrite <- Hfunc in Hends.
    destruct (negb (String.eqb message_type "String")) eqn:Hstring.
    2: { apply (IH _ rest); [reflexivity| |lia].
         destruct Hends as [Hends|Hends]; [|exact Hends].
         apply negb_false_iff, String.eqb_eq in Hstring. subst message_type.
         rewrite Hfunc in Hends. discriminate Hends. }
    set (logged := with_log (with_queue self (Some rest)) _).
    pose proof (invoke_queue w func logged p correlation_id) as Hafter.
    destruct (invoke w func logged p correlation_id) as [after [response|e]];
      [|right; eauto].
    cbn [fst] in Hafter.
    assert (Hnext : exists q',
      _workflow_queue after = Some q'
      /\ Exists (fun e => ends_workflow e = true) q'
      /\ first_stop q' < turns).
    { destruct (is_ending func).
      - exists (rest ++ [Stop]). split; [exact Hafter|]. split.
        + apply Exists_app. right. now constructor.
        + rewrite first_stop_snoc. lia.
      - exists rest. split; [exact Hafter|]. split; [|lia].
        destruct Hends as [Hends|Hends]; [discriminate Hends|exact Hends]. }
    destruct Hnext as (q' & Hq' & Hends' & Hturns').
    destruct result_list; apply (IH _ q'); assumption.
Qed.

(** X22.  Once the queue holds the stop sentinel, or a message that the
    workflow was aborted, was completed or failed, the loop is left (by
    [break] or by the exception of a handler) without waiting for
    another message, after at most as many turns as the queue has
    entries, and one more. *)
Theorem execute_ends (w : World) (turns : nat) (self : GphlWorkflow)
    (q : list entry) :
  _workflow_queue self = Some q ->
  Exists (fun e => ends_workflow e = true) q ->
  length q < turns ->
  left_loop (execute w turns self).2.
Proof.
  intros Hq Hends Hturns. apply (execute_leaves_loop w turns self q Hq Hends).
  pose proof (first_stop_length q). lia.
Qed.

Lemma dispatch_message (w : World) (self : GphlWorkflow)
    (message_type : string) (func : handler) (p : payload External)
    (correlation_id : option string) (rest : list entry) :
  _workflow_queue self
  = Some (Message message_type p correlation_id None :: rest) ->
  processor_functions !! message_type = Some func ->
  String.eqb message_type "String" = false ->
  dispatch w self
  = let logged :=
      with_log (with_queue self (Some rest))
        {| logger := "HWR"; level := "INFO";
           text := "GPhL queue processing " +:+ message_type |} in
    match invoke w func logged p correlation_id with
    | (after, Ok _) => (after, Continue)
    | (after, Raise e) => (after, Raised e)
    end.
Proof.
  intros Hq Hfunc Hstring. unfold dispatch. rewrite Hq, Hfunc, Hstring.
  cbn [negb]. cbn zeta.
  destruct (invoke w func _ p correlation_id) as [after [response|e]];
    reflexivity.
Qed.

(** X23.  A subprocess that is announced and then reported as stopped
    under the same correlation id is logged by its name both times, and
    the table of names keeps no entry for the id afterwards; the rest of
    the queue is left for the turns to come. *)
Theorem subprocess_started_then_stopped (w : World) (self : GphlWorkflow)
    (name id : string) (p : payload External) (rest : list entry) :
  id <> "" ->
  _workflow_queue self
  = Some (Message "SubprocessStarted" (Subprocess name) (Some id) None
          :: Message "SubprocessStopped" p (Some id) None :: rest) ->
  let after := (execute w 2 self).1 in
  (execute w 2 self).2 = Continue
  /\ _server_subprocess_names after = delete id (_server_subprocess_names self)
  /\ _workflow_queue after = Some rest
  /\ log after
     = log self
       ++ [{| logger := "HWR"; level := "INFO";
              text := "GPhL queue processing SubprocessStarted" |};
           {| logger := "root"; level := "INFO"; text := name +:+ " : STARTING" |};
           {| logger := "HWR"; level := "INFO";
              text := "GPhL queue processing SubprocessStopped" |};
           {| logger := "root"; level := "INFO"; text := name +:+ " : FINISHED" |}].
Proof.
  intros Hid Hq. destruct id as [|a id]; [congruence|].
  cbn [execute].
  rewrite (dispatch_message w self _ echo_subprocess_started_ _ _ _ Hq)
    by reflexivity.
  cbn [invoke echo_subprocess_started]. cbn zeta iota beta.
  match goal with |- context [dispatch w ?s] => set (started := s) end.
  assert (Hq' : _workflow_queue started
                = Some (Message "SubprocessStopped" p (Some (String a id)) None
                        :: rest)) by reflexivity.
  rewrite (dispatch_message w started _ echo_subprocess_stopped_ _ _ _ Hq')
    by reflexivity.
  cbn [invoke echo_subprocess_stopped]. cbn zeta iota beta.
  unfold echo_subprocess_stopped, subprocess_name.
  cbn [mbind option_bind].
  match goal with
  | |- context [_server_subprocess_names ?s !! String a id] =>
      assert (Hname : _server_subprocess_names s !! String a id = Some name)
        by (cbn; apply lookup_insert_eq)
  end.
  rewrite Hname. cbn.
  rewrite delete_insert_eq, <- !app_assoc. repeat split.
Qed.

(** X24.  A turn of the loop moves the zoom motor at most once, and only
    when it switches the fine zoom on: the fine zoom was off before the
    turn and is on after it, and the motor goes to the last of its
    predefined positions. *)
Theorem zoom_moved_on_activation (w : World) (self : GphlWorkflow) :
  let after := (dispatch w self).1 in
  zoom_moves after = zoom_moves self
  \/ exists ll0 position,
       zoom_positions w = Some ll0 /\ last ll0 = Some position
       /\ zoom_moves after = zoom_moves self ++ [position]
       /\ _use_fine_zoom self = false /\ _use_fine_zoom after = true.
Proof.
  cbn zeta.
  assert (Hfunc : forall (func : handler) (p : payload External)
                         (correlation_id : option string) (self : GphlWorkflow),
    let after := (invoke w func self p correlation_id).1 in
    zoom_moves after = zoom_moves self
    \/ exists ll0 position,
         zoom_positions w = Some ll0 /\ last ll0 = Some position
         /\ zoom_moves after = zoom_moves self ++ [position]
         /\ _use_fine_zoom self = false /\ _use_fine_zoom after = true).
  { clear. intros func p correlation_id [state zoom names group q m l moves rs].
    destruct func; cbn; auto.
    - destruct p; cbn; auto. unfold echo_info_string.
      destruct (subprocess_name _ _) as [[|? ?]|]; cbn; auto.
    - destruct p; cbn; auto. destruct correlation_id as [[|? ?]|]; cbn; auto.
    - unfold echo_subprocess_stopped.
      destruct (subprocess_name _ _), correlation_id; cbn; auto.
    - destruct (data_handler w _ _ _ _) as [[? ?] ?]; cbn; auto.
    - destruct (data_handler w _ _ _ _) as [[? ?] ?]; cbn; auto.
    - destruct (data_handler w _ _ _ _) as [[? ?] ?]; cbn; auto.
    - destruct p as [| | |request_centring|]; cbn; auto.
      unfold process_centring_request.
      destruct group, (currentSettingNo request_centring <? 2)%Z, zoom,
        (translation request_centring); cbn; auto.
      all: destruct (zoom_positions w) as [ll0|] eqn:Hzoom; cbn.
      all: try (destruct (parameters_needed w request_centring); cbn; now auto).
      all: destruct (last ll0) as [position|] eqn:Hlast; cbn; auto.
      all: right; exists ll0, position; auto.
    - destruct (data_handler w _ _ _ _) as [[? ?] ?]; cbn; auto. }
  unfold dispatch.
  destruct (_workflow_queue self)
    as [[|[|message_type p correlation_id result_list] rest]|];
    [now left | now left | | now left].
  destruct (processor_functions !! message_type) as [func|]; [|now left].
  destruct (negb (String.eqb message_type "String")); [|now left].
  set (logged := with_log (with_queue self (Some rest)) _).
  specialize (Hfunc func p correlation_id logged).
  destruct (invoke w func logged p correlation_id) as [after [response|e]];
    [destruct result_list|]; exact Hfunc.
Qed.

End ControllerLoop.

Section ControllerLoopExamples.
Import Messages Controller.
#[local] Open Scope list_scope.

(** A centring request, then the message that the workflow is
    completed, then a message that is never read. *)
Lemma execute_ends_witness :
  left_loop
    (execute world_example 4
       (workflow_example false
          [Message "RequestCentring" (Centring (request_example 2)) None None;
           Message "WorkflowCompleted" NoPayload None None;
           Message "PrepareForCentring" NoPayload None None])).2.
Proof.
  eapply execute_ends; [reflexivity| |cbn; lia].
  apply Exists_cons_tl, Exists_cons_hd. reflexivity.
Defined.

Lemma subprocess_started_then_stopped_witness :
  _server_subprocess_names
    (execute world_example 2
       (workflow_example false
          [Message "SubprocessStarted" (Subprocess "simcal") (Some "7") None;
           Message "SubprocessStopped" NoPayload (Some "7") None])).1
  = delete "7" {["42" := "recen"]}.
Proof.
  eapply (subprocess_started_then_stopped world_example); [|reflexivity].
  discriminate.
Defined.

End ControllerLoopExamples.

(** ** The attenuators mockup *)

Section AttenuatorFacts.
Import AttenuatorsMockup.
#[local] Open Scope list_scope.

Lemma run_calls (calls : list call) (self : AttenuatorsMockup.AttenuatorsMockup) :
  let after := foldl run self calls in
  getAttFactor after = default (value self) (last (asked <$> calls))
  /\ emitted after
     = emitted self ++ ((fun c => ("attFactorChanged", asked c)) <$> calls).
Proof.
  revert self. induction calls as [|c calls IH]; intros self.
  - cbn. now rewrite app_nil_r.
  - cbn [foldl]. destruct (IH (run self c)) as [Hvalue Hemitted].
    cbn zeta. rewrite Hvalue, Hemitted. split.
    + cbn [fmap list_fmap]. rewrite last_cons.
      destruct (last (asked <$> calls)); [reflexivity|].
      destruct c; reflexivity.
    + destruct c; cbn; now rewrite <- app_assoc.
Qed.

(** X25.  Whatever calls of [set_value] and [setTransmission] a new
    mockup receives, [getAttFactor] returns the factor of the last call
    (the integer 0 when there was none), the signal ["attFactorChanged"]
    has been emitted once at the creation and once for each call with
    the factor that was asked for, in order, and the state is 0. *)
Theorem attenuators_follow_calls (calls : list call) :
  let device := foldl run __init__ calls in
  getAttFactor device = default (Integer 0) (last (asked <$> calls))
  /\ emitted device
     = (fun factor => ("attFactorChanged", factor))
       <$> (Integer 0 :: (asked <$> calls))
  /\ getAttState device = 0%Z.
Proof.
  cbn zeta. destruct (run_calls calls __init__) as [Hvalue Hemitted].
  split; [exact Hvalue|]. split; [|reflexivity].
  rewrite Hemitted. cbn. f_equal. now rewrite <- list_fmap_compose.
Qed.

End AttenuatorFacts.
